(** * Playback engine of the RealSense SDK: [disk_read_base]

    A shallow embedding of [rs::playback::disk_read_base] (the recorded-session
    reader: prefetch queue, pacing clock, seek by index and by time stamp,
    nearest-frame resolution, stream enabling, capture mode) and properties of
    it: those the specification states (C1, C2, ...) and further ones read off
    the code (X1, X2, ...).

    Conventions of the embedding.
    - The C++ object is the record [disk_read_base]; a member function is a
      function in the monad [M], which threads the object, lets a
      [std::runtime_error] escape with the object as it stood at the [throw],
      and counts loop iterations that the source does not bound with fuel.
    - [std::map] is [gmap]; [operator[]] inserts a value-initialised entry
      when the key is missing, [find] does not.
    - [uint64_t] time stamps are [Z] with the wrap-around written out;
      positions in [m_samples_desc] are [nat] (descriptor lists are assumed
      shorter than 2^32, so the [uint32_t] indices of the source do not wrap).
    - A [double] is the rational it denotes.
    - The wall clock is the field [clock]; it advances only in [sleep_for].
    - The two callbacks are observed through [delivered] and [eof_calls]. *)

From Stdlib Require Import ZArith QArith String Lia.
From stdpp Require Import gmap list sorting.

(** ** File format types ([rs::core::file_types]) *)

Inductive sample_type :=
| st_image
| st_motion
| st_time
| st_debug_event
| st_undefined (raw : Z).

Inductive compression_type :=
| none
| h264
| lz4
| ct_undefined (raw : Z).

Inductive status :=
| status_no_error
| status_error (code : Z).

Inductive move_method := begin | current.

Inductive capture_mode := synced | asynced.

Inductive chunk_id :=
| chunk_image_metadata
| chunk_sample_data
| chunk_other (raw : Z).

Record chunk_info := { id_ : chunk_id; size_ : Z }.

(** [info]: the capture time (a [uint64_t]) and the byte offset; [info.type]
    is [type] below. *)
Record sample_info := { capture_time : Z; offset : Z }.

(** [finfo]: the stream, the frame time stamp (a [double]), the compression
    type and the frame number. *)
Record frame_info := {
  stream : nat;
  time_stamp : Q;
  ctype : compression_type;
  number : Z }.

(** A sample and its dynamic class.  [frame_sample] is the class of the
    records whose [info.type] is [st_image]; [dynamic_pointer_cast] to
    [frame_sample] succeeds on it alone. *)
Inductive sample :=
| frame_sample (i : sample_info) (f : frame_info) (data : list Z)
| motion_sample (i : sample_info)
| time_stamp_sample (i : sample_info)
| debug_event_sample (i : sample_info)
| undefined_sample (raw : Z) (i : sample_info).

Definition info (s : sample) : sample_info :=
  match s with
  | frame_sample i _ _ | motion_sample i | time_stamp_sample i
  | debug_event_sample i | undefined_sample _ i => i
  end.

Definition type (s : sample) : sample_type :=
  match s with
  | frame_sample _ _ _ => st_image
  | motion_sample _ => st_motion
  | time_stamp_sample _ => st_time
  | debug_event_sample _ => st_debug_event
  | undefined_sample raw _ => st_undefined raw
  end.

Record stream_info := {
  nframes : Z;
  si_ctype : compression_type;
  width : Z;
  height : Z }.

(** What [std::map::operator[]] inserts for a missing stream. *)
Definition stream_info_zero : stream_info :=
  {| nframes := 0; si_ctype := none; width := 0; height := 0 |}.

(** The entry of an enabled stream.  The counter is kept as an integer: its
    declared type is outside the sources. *)
Record active_stream_info := {
  asi_image_indices : list nat;
  m_prefetched_samples_count : Z;
  m_stream_info : stream_info }.

Definition active_stream_info_zero : active_stream_info :=
  {| asi_image_indices := []; m_prefetched_samples_count := 0;
     m_stream_info := stream_info_zero |}.

(** [std::thread]: a handle stays joinable after its function has returned,
    until [join]. *)
Inductive thread := not_a_thread | running | finished.

Definition joinable (t : thread) : bool :=
  match t with not_a_thread => false | _ => true end.

(** ** Machine arithmetic *)

Definition to_uint64 (z : Z) : Z := (z mod 2 ^ 64)%Z.
Definition to_uint32 (z : Z) : Z := (z mod 2 ^ 32)%Z.
(** [static_cast<int>]: the low 32 bits, read as two's complement. *)
Definition to_int (z : Z) : Z := ((z + 2 ^ 31) mod 2 ^ 32 - 2 ^ 31)%Z.
(** [(int32_t)] then back to the [uint32_t] return type. *)
Definition to_int32 (z : Z) : Z := to_int z.

(** [(double)ts] for a [uint64_t]: round to 53 significant bits, ties to even. *)
Definition uint64_to_double (z : Z) : Q :=
  let bits := (Z.log2 z + 1)%Z in
  if (bits <=? 53)%Z then inject_Z z
  else
    let sh := (bits - 53)%Z in
    let q := Z.shiftr z sh in
    let r := Z.land z (Z.ones sh) in
    let half := Z.shiftl 1 (sh - 1) in
    let q' := if (half <? r)%Z || ((r =? half)%Z && Z.odd q) then (q + 1)%Z else q in
    inject_Z (Z.shiftl q' sh).

(** ** Ordered maps *)

Definition key_le {A} (a b : nat * A) : Prop := a.1 ≤ b.1.

#[global] Instance key_le_dec {A} : RelDecision (@key_le A).
Proof. intros a b. unfold key_le. apply _. Defined.

(** ** Collaborators

    The file primitive ([include/file.h]), the codec, the metadata reader and
    the constants of [disk_read_base.h] are not part of the sources at hand;
    the engine is parametric in them.  [read_chunk f c] is
    [read_bytes(&chunk, sizeof(chunk), n)] on a [chunk] that holds [c]: a
    failed read leaves [c] as it was.  [read_bytes f n] yields the bytes that
    were delivered, at most [n]. *)
Class Collaborators := {
  file : Type;
  set_position : file → Z → move_method → file * status;
  read_chunk : file → chunk_info → file * chunk_info;
  read_bytes : file → Z → file * list Z;
  file_reset : file → file;
  read_frame_metadata : file → Z → file;
  size_of_pitches : Z;
  decode_frame :
    gmap nat compression_type → sample_info → frame_info → list Z → option sample;
  NUMBER_OF_SAMPLES_TO_INDEX : N;
  NUMBER_OF_SAMPLES_TO_INDEX_pos : (0 < NUMBER_OF_SAMPLES_TO_INDEX)%N;
  NUMBER_OF_REQUIRED_PREFETCHED_SAMPLES : nat;
  RS_STREAM_COUNT : nat }.

Section Engine.
Context `{C : Collaborators}.

(** ** The object *)

Record disk_read_base := {
  m_pause : bool;
  m_realtime : bool;
  m_streams_infos : gmap nat stream_info;
  m_active_streams_info : gmap nat active_stream_info;
  m_image_indices : gmap nat (list nat);
  m_samples_desc : list sample;
  m_samples_desc_index : nat;
  m_prefetched_samples : list sample;
  m_is_index_complete : bool;
  m_is_motion_tracking_enabled : bool;
  m_base_ts : Z;
  m_base_sys_time : Z;
  m_thread : thread;
  m_eof_callback : bool;
  m_decoder : option (gmap nat compression_type);
  m_encoded_data : Z;
  m_file_data_read : file;
  (* the records [m_file_indexing] has not scanned yet *)
  m_file_indexing : list sample;
  (* environment: wall clock in microseconds, calls of [m_sample_callback],
     calls of [m_eof_callback], [std::thread]s constructed *)
  clock : Z;
  delivered : list sample;
  eof_calls : nat;
  threads_started : nat }.

Definition set_m_pause (v : bool) (st : disk_read_base) : disk_read_base :=
  Build_disk_read_base v (m_realtime st) (m_streams_infos st) (m_active_streams_info st)
    (m_image_indices st) (m_samples_desc st) (m_samples_desc_index st) (m_prefetched_samples st)
    (m_is_index_complete st) (m_is_motion_tracking_enabled st) (m_base_ts st) (m_base_sys_time
    st) (m_thread st) (m_eof_callback st) (m_decoder st) (m_encoded_data st) (m_file_data_read
    st) (m_file_indexing st) (clock st) (delivered st) (eof_calls st) (threads_started st).
Definition set_m_realtime (v : bool) (st : disk_read_base) : disk_read_base :=
  Build_disk_read_base (m_pause st) v (m_streams_infos st) (m_active_streams_info st)
    (m_image_indices st) (m_samples_desc st) (m_samples_desc_index st) (m_prefetched_samples st)
    (m_is_index_complete st) (m_is_motion_tracking_enabled st) (m_base_ts st) (m_base_sys_time
    st) (m_thread st) (m_eof_callback st) (m_decoder st) (m_encoded_data st) (m_file_data_read
    st) (m_file_indexing st) (clock st) (delivered st) (eof_calls st) (threads_started st).
Definition set_m_streams_infos (v : gmap nat stream_info) (st : disk_read_base) : disk_read_base :=
  Build_disk_read_base (m_pause st) (m_realtime st) v (m_active_streams_info st)
    (m_image_indices st) (m_samples_desc st) (m_samples_desc_index st) (m_prefetched_samples st)
    (m_is_index_complete st) (m_is_motion_tracking_enabled st) (m_base_ts st) (m_base_sys_time
    st) (m_thread st) (m_eof_callback st) (m_decoder st) (m_encoded_data st) (m_file_data_read
    st) (m_file_indexing st) (clock st) (delivered st) (eof_calls st) (threads_started st).
Definition set_m_active_streams_info (v : gmap nat active_stream_info) (st : disk_read_base) : disk_read_base :=
  Build_disk_read_base (m_pause st) (m_realtime st) (m_streams_infos st) v (m_image_indices st)
    (m_samples_desc st) (m_samples_desc_index st) (m_prefetched_samples st) (m_is_index_complete
    st) (m_is_motion_tracking_enabled st) (m_base_ts st) (m_base_sys_time st) (m_thread st)
    (m_eof_callback st) (m_decoder st) (m_encoded_data st) (m_file_data_read st)
    (m_file_indexing st) (clock st) (delivered st) (eof_calls st) (threads_started st).
Definition set_m_image_indices (v : gmap nat (list nat)) (st : disk_read_base) : disk_read_base :=
  Build_disk_read_base (m_pause st) (m_realtime st) (m_streams_infos st) (m_active_streams_info
    st) v (m_samples_desc st) (m_samples_desc_index st) (m_prefetched_samples st)
    (m_is_index_complete st) (m_is_motion_tracking_enabled st) (m_base_ts st) (m_base_sys_time
    st) (m_thread st) (m_eof_callback st) (m_decoder st) (m_encoded_data st) (m_file_data_read
    st) (m_file_indexing st) (clock st) (delivered st) (eof_calls st) (threads_started st).
Definition set_m_samples_desc (v : list sample) (st : disk_read_base) : disk_read_base :=
  Build_disk_read_base (m_pause st) (m_realtime st) (m_streams_infos st) (m_active_streams_info
    st) (m_image_indices st) v (m_samples_desc_index st) (m_prefetched_samples st)
    (m_is_index_complete st) (m_is_motion_tracking_enabled st) (m_base_ts st) (m_base_sys_time
    st) (m_thread st) (m_eof_callback st) (m_decoder st) (m_encoded_data st) (m_file_data_read
    st) (m_file_indexing st) (clock st) (delivered st) (eof_calls st) (threads_started st).
Definition set_m_samples_desc_index (v : nat) (st : disk_read_base) : disk_read_base :=
  Build_disk_read_base (m_pause st) (m_realtime st) (m_streams_infos st) (m_active_streams_info
    st) (m_image_indices st) (m_samples_desc st) v (m_prefetched_samples st)
    (m_is_index_complete st) (m_is_motion_tracking_enabled st) (m_base_ts st) (m_base_sys_time
    st) (m_thread st) (m_eof_callback st) (m_decoder st) (m_encoded_data st) (m_file_data_read
    st) (m_file_indexing st) (clock st) (delivered st) (eof_calls st) (threads_started st).
Definition set_m_prefetched_samples (v : list sample) (st : disk_read_base) : disk_read_base :=
  Build_disk_read_base (m_pause st) (m_realtime st) (m_streams_infos st) (m_active_streams_info
    st) (m_image_indices st) (m_samples_desc st) (m_samples_desc_index st) v
    (m_is_index_complete st) (m_is_motion_tracking_enabled st) (m_base_ts st) (m_base_sys_time
    st) (m_thread st) (m_eof_callback st) (m_decoder st) (m_encoded_data st) (m_file_data_read
    st) (m_file_indexing st) (clock st) (delivered st) (eof_calls st) (threads_started st).
Definition set_m_is_index_complete (v : bool) (st : disk_read_base) : disk_read_base :=
  Build_disk_read_base (m_pause st) (m_realtime st) (m_streams_infos st) (m_active_streams_info
    st) (m_image_indices st) (m_samples_desc st) (m_samples_desc_index st) (m_prefetched_samples
    st) v (m_is_motion_tracking_enabled st) (m_base_ts st) (m_base_sys_time st) (m_thread st)
    (m_eof_callback st) (m_decoder st) (m_encoded_data st) (m_file_data_read st)
    (m_file_indexing st) (clock st) (delivered st) (eof_calls st) (threads_started st).
Definition set_m_is_motion_tracking_enabled (v : bool) (st : disk_read_base) : disk_read_base :=
  Build_disk_read_base (m_pause st) (m_realtime st) (m_streams_infos st) (m_active_streams_info
    st) (m_image_indices st) (m_samples_desc st) (m_samples_desc_index st) (m_prefetched_samples
    st) (m_is_index_complete st) v (m_base_ts st) (m_base_sys_time st) (m_thread st)
    (m_eof_callback st) (m_decoder st) (m_encoded_data st) (m_file_data_read st)
    (m_file_indexing st) (clock st) (delivered st) (eof_calls st) (threads_started st).
Definition set_m_base_ts (v : Z) (st : disk_read_base) : disk_read_base :=
  Build_disk_read_base (m_pause st) (m_realtime st) (m_streams_infos st) (m_active_streams_info
    st) (m_image_indices st) (m_samples_desc st) (m_samples_desc_index st) (m_prefetched_samples
    st) (m_is_index_complete st) (m_is_motion_tracking_enabled st) v (m_base_sys_time st)
    (m_thread st) (m_eof_callback st) (m_decoder st) (m_encoded_data st) (m_file_data_read st)
    (m_file_indexing st) (clock st) (delivered st) (eof_calls st) (threads_started st).
Definition set_m_base_sys_time (v : Z) (st : disk_read_base) : disk_read_base :=
  Build_disk_read_base (m_pause st) (m_realtime st) (m_streams_infos st) (m_active_streams_info
    st) (m_image_indices st) (m_samples_desc st) (m_samples_desc_index st) (m_prefetched_samples
    st) (m_is_index_complete st) (m_is_motion_tracking_enabled st) (m_base_ts st) v (m_thread
    st) (m_eof_callback st) (m_decoder st) (m_encoded_data st) (m_file_data_read st)
    (m_file_indexing st) (clock st) (delivered st) (eof_calls st) (threads_started st).
Definition set_m_thread (v : thread) (st : disk_read_base) : disk_read_base :=
  Build_disk_read_base (m_pause st) (m_realtime st) (m_streams_infos st) (m_active_streams_info
    st) (m_image_indices st) (m_samples_desc st) (m_samples_desc_index st) (m_prefetched_samples
    st) (m_is_index_complete st) (m_is_motion_tracking_enabled st) (m_base_ts st)
    (m_base_sys_time st) v (m_eof_callback st) (m_decoder st) (m_encoded_data st)
    (m_file_data_read st) (m_file_indexing st) (clock st) (delivered st) (eof_calls st)
    (threads_started st).
Definition set_m_eof_callback (v : bool) (st : disk_read_base) : disk_read_base :=
  Build_disk_read_base (m_pause st) (m_realtime st) (m_streams_infos st) (m_active_streams_info
    st) (m_image_indices st) (m_samples_desc st) (m_samples_desc_index st) (m_prefetched_samples
    st) (m_is_index_complete st) (m_is_motion_tracking_enabled st) (m_base_ts st)
    (m_base_sys_time st) (m_thread st) v (m_decoder st) (m_encoded_data st) (m_file_data_read
    st) (m_file_indexing st) (clock st) (delivered st) (eof_calls st) (threads_started st).
Definition set_m_decoder (v : option (gmap nat compression_type)) (st : disk_read_base) : disk_read_base :=
  Build_disk_read_base (m_pause st) (m_realtime st) (m_streams_infos st) (m_active_streams_info
    st) (m_image_indices st) (m_samples_desc st) (m_samples_desc_index st) (m_prefetched_samples
    st) (m_is_index_complete st) (m_is_motion_tracking_enabled st) (m_base_ts st)
    (m_base_sys_time st) (m_thread st) (m_eof_callback st) v (m_encoded_data st)
    (m_file_data_read st) (m_file_indexing st) (clock st) (delivered st) (eof_calls st)
    (threads_started st).
Definition set_m_encoded_data (v : Z) (st : disk_read_base) : disk_read_base :=
  Build_disk_read_base (m_pause st) (m_realtime st) (m_streams_infos st) (m_active_streams_info
    st) (m_image_indices st) (m_samples_desc st) (m_samples_desc_index st) (m_prefetched_samples
    st) (m_is_index_complete st) (m_is_motion_tracking_enabled st) (m_base_ts st)
    (m_base_sys_time st) (m_thread st) (m_eof_callback st) (m_decoder st) v (m_file_data_read
    st) (m_file_indexing st) (clock st) (delivered st) (eof_calls st) (threads_started st).
Definition set_m_file_data_read (v : file) (st : disk_read_base) : disk_read_base :=
  Build_disk_read_base (m_pause st) (m_realtime st) (m_streams_infos st) (m_active_streams_info
    st) (m_image_indices st) (m_samples_desc st) (m_samples_desc_index st) (m_prefetched_samples
    st) (m_is_index_complete st) (m_is_motion_tracking_enabled st) (m_base_ts st)
    (m_base_sys_time st) (m_thread st) (m_eof_callback st) (m_decoder st) (m_encoded_data st) v
    (m_file_indexing st) (clock st) (delivered st) (eof_calls st) (threads_started st).
Definition set_m_file_indexing (v : list sample) (st : disk_read_base) : disk_read_base :=
  Build_disk_read_base (m_pause st) (m_realtime st) (m_streams_infos st) (m_active_streams_info
    st) (m_image_indices st) (m_samples_desc st) (m_samples_desc_index st) (m_prefetched_samples
    st) (m_is_index_complete st) (m_is_motion_tracking_enabled st) (m_base_ts st)
    (m_base_sys_time st) (m_thread st) (m_eof_callback st) (m_decoder st) (m_encoded_data st)
    (m_file_data_read st) v (clock st) (delivered st) (eof_calls st) (threads_started st).
Definition set_clock (v : Z) (st : disk_read_base) : disk_read_base :=
  Build_disk_read_base (m_pause st) (m_realtime st) (m_streams_infos st) (m_active_streams_info
    st) (m_image_indices st) (m_samples_desc st) (m_samples_desc_index st) (m_prefetched_samples
    st) (m_is_index_complete st) (m_is_motion_tracking_enabled st) (m_base_ts st)
    (m_base_sys_time st) (m_thread st) (m_eof_callback st) (m_decoder st) (m_encoded_data st)
    (m_file_data_read st) (m_file_indexing st) v (delivered st) (eof_calls st) (threads_started
    st).
Definition set_delivered (v : list sample) (st : disk_read_base) : disk_read_base :=
  Build_disk_read_base (m_pause st) (m_realtime st) (m_streams_infos st) (m_active_streams_info
    st) (m_image_indices st) (m_samples_desc st) (m_samples_desc_index st) (m_prefetched_samples
    st) (m_is_index_complete st) (m_is_motion_tracking_enabled st) (m_base_ts st)
    (m_base_sys_time st) (m_thread st) (m_eof_callback st) (m_decoder st) (m_encoded_data st)
    (m_file_data_read st) (m_file_indexing st) (clock st) v (eof_calls st) (threads_started st).
Definition set_eof_calls (v : nat) (st : disk_read_base) : disk_read_base :=
  Build_disk_read_base (m_pause st) (m_realtime st) (m_streams_infos st) (m_active_streams_info
    st) (m_image_indices st) (m_samples_desc st) (m_samples_desc_index st) (m_prefetched_samples
    st) (m_is_index_complete st) (m_is_motion_tracking_enabled st) (m_base_ts st)
    (m_base_sys_time st) (m_thread st) (m_eof_callback st) (m_decoder st) (m_encoded_data st)
    (m_file_data_read st) (m_file_indexing st) (clock st) (delivered st) v (threads_started st).
Definition set_threads_started (v : nat) (st : disk_read_base) : disk_read_base :=
  Build_disk_read_base (m_pause st) (m_realtime st) (m_streams_infos st) (m_active_streams_info
    st) (m_image_indices st) (m_samples_desc st) (m_samples_desc_index st) (m_prefetched_samples
    st) (m_is_index_complete st) (m_is_motion_tracking_enabled st) (m_base_ts st)
    (m_base_sys_time st) (m_thread st) (m_eof_callback st) (m_decoder st) (m_encoded_data st)
    (m_file_data_read st) (m_file_indexing st) (clock st) (delivered st) (eof_calls st) v.

(** ** The monad of member functions *)

Inductive outcome (A : Type) :=
| Returns (a : A) (st : disk_read_base)
| Throws (what : string) (st : disk_read_base)
| OutOfFuel.
Arguments Returns {A} a st.
Arguments Throws {A} what st.
Arguments OutOfFuel {A}.

Definition M (A : Type) : Type := disk_read_base → outcome A.

Definition ret {A} (a : A) : M A := λ st, Returns a st.

Definition bind {A B} (m : M A) (k : A → M B) : M B :=
  λ st, match m st with
        | Returns a st' => k a st'
        | Throws what st' => Throws what st'
        | OutOfFuel => OutOfFuel
        end.

Definition get : M disk_read_base := λ st, Returns st st.
Definition modify (f : disk_read_base → disk_read_base) : M unit := λ st, Returns tt (f st).
Definition throw {A} (what : string) : M A := λ st, Throws what st.

Notation "'let*' x ':=' m 'in' k" := (bind m (λ x, k))
  (at level 10, x name, m at level 100, k at level 200).
Notation "m1 '>>' m2" := (bind m1 (λ _, m2))
  (at level 90, right associativity).

(** [while (cond) body], with at most [fuel] iterations. *)
Fixpoint while (fuel : nat) (cond : disk_read_base → bool) (body : M unit) : M unit :=
  λ st, if cond st then
          match fuel with
          | 0 => OutOfFuel
          | S fuel => (body >> while fuel cond body) st
          end
        else Returns tt st.

(** An operation of [m_file_data_read]. *)
Definition on_file {A} (op : file → file * A) : M A :=
  λ st, let '(fl, a) := op (m_file_data_read st) in Returns a (set_m_file_data_read fl st).

(** Iteration over a [std::map] visits the keys in increasing order. *)
Definition entries {A} (m : gmap nat A) : list (nat * A) :=
  merge_sort key_le (map_to_list m).

(** [m[k]] on a map: the entry is created when it is missing. *)
Definition subscript {A} (zero : A) (k : nat) (m : gmap nat A) : gmap nat A :=
  match m !! k with Some _ => m | None => <[k := zero]> m end.

Definition at_key {A} (zero : A) (k : nat) (m : gmap nat A) : A := default zero (m !! k).

(** ** Indexer *)

(** Modelled from the spec: [index_next_samples] is pure virtual in
    [disk_read_base] and its implementations are not among the sources.  Per
    section 4.1 it scans forward from the last scanned position, parses up to
    [batch_size] new sample records, appends each to the descriptor list and,
    for an Image sample, its position to the index of its stream, sets the
    completion flag on reaching the end of the file, and does nothing once the
    flag is set. *)
Definition index_sample (s : sample) (st : disk_read_base) : disk_read_base :=
  let pos := length (m_samples_desc st) in
  let st := set_m_samples_desc (m_samples_desc st ++ [s]) st in
  match s with
  | frame_sample _ f _ =>
      set_m_image_indices
        (<[stream f := at_key [] (stream f) (m_image_indices st) ++ [pos]]> (m_image_indices st)) st
  | _ => st
  end.

Fixpoint index_records (records : list sample) (n : N) (st : disk_read_base) : disk_read_base :=
  if (n =? 0)%N then set_m_file_indexing records st
  else match records with
       | [] => set_m_is_index_complete true (set_m_file_indexing [] st)
       | s :: rest => index_records rest (N.pred n) (index_sample s st)
       end.

Definition index_next_samples (n : N) : M unit :=
  modify (λ st, if m_is_index_complete st then st
                else index_records (m_file_indexing st) n st).

(** Enough iterations for any loop that indexes until the flag is set: a call
    with a positive batch consumes a record or sets the flag. *)
Definition index_fuel (st : disk_read_base) : nat := S (length (m_file_indexing st)).

(** ** Buffering state *)

Fixpoint every_stream_ready (l : list (nat * active_stream_info)) : bool :=
  match l with
  | [] => true
  | (_, a) :: l =>
      if (0 <? m_prefetched_samples_count a)%Z then every_stream_ready l else false
  end.

Definition exhausted (st : disk_read_base) : bool :=
  length (m_samples_desc st) <=? m_samples_desc_index st.

Definition all_samples_bufferd (st : disk_read_base) : bool :=
  if m_is_index_complete st && exhausted st && (0 <? length (m_prefetched_samples st))
  then true
  else if every_stream_ready (entries (m_active_streams_info st))
  then (if m_is_motion_tracking_enabled st then NUMBER_OF_REQUIRED_PREFETCHED_SAMPLES else 0)
         <? length (m_prefetched_samples st)
  else false.

(** [m_active_streams_info[s].m_prefetched_samples_count += d]. *)
Definition add_prefetched (d : Z) (s : nat) (st : disk_read_base) : disk_read_base :=
  let a := at_key active_stream_info_zero s (m_active_streams_info st) in
  set_m_active_streams_info
    (<[s := {| asi_image_indices := asi_image_indices a;
               m_prefetched_samples_count := (m_prefetched_samples_count a + d)%Z;
               m_stream_info := m_stream_info a |}]> (m_active_streams_info st)) st.

(** ** Decoder *)

(** [m_encoded_data] is kept as its size. *)
Definition init_decoder : M unit :=
  modify (λ st,
    let buffer_size :=
      foldl (λ b e,
               let si := m_stream_info e.2 in
               let size := to_uint32 (width si * height si) in
               if (b <? size)%Z then size else b)
            0%Z (entries (m_active_streams_info st)) in
    let compression_config := (λ a, si_ctype (m_stream_info a)) <$> m_active_streams_info st in
    set_m_encoded_data (to_uint32 (buffer_size * 4))
      (set_m_decoder (Some compression_config) st)).

(** The chunk loop of [read_image_buffer]; [chunk] is the local that the
    header reads overwrite. *)
Fixpoint read_chunks (fuel : nat) (i : sample_info) (f : frame_info) (chunk : chunk_info)
  : M (option sample) :=
  match fuel with
  | 0 => λ _, OutOfFuel
  | S fuel =>
      let* chunk := on_file (λ fl, read_chunk fl chunk) in
      let num_bytes_to_read := to_uint64 (size_ chunk) in
      match id_ chunk with
      | chunk_image_metadata =>
          (if (0 <? num_bytes_to_read)%Z
           then on_file (λ fl, (read_frame_metadata fl num_bytes_to_read, tt))
           else ret tt) >>
          read_chunks fuel i f chunk
      | chunk_sample_data =>
          let* _ := on_file (λ fl, set_position fl size_of_pitches current) in
          let num_bytes_to_read := to_uint64 (num_bytes_to_read - size_of_pitches) in
          match ctype f with
          | none =>
              let* data := on_file (λ fl, read_bytes fl (to_uint32 num_bytes_to_read)) in
              ret (Some (frame_sample i f data))
          | lz4 | h264 =>
              let* data := on_file (λ fl, read_bytes fl (to_uint32 num_bytes_to_read)) in
              let* st := get in
              ret (decode_frame (default ∅ (m_decoder st)) i f data)
          | ct_undefined _ => throw "unsupported compression type"%string
          end
      | chunk_other _ =>
          if (num_bytes_to_read =? 0)%Z then ret None
          else
            let* _ := on_file (λ fl, set_position fl num_bytes_to_read current) in
            read_chunks fuel i f chunk
      end
  end.

(** [read_image_buffer(frame)] for the frame with [info = i] and [finfo = f].
    The zero-initialised [chunk] is taken to carry neither of the two ids the
    loop knows, whose values are declared outside the sources.  The frame
    metadata that [read_frame_metadata] attaches is not kept. *)
Definition read_image_buffer (fuel : nat) (i : sample_info) (f : frame_info) : M (option sample) :=
  let* sts := on_file (λ fl, set_position fl (offset i) begin) in
  let* st := get in
  (match m_decoder st with None => init_decoder | Some _ => ret tt end) >>
  match sts with
  | status_no_error => read_chunks fuel i f {| id_ := chunk_other 0; size_ := 0 |}
  | status_error _ => ret None
  end.

(** ** Prefetcher *)

Definition push_prefetched (s : sample) (st : disk_read_base) : disk_read_base :=
  set_m_prefetched_samples (m_prefetched_samples st ++ [s]) st.

Definition prefetch_sample (fuel : nat) : M unit :=
  let* st := get in
  if exhausted st || all_samples_bufferd st then ret tt
  else
    match m_samples_desc st !! m_samples_desc_index st with
    | None => ret tt
    | Some sample =>
        modify (set_m_samples_desc_index (S (m_samples_desc_index st))) >>
        match sample with
        | frame_sample i f _ =>
            match m_active_streams_info st !! stream f with
            | None => ret tt
            | Some _ =>
                let* curr := read_image_buffer fuel i f in
                match curr with
                | Some curr =>
                    modify (λ st, push_prefetched curr (add_prefetched 1 (stream f) st))
                | None => ret tt
                end
            end
        | motion_sample _ | time_stamp_sample _ =>
            if m_is_motion_tracking_enabled st then modify (push_prefetched sample) else ret tt
        | debug_event_sample _ => ret tt
        | undefined_sample _ _ => throw "undefind sample type"%string
        end
    end.

(** ** Pacing clock *)

Definition query_run_time (st : disk_read_base) : Z :=
  to_uint64 (clock st - m_base_sys_time st).

Definition calc_sleep_time (st : disk_read_base) (sample : sample) : Z :=
  let time_span := query_run_time st in
  let time_stamp := capture_time (info sample) in
  to_int (to_uint64 (time_stamp - m_base_ts st - time_span)).

Definition update_time_base : M unit :=
  modify (λ st,
    let st := set_m_base_sys_time (clock st) st in
    if 0 <? m_samples_desc_index st then
      match m_prefetched_samples st with
      | front :: _ => set_m_base_ts (capture_time (info front)) st
      | [] =>
          set_m_base_ts
            (match m_samples_desc st !! m_samples_desc_index st with
             | Some s => capture_time (info s)
             | None => 0%Z
             end) st
      end
    else set_m_base_ts 0 st).

Definition sleep_for (microseconds : Z) : M unit :=
  modify (λ st, set_clock (clock st + Z.max 0 microseconds) st).

(** The loop of [notify_available_samples]; [queue] is [m_prefetched_samples],
    which every iteration pops. *)
Fixpoint notify_queue (queue : list sample) (st : disk_read_base) : disk_read_base :=
  match queue with
  | [] => st
  | front :: rest =>
      if m_pause st then st
      else if (0 <? calc_sleep_time st front)%Z && m_realtime st then st
      else
        let st := match front with
                  | frame_sample _ f _ => add_prefetched (-1) (stream f) st
                  | _ => st
                  end in
        let st := set_delivered (delivered st ++ [front]) st in
        notify_queue rest (set_m_prefetched_samples rest st)
  end.

Definition notify_available_samples : M unit :=
  modify (λ st, notify_queue (m_prefetched_samples st) st).

(** ** Read loop *)

Definition read_next_sample (fuel : nat) : M bool :=
  notify_available_samples >>
  let* st := get in
  while (index_fuel st) (λ st, exhausted st && negb (m_is_index_complete st))
        (index_next_samples NUMBER_OF_SAMPLES_TO_INDEX) >>
  let* st := get in
  if exhausted st && (length (m_prefetched_samples st) =? 0) then ret false
  else
    prefetch_sample fuel >>
    let* st := get in
    (if all_samples_bufferd st && m_realtime st then
       while fuel
         (λ st, match m_prefetched_samples st with
                | front :: _ => (1000 <? calc_sleep_time st front)%Z
                | [] => false
                end)
         (let* st := get in
          if m_is_index_complete st then
            sleep_for (match m_prefetched_samples st with
                       | front :: _ => calc_sleep_time st front
                       | [] => 0%Z
                       end)
          else index_next_samples NUMBER_OF_SAMPLES_TO_INDEX)
     else ret tt) >>
    ret true.

(** The loop of [read_thread].  The controller may store [m_pause = true]
    from its own thread while the loop runs: [pause_at = Some k] lets that
    store land just before the loop condition is evaluated for the [k+1]-th
    time from here, [None] never. *)
Fixpoint read_thread_loop (fuel : nat) (pause_at : option nat) (eof : bool) : M unit :=
  λ st,
    let st := match pause_at with Some 0 => set_m_pause true st | _ => st end in
    let pause_at := match pause_at with Some (S k) => Some k | _ => None end in
    if negb (m_pause st) && negb eof then
      match fuel with
      | 0 => OutOfFuel
      | S fuel =>
          (let* more := read_next_sample fuel in
           let eof := negb more in
           (if eof then
              let* st := get in
              if negb (m_eof_callback st) then throw "end of file callback is null"%string
              else
                modify (λ st, set_eof_calls (S (eof_calls st)) st) >>
                modify (set_m_pause true)
            else ret tt) >>
           read_thread_loop fuel pause_at eof) st
      end
    else Returns tt st.

(** The function the reader thread runs; when it returns the handle is still
    joinable. *)
Definition read_thread (fuel : nat) (pause_at : option nat) : M unit :=
  modify (λ st, set_m_base_sys_time (clock st) st) >>
  read_thread_loop fuel pause_at false >>
  modify (set_m_thread finished).

(** ** Controls *)

(** [join] returns once the reader has left its loop; what the reader still
    does until then are iterations of [read_thread_loop]. *)
Definition pause : M unit :=
  modify (set_m_pause true) >>
  let* st := get in
  if joinable (m_thread st) then modify (set_m_thread not_a_thread) else ret tt.

Definition resume : M unit :=
  modify (set_m_pause false) >>
  update_time_base >>
  let* st := get in
  if joinable (m_thread st) then throw "resume while streaming is not allowed"%string
  else modify (λ st, set_threads_started (S (threads_started st)) (set_m_thread running st)).

Definition enable_stream (stream : nat) (state : bool) : M unit :=
  let* st := get in
  match m_streams_infos st !! stream with
  | None => throw "unsupported stream"%string
  | Some si =>
      if state then
        modify (λ st,
          let st := set_m_image_indices (subscript [] stream (m_image_indices st)) st in
          set_m_active_streams_info
            (<[stream := {| asi_image_indices := at_key [] stream (m_image_indices st);
                            m_prefetched_samples_count := 0;
                            m_stream_info := si |}]> (m_active_streams_info st)) st)
      else
        modify (λ st, set_m_active_streams_info (delete stream (m_active_streams_info st)) st)
  end.

Definition enable_motions_callback (state : bool) : M unit :=
  modify (set_m_is_motion_tracking_enabled state).

Definition set_realtime (realtime : bool) : M unit :=
  modify (set_m_realtime realtime) >> update_time_base.

Definition reset_stream (k : nat) (st : disk_read_base) : disk_read_base :=
  let st := set_m_image_indices (subscript [] k (m_image_indices st)) st in
  let st := set_m_streams_infos (subscript stream_info_zero k (m_streams_infos st)) st in
  set_m_active_streams_info
    (<[k := {| asi_image_indices := at_key [] k (m_image_indices st);
               m_prefetched_samples_count := 0;
               m_stream_info := at_key stream_info_zero k (m_streams_infos st) |}]>
       (m_active_streams_info st)) st.

Definition reset : M unit :=
  pause >>
  modify (λ st, set_m_file_data_read (file_reset (m_file_data_read st)) st) >>
  modify (set_m_samples_desc_index 0) >>
  modify (set_m_prefetched_samples []) >>
  modify (λ st, foldl (λ st e, reset_stream e.1 st) st (entries (m_active_streams_info st))) >>
  modify (set_m_decoder None).

Definition query_number_of_frames (stream_type : nat) : M Z :=
  modify (λ st, set_m_streams_infos (subscript stream_info_zero stream_type (m_streams_infos st)) st) >>
  let* st := get in
  let nframes := to_uint32 (nframes (at_key stream_info_zero stream_type (m_streams_infos st))) in
  if (0 <? nframes)%Z then ret nframes
  else
    while (index_fuel st) (λ st, negb (m_is_index_complete st)) (index_next_samples 4294967295) >>
    modify (λ st, set_m_image_indices (subscript [] stream_type (m_image_indices st)) st) >>
    let* st := get in
    ret (to_uint32 (to_int32 (Z.of_nat (length (at_key [] stream_type (m_image_indices st)))))).

(** ** Seek *)

(** The backward loop of [find_nearest_frames]; [index] is the loop variable
    before its decrement. *)
Fixpoint prev_search (descs : list sample) (nactive : nat) (index : nat)
    (prev_index : gmap nat nat) : gmap nat nat :=
  match index with
  | 0 => prev_index
  | S index =>
      if size prev_index <? nactive then
        prev_search descs nactive index
          match descs !! index with
          | Some (frame_sample _ f _) =>
              match prev_index !! stream f with
              | Some _ => prev_index
              | None => <[stream f := index]> prev_index
              end
          | _ => prev_index
          end
      else prev_index
  end.

(** The forward loop of [find_nearest_frames]. *)
Fixpoint next_search (fuel : nat) (index : nat) (next_index : gmap nat nat)
  : M (gmap nat nat) :=
  λ st,
    if size next_index <? size (m_active_streams_info st) then
      match fuel with
      | 0 => OutOfFuel
      | S fuel =>
          if (length (m_samples_desc st) <=? index + 1) && m_is_index_complete st
          then Returns next_index st
          else
            ((if length (m_samples_desc st) <=? index + 1
              then index_next_samples NUMBER_OF_SAMPLES_TO_INDEX else ret tt) >>
             let* st := get in
             if length (m_samples_desc st) <=? index + 1 then next_search fuel index next_index
             else
               let index := S index in
               next_search fuel index
                 match m_samples_desc st !! index with
                 | Some (frame_sample _ f _) =>
                     match next_index !! stream f with
                     | Some _ => next_index
                     | None => <[stream f := index]> next_index
                     end
                 | _ => next_index
                 end) st
      end
    else Returns next_index st.

(** Iterations that exhaust any forward scan of the file. *)
Definition scan_fuel (st : disk_read_base) : nat :=
  length (m_samples_desc st) + length (m_file_indexing st) + 2.

Definition absdiff (a b : Z) : Z :=
  if (b <? a)%Z then to_uint64 (a - b) else to_uint64 (b - a).

Definition capture_time_at (descs : list sample) (index : nat) : Z :=
  match descs !! index with Some s => capture_time (info s) | None => 0%Z end.

(** The descriptor [find_nearest_frames] picks for the active stream [s];
    [operator[]] on [prev_index] and [next_index] yields 0 for a stream the
    searches did not record. *)
Definition nearest (descs : list sample) (sample_index stream : nat)
    (prev_index next_index : gmap nat nat) (s : nat) : nat :=
  if s =? stream then sample_index
  else
    let capture_time := capture_time_at descs sample_index in
    let prev := absdiff capture_time (capture_time_at descs (at_key 0 s prev_index)) in
    let next := absdiff capture_time (capture_time_at descs (at_key 0 s next_index)) in
    if (next <? prev)%Z then at_key 0 s next_index else at_key 0 s prev_index.

Fixpoint read_nearest (fuel : nat) (selected : list nat) (rv : gmap nat sample)
  : M (gmap nat sample) :=
  match selected with
  | [] => ret rv
  | index :: selected =>
      let* st := get in
      match m_samples_desc st !! index with
      | Some (frame_sample i f _) =>
          let* curr := read_image_buffer fuel i f in
          read_nearest fuel selected
            match curr with Some curr => <[stream f := curr]> rv | None => rv end
      | _ => read_nearest fuel selected rv
      end
  end.

(** The descriptor chosen for every active stream, in the order of the loop. *)
Definition nearest_frames (st : disk_read_base) (sample_index stream : nat)
    (prev_index next_index : gmap nat nat) : list nat :=
  nearest (m_samples_desc st) sample_index stream prev_index next_index
    <$> (entries (m_active_streams_info st)).*1.

(** The two searches of [find_nearest_frames] and the descriptors its last
    loop reads. *)
Definition select_nearest_frames (sample_index stream : nat) : M (list nat) :=
  let* st := get in
  let prev_index :=
    prev_search (m_samples_desc st) (size (m_active_streams_info st)) sample_index ∅ in
  let* next_index := next_search (scan_fuel st) sample_index ∅ in
  let* st := get in
  ret (nearest_frames st sample_index stream prev_index next_index).

Definition find_nearest_frames (fuel : nat) (sample_index stream : nat)
  : M (gmap nat sample) :=
  let* selected := select_nearest_frames sample_index stream in
  let* rv := read_nearest fuel selected ∅ in
  modify (set_m_samples_desc_index sample_index) >>
  modify (set_m_prefetched_samples []) >>
  prefetch_sample fuel >>
  ret rv.

Definition set_frame_by_index (fuel : nat) (index stream_type : nat) : M (gmap nat sample) :=
  let* st := get in
  let previous_state := m_pause st in
  pause >>
  modify (λ st, set_m_image_indices (subscript [] stream_type (m_image_indices st)) st) >>
  let* st := get in
  while (index_fuel st)
    (λ st, (length (at_key [] stream_type (m_image_indices st)) <=? index)
           && negb (m_is_index_complete st))
    (index_next_samples NUMBER_OF_SAMPLES_TO_INDEX) >>
  let* st := get in
  match at_key [] stream_type (m_image_indices st) !! index with
  | None => ret ∅
  | Some sample_index =>
      let* rv := find_nearest_frames fuel sample_index stream_type in
      (if previous_state then ret tt else resume) >>
      ret rv
  end.

Inductive scan_exit :=
| scan_eof
| scan_found (index : nat) (stream : nat).

(** The [do ... while(++index)] loop of [set_frame_by_time_stamp]; every
    [continue] and the end of the body lead to [++index], which is not 0 for
    an index below 2^32 - 1. *)
Fixpoint scan_time_stamp (fuel : nat) (ts : Z) (index : nat) : M scan_exit :=
  match fuel with
  | 0 => λ _, OutOfFuel
  | S fuel =>
      let* st := get in
      if (length (m_samples_desc st) <=? index) && m_is_index_complete st then ret scan_eof
      else
        (if length (m_samples_desc st) <=? index
         then index_next_samples NUMBER_OF_SAMPLES_TO_INDEX else ret tt) >>
        let* st := get in
        match m_samples_desc st !! index with
        | Some (frame_sample _ f _) =>
            if Qle_bool (uint64_to_double ts) (time_stamp f)
            then ret (scan_found index (stream f))
            else scan_time_stamp fuel ts (S index)
        | _ => scan_time_stamp fuel ts (S index)
        end
  end.

(** The part of [set_frame_by_time_stamp] that locates the anchor. *)
Definition locate_time_stamp (ts : Z) : M scan_exit :=
  pause >>
  let* st := get in
  scan_time_stamp (scan_fuel st) ts 0.

(** The part of [set_frame_by_time_stamp] after the loop. *)
Definition seek_from (fuel : nat) (previous_state : bool) (found : scan_exit)
  : M (gmap nat sample) :=
  match found with
  | scan_eof => ret ∅
  | scan_found index stream =>
      if stream =? RS_STREAM_COUNT then ret ∅
      else
        let* rv := find_nearest_frames fuel index stream in
        (if previous_state then ret tt else resume) >>
        ret rv
  end.

Definition set_frame_by_time_stamp (fuel : nat) (ts : Z) : M (gmap nat sample) :=
  let* st := get in
  let previous_state := m_pause st in
  let* found := locate_time_stamp ts in
  seek_from fuel previous_state found.

(** The records of the file in file order: those indexed so far, then those
    the indexer has still to scan. *)
Definition file_samples (st : disk_read_base) : list sample :=
  m_samples_desc st ++ (if m_is_index_complete st then [] else m_file_indexing st).


(** ** Capture mode *)

Definition MIN_NUM_OF_FRAMES_TO_VALIDATE : nat := 10.

(** The first loop of [get_capture_mode]; [continue] and the end of the body
    lead back to the test of [m_is_index_complete], [break] leaves. *)
Fixpoint index_for_validation (fuel : nat) : M unit :=
  λ st,
    if negb (m_is_index_complete st) then
      match fuel with
      | 0 => OutOfFuel
      | S fuel =>
          (index_next_samples NUMBER_OF_SAMPLES_TO_INDEX >>
           let* st := get in
           if size (m_image_indices st) <? size (m_streams_infos st)
           then index_for_validation fuel
           else
             let done :=
               forallb (λ indices, negb (length indices.2 <? MIN_NUM_OF_FRAMES_TO_VALIDATE))
                 (entries (m_image_indices st)) in
             if done then ret tt else index_for_validation fuel) st
      end
    else Returns tt st.

(** [match] in the second loop: every capture time equals that of the first
    entry.  The source evaluates it on a map that is not empty. *)
Definition capture_times_match (capture_times : gmap nat Z) : bool :=
  match entries capture_times with
  | [] => true
  | (_, base_ct) :: _ => forallb (λ ct, (ct.2 =? base_ct)%Z) (entries capture_times)
  end.

(** The second loop of [get_capture_mode] over the descriptors [descs]. *)
Fixpoint match_capture_times (nstreams : nat) (descs : list sample)
    (capture_times : gmap nat Z) : capture_mode :=
  match descs with
  | [] => asynced
  | frame_sample i f _ :: descs =>
      let capture_times := <[stream f := capture_time i]> capture_times in
      if (0 <? size capture_times) && (size capture_times =? nstreams)
         && capture_times_match capture_times
      then synced
      else match_capture_times nstreams descs capture_times
  | _ :: descs => match_capture_times nstreams descs capture_times
  end.

Definition get_capture_mode : M capture_mode :=
  let* st := get in
  if size (m_streams_infos st) =? 1 then ret synced
  else
    index_for_validation (index_fuel st) >>
    let* st := get in
    ret (match_capture_times (size (m_streams_infos st)) (m_samples_desc st) ∅).

End Engine.

Arguments disk_read_base : clear implicits.
Arguments outcome : clear implicits.
Arguments M : clear implicits.
Arguments Returns {C A} a st.
Arguments Throws {C A} what st.
Arguments OutOfFuel {C A}.

(** ** What the specification states

    Definitions that follow the words of the specification, to compare with
    the functions above. *)
Section Stated.
Context `{C : Collaborators}.

(** Section 4.3: every active stream has a ready sample, or, when no image
    streams are active, the queue depth exceeds the threshold. *)
Definition stated_all_streams_buffered (st : disk_read_base C) : bool :=
  let threshold :=
    if m_is_motion_tracking_enabled st then NUMBER_OF_REQUIRED_PREFETCHED_SAMPLES else 0 in
  if size (m_active_streams_info st) =? 0
  then threshold <? length (m_prefetched_samples st)
  else every_stream_ready (entries (m_active_streams_info st)).

(** Section 4.4: the delay of a sample, over the integers. *)
Definition stated_due_delay (st : disk_read_base C) (sample : sample) : Z :=
  (capture_time (info sample) - m_base_ts st - (clock st - m_base_sys_time st))%Z.


Definition image_of (s : nat) (x : sample) : bool :=
  match x with frame_sample _ f _ => stream f =? s | _ => false end.

(** Section 4.5: the closest Image sample of stream [s] before [index]. *)
Fixpoint closest_preceding (samples : list sample) (s : nat) (index : nat) : option nat :=
  match index with
  | 0 => None
  | S index =>
      match samples !! index with
      | Some x => if image_of s x then Some index else closest_preceding samples s index
      | None => closest_preceding samples s index
      end
  end.

(** The closest Image sample of stream [s] at position [index] or later. *)
Fixpoint closest_from (samples : list sample) (s : nat) (index : nat) : option nat :=
  match samples with
  | [] => None
  | x :: samples => if image_of s x then Some index else closest_from samples s (S index)
  end.

Definition closest_following (samples : list sample) (s : nat) (index : nat) : option nat :=
  closest_from (drop (S index) samples) s (S index).

(** Section 4.5: of the two neighbours, the one whose timestamp is closer to
    the anchor's capture time; the preceding one on a tie. *)
Definition stated_nearest (samples : list sample) (sample_index : nat) (s : nat) : option nat :=
  match closest_preceding samples s sample_index, closest_following samples s sample_index with
  | Some p, Some n =>
      let t := capture_time_at samples sample_index in
      if (Z.abs (capture_time_at samples n - t) <? Z.abs (capture_time_at samples p - t))%Z
      then Some n else Some p
  | _, _ => None
  end.

End Stated.

(** ** Notions the properties are stated with *)

Section Notions.
Context `{C : Collaborators}.

Abbreviation state := (disk_read_base C).

(** The error of the read loop itself; its callees raise others. *)
Definition eof_callback_is_null : string := "end of file callback is null".

(** [m] leaves the observation [p] as it was, also when it throws, and what
    it throws is not the error of the read loop. *)
Definition keeps {X A} (p : state → X) (m : M C A) : Prop :=
  ∀ st, match m st with
        | Returns _ st' => p st' = p st
        | Throws what st' => p st' = p st ∧ what ≠ eof_callback_is_null
        | OutOfFuel => True
        end.

(** The queue depth that [all_samples_bufferd] asks for. *)
Definition prefetch_threshold (st : state) : nat :=
  if m_is_motion_tracking_enabled st then NUMBER_OF_REQUIRED_PREFETCHED_SAMPLES else 0.

(** The ready counter of a stream; a stream that is not active has none. *)
Definition ready_count (st : state) (s : nat) : Z :=
  match m_active_streams_info st !! s with
  | Some a => m_prefetched_samples_count a
  | None => 0%Z
  end.


(** What the reader's callees must leave alone: the number of calls of
    [m_eof_callback], and [m_pause]. *)
Definition control (st : state) : nat * bool := (eof_calls st, m_pause st).

(** Nothing is left to read and nothing is buffered. *)
Definition at_end (st : state) : Prop :=
  m_is_index_complete st = true
  ∧ length (m_samples_desc st) ≤ m_samples_desc_index st
  ∧ m_prefetched_samples st = [].

(** The recorded timestamp that [update_time_base] takes as the new base: of
    the front of the queue, else of the descriptor under the cursor, and 0
    at the start and at the end of the file. *)
Definition recorded_base (st : state) : Z :=
  if 0 <? m_samples_desc_index st then
    match m_prefetched_samples st with
    | front :: _ => capture_time (info front)
    | [] => capture_time_at (m_samples_desc st) (m_samples_desc_index st)
    end
  else 0%Z.

(** Everything of the object but the handle of the data file, the decoder and
    its scratch buffer. *)
Definition outside_decoder (st : state) :=
  (m_pause st, m_realtime st, m_streams_infos st, m_active_streams_info st,
   m_image_indices st, m_samples_desc st, m_samples_desc_index st, m_prefetched_samples st,
   m_is_index_complete st, m_is_motion_tracking_enabled st, m_base_ts st, m_base_sys_time st,
   m_thread st, m_eof_callback st, m_file_indexing st, clock st, delivered st, eof_calls st,
   threads_started st).

(** The decoder and its scratch buffer as [read_image_buffer] finds or makes
    them: [init_decoder] runs when there is no decoder yet. *)
Definition decoder_state (st : state) : option (gmap nat compression_type) * Z :=
  (m_decoder st, m_encoded_data st).

Definition with_decoder (st : state) : state :=
  match m_decoder st with
  | Some _ => st
  | None => match init_decoder st with Returns _ st' => st' | _ => st end
  end.

(** The codec hands back a frame of the stream it was given. *)
Definition codec_keeps_stream : Prop :=
  ∀ cfg i f data x, decode_frame cfg i f data = Some x → image_of (stream f) x = true.



(** A sample that [notify_available_samples] hands over rather than waits
    for. *)
Definition due (st : state) (x : sample) : bool :=
  negb ((0 <? calc_sleep_time st x)%Z && m_realtime st).

(** The number of samples at the front of [queue] that are due. *)
Fixpoint due_count (st : state) (queue : list sample) : nat :=
  match queue with
  | [] => 0
  | front :: rest => if due st front then S (due_count st rest) else 0
  end.

(** The number of Image samples of stream [s] in a list. *)
Fixpoint queued (s : nat) (l : list sample) : Z :=
  match l with
  | [] => 0%Z
  | x :: l => ((if image_of s x then 1 else 0) + queued s l)%Z
  end.

(** The streams of the Image samples of a list. *)
Fixpoint streams_of (l : list sample) : gset nat :=
  match l with
  | [] => ∅
  | frame_sample _ f _ :: l => {[stream f]} ∪ streams_of l
  | _ :: l => streams_of l
  end.

(** What neither [notify_available_samples] nor [prefetch_sample] touches,
    the handle of the data file and the decoder apart. *)
Definition outside_queue (st : state) :=
  (m_pause st, m_realtime st, m_streams_infos st, m_image_indices st, m_samples_desc st,
   m_is_index_complete st, m_is_motion_tracking_enabled st, m_base_ts st, m_base_sys_time st,
   m_thread st, m_eof_callback st, m_file_indexing st, clock st, eof_calls st,
   threads_started st).

(** What one prefetch of the descriptor [x] does to the queue and to the
    counters: nothing, or the frame read for [x] is pushed and the counter of
    its stream goes up by one, or the motion or time-stamp sample [x] is
    pushed. *)
Definition prefetch_effect (fuel : nat) (st : state) (x : sample) (st' : state) : Prop :=
  (m_prefetched_samples st' = m_prefetched_samples st
   ∧ m_active_streams_info st' = m_active_streams_info st)
  ∨ (∃ i f d y st0 st1,
       x = frame_sample i f d
       ∧ is_Some (m_active_streams_info st !! stream f)
       ∧ read_image_buffer fuel i f st0 = Returns (Some y) st1
       ∧ m_prefetched_samples st' = m_prefetched_samples st ++ [y]
       ∧ m_active_streams_info st' = m_active_streams_info (add_prefetched 1 (stream f) st))
  ∨ ((type x = st_motion ∨ type x = st_time)
     ∧ m_is_motion_tracking_enabled st = true
     ∧ m_prefetched_samples st' = m_prefetched_samples st ++ [x]
     ∧ m_active_streams_info st' = m_active_streams_info st).

(** An observation that neither the indexer nor a frame read changes. *)
Definition blind {X} (p : state → X) : Prop :=
  (∀ v st, p (set_m_samples_desc v st) = p st)
  ∧ (∀ v st, p (set_m_image_indices v st) = p st)
  ∧ (∀ v st, p (set_m_is_index_complete v st) = p st)
  ∧ (∀ v st, p (set_m_file_indexing v st) = p st)
  ∧ (∀ v st, p (set_m_file_data_read v st) = p st)
  ∧ (∀ v st, p (set_m_decoder v st) = p st)
  ∧ (∀ v st, p (set_m_encoded_data v st) = p st).

(** [m] keeps the invariant [P], also when it throws. *)
Definition preserves {A} (P : state → Prop) (m : M C A) : Prop :=
  ∀ st, P st → match m st with
               | Returns _ st' | Throws _ st' => P st'
               | OutOfFuel => True
               end.

(** The stream tables and the queue, which the two invariants below read. *)
Definition buffers (st : state) :=
  (m_streams_infos st, m_active_streams_info st, m_prefetched_samples st).

(** The ready counter of every stream is the number of its frames in the
    queue. *)
Definition counters_in_step (st : state) : Prop :=
  ∀ s, ready_count st s = queued s (m_prefetched_samples st).

(** Every active stream, and the stream of every queued frame, has an entry
    in [m_streams_infos]. *)
Definition declared_only (st : state) : Prop :=
  dom (m_active_streams_info st) ∪ streams_of (m_prefetched_samples st)
  ⊆ dom (m_streams_infos st).



(** Where playback stands: the cursor, the queue, the active streams and
    what the callbacks have seen. *)
Definition playback_position (st : state) :=
  (m_samples_desc_index st, m_prefetched_samples st, m_active_streams_info st, delivered st,
   eof_calls st).

(** Paused, with no reader to join, after [n] readers were started. *)
Definition stopped (n : nat) (st : state) : Prop :=
  m_pause st = true ∧ joinable (m_thread st) = false ∧ threads_started st = n.

(** The pause flag and the reader. *)
Definition reader_state (st : state) := (m_pause st, m_thread st, threads_started st).

(** From a state that satisfies [P], [m] returns [a] in a state that
    satisfies [Q a], or throws in one that satisfies [R]. *)
Definition ensures {A} (P : state → Prop) (m : M C A) (Q : A → state → Prop)
    (R : state → Prop) : Prop :=
  ∀ st, P st → match m st with
               | Returns a st' => Q a st'
               | Throws _ st' => R st'
               | OutOfFuel => True
               end.

(** How a seek leaves the engine: stopped, or, if it was playing, playing
    again with a new reader. *)
Definition seek_outcome {A} (st : state) (o : outcome C A) : Prop :=
  match o with
  | Returns _ st' =>
      stopped (threads_started st) st'
      ∨ (m_pause st = false ∧ m_pause st' = false ∧ m_thread st' = running
         ∧ threads_started st' = S (threads_started st))
  | Throws _ st' => stopped (threads_started st) st'
  | OutOfFuel => True
  end.

Definition is_undefined (x : sample) : bool :=
  match x with undefined_sample _ _ => true | _ => false end.

(** A sample the prefetcher queues whatever the active streams: a motion or
    time-stamp sample, with motion tracking enabled. *)
Definition tracked (st : state) (x : sample) : bool :=
  match x with
  | motion_sample _ | time_stamp_sample _ => m_is_motion_tracking_enabled st
  | _ => false
  end.

(** Playing, not in realtime, with a callback for the end of the file, no
    stream active and no frame in the queue. *)
Definition plays_without_streams (st : state) : Prop :=
  m_active_streams_info st = ∅
  ∧ m_realtime st = false
  ∧ m_pause st = false
  ∧ m_eof_callback st = true
  ∧ streams_of (m_prefetched_samples st) = ∅.

(** The capture time of the latest Image sample of every stream in a list. *)
Definition latest_capture_times (l : list sample) : gmap nat Z :=
  foldl (λ m x, match x with
                | frame_sample i f _ => <[stream f := capture_time i]> m
                | _ => m
                end) ∅ l.

(** At the Image sample at position [k], [n] streams have had an Image
    sample and the latest capture times of all of them are equal. *)
Definition synced_at (n : nat) (descs : list sample) (k : nat) : Prop :=
  (∃ i f d, descs !! k = Some (frame_sample i f d))
  ∧ size (latest_capture_times (take (S k) descs)) = n
  ∧ ∀ s1 s2 t1 t2,
      latest_capture_times (take (S k) descs) !! s1 = Some t1 →
      latest_capture_times (take (S k) descs) !! s2 = Some t2 →
      t1 = t2.

(** The first loop of [get_capture_mode] has seen enough: every stream of
    [m_streams_infos] is matched by an indexed stream, each with at least
    [MIN_NUM_OF_FRAMES_TO_VALIDATE] Image samples. *)
Definition enough_to_validate (st : state) : Prop :=
  size (m_streams_infos st) ≤ size (m_image_indices st)
  ∧ ∀ s l, m_image_indices st !! s = Some l → MIN_NUM_OF_FRAMES_TO_VALIDATE ≤ length l.

(** Everything of the object but what the indexer writes. *)
Definition outside_index (st : state) :=
  (m_pause st, m_realtime st, m_streams_infos st, m_active_streams_info st,
   m_samples_desc_index st, m_prefetched_samples st, m_is_motion_tracking_enabled st,
   m_base_ts st, m_base_sys_time st, m_thread st, m_eof_callback st, m_decoder st,
   m_encoded_data st, m_file_data_read st, clock st, delivered st, eof_calls st,
   threads_started st).

End Notions.

(** ** Fixtures

    A file primitive that plays back a script: the statuses of the seeks, the
    chunk headers and the payloads the reads deliver, in order.  A read with
    nothing left in the script fails and delivers nothing, as at the end of a
    truncated file.  The codec hands the payload back as the frame.  The
    constants of [disk_read_base.h] and [rs.h] are not in the sources; the
    fixture takes 32, 5 and 12. *)
Module Fixture.

Record script := {
  seeks : list status;
  chunks : list chunk_info;
  payloads : list (list Z) }.

Definition script_set_position (fl : script) (_ : Z) (_ : move_method) : script * status :=
  match seeks fl with
  | [] => (fl, status_no_error)
  | sts :: rest => ({| seeks := rest; chunks := chunks fl; payloads := payloads fl |}, sts)
  end.

Definition script_read_chunk (fl : script) (chunk : chunk_info) : script * chunk_info :=
  match chunks fl with
  | [] => (fl, chunk)
  | c :: rest => ({| seeks := seeks fl; chunks := rest; payloads := payloads fl |}, c)
  end.

Definition script_read_bytes (fl : script) (n : Z) : script * list Z :=
  match payloads fl with
  | [] => (fl, [])
  | bytes :: rest =>
      ({| seeks := seeks fl; chunks := chunks fl; payloads := rest |}, take (Z.to_nat n) bytes)
  end.

#[local] Instance scripted : Collaborators := {|
  file := script;
  set_position := script_set_position;
  read_chunk := script_read_chunk;
  read_bytes := script_read_bytes;
  file_reset := λ fl, fl;
  read_frame_metadata := λ fl _, fl;
  size_of_pitches := 0%Z;
  decode_frame := λ _ i f data, Some (frame_sample i f data);
  NUMBER_OF_SAMPLES_TO_INDEX := 32%N;
  NUMBER_OF_SAMPLES_TO_INDEX_pos := eq_refl;
  NUMBER_OF_REQUIRED_PREFETCHED_SAMPLES := 5;
  RS_STREAM_COUNT := 12 |}.

Definition no_file : script := {| seeks := []; chunks := []; payloads := [] |}.

(** The object as the constructor leaves it, on the file [fl] whose records
    are [records]. *)
Definition constructed (fl : script) (records : list sample) : disk_read_base scripted := {|
  m_pause := true;
  m_realtime := true;
  m_streams_infos := ∅;
  m_active_streams_info := ∅;
  m_image_indices := ∅;
  m_samples_desc := [];
  m_samples_desc_index := 0;
  m_prefetched_samples := [];
  m_is_index_complete := false;
  m_is_motion_tracking_enabled := false;
  m_base_ts := 0;
  m_base_sys_time := 0;
  m_thread := not_a_thread;
  m_eof_callback := true;
  m_decoder := None;
  m_encoded_data := 0;
  m_file_data_read := fl;
  m_file_indexing := records;
  clock := 0;
  delivered := [];
  eof_calls := 0;
  threads_started := 0 |}.

(** An Image descriptor of [stream] captured at [t]. *)
Definition image (stream : nat) (t : Z) : sample :=
  frame_sample {| capture_time := t; offset := 0 |}
    {| stream := stream; time_stamp := inject_Z t; ctype := none; number := 0 |} [].

Definition vga : stream_info := {| nframes := 0; si_ctype := none; width := 640; height := 480 |}.

(** The state of a member function's outcome. *)
Definition state_of {A} (o : outcome scripted A) (otherwise : disk_read_base scripted)
  : disk_read_base scripted :=
  match o with Returns _ st | Throws _ st => st | OutOfFuel => otherwise end.

(** The header declares [declared]; [active] of them are enabled and the whole
    file [records] is indexed. *)
Definition opened (fl : script) (declared active : list nat) (records : list sample)
  : disk_read_base scripted :=
  let st := set_m_streams_infos (list_to_map ((λ s, (s, vga)) <$> declared))
              (constructed fl records) in
  let st := state_of (while (index_fuel st) (λ st, negb (m_is_index_complete st))
                        (index_next_samples 32) st) st in
  foldl (λ st s, state_of (enable_stream s true st) st) st active.

(** [m] after [st]. *)
Definition after {A} (m : M scripted A) (st : disk_read_base scripted)
  : disk_read_base scripted :=
  state_of (m st) st.

(** Stream identifiers of [rs.h]. *)
Definition depth : nat := 0.
Definition color : nat := 1.
Definition infrared : nat := 2.
Definition fisheye : nat := 4.

(** A file whose every frame is one sample-data chunk of four bytes. *)
Definition frames_file (n : nat) : script :=
  {| seeks := [];
     chunks := replicate n {| id_ := chunk_sample_data; size_ := 4 |};
     payloads := replicate n [1; 2; 3; 4]%Z |}.

(** Section 8 of the specification: two streams, [depth] at 0, 10, 20, 30
    and [color] at 0, 11, 19, 31. *)
Definition two_streams : disk_read_base scripted :=
  opened (frames_file 8) [depth; color] [depth; color]
    [image depth 0; image color 0; image depth 10; image color 11;
     image color 19; image depth 20; image depth 30; image color 31].

(** Three streams in the file, [infrared] not enabled. *)
Definition three_streams : disk_read_base scripted :=
  opened (frames_file 8) [depth; color; infrared] [depth; color]
    [image color 0; image color 100; image infrared 101; image depth 102;
     image depth 103; image color 1000].



Definition motion (t : Z) : sample := motion_sample {| capture_time := t; offset := 0 |}.

(** [depth] is enabled and has no frame in the file; the one motion sample
    is prefetched and indexing is complete. *)
Definition only_motion_left : disk_read_base scripted :=
  after (prefetch_sample 4)
    (after (enable_motions_callback true) (opened no_file [depth] [depth] [motion 0])).

(** Motion tracking is enabled, [depth] is enabled and its first frame is
    prefetched. *)
Definition one_frame_ready : disk_read_base scripted :=
  after (prefetch_sample 4)
    (after (enable_motions_callback true)
       (opened (frames_file 2) [depth] [depth] [image depth 0; image depth 10])).

(** Two motion samples 3000 seconds (3 * 10^9 microseconds) apart, played in
    realtime. *)
Definition long_gap : disk_read_base scripted :=
  after resume
    (after (enable_motions_callback true)
       (opened no_file [] [] [motion 0; motion 3000000000])).

(** A play-through of two frames to the end of the file. *)
Definition played : disk_read_base scripted :=
  after (read_thread 16 None)
    (after resume
       (after (set_realtime false)
          (opened (frames_file 2) [depth] [depth] [image depth 0; image depth 10]))).

(** A file that ends after the header of a sample-data chunk of 16 bytes. *)
Definition truncated : script :=
  {| seeks := []; chunks := [{| id_ := chunk_sample_data; size_ := 16 |}]; payloads := [] |}.

(** A file that ends after a metadata chunk. *)
Definition truncated_after_metadata : script :=
  {| seeks := []; chunks := [{| id_ := chunk_image_metadata; size_ := 8 |}]; payloads := [] |}.

Definition raw_frame : frame_info :=
  {| stream := depth; time_stamp := 0; ctype := none; number := 0 |}.

Definition at_start : sample_info := {| capture_time := 0; offset := 0 |}.

(** [color] was enabled and is disabled again; the descriptor under the
    cursor is a [color] frame. *)
Definition color_disabled : disk_read_base scripted :=
  after (enable_stream color false)
    (opened (frames_file 4) [depth; color] [depth; color]
       [image color 0; image depth 1; image color 33; image depth 34]).

(** A header that declares [depth] and [color]. *)
Definition depth_and_color : disk_read_base scripted :=
  opened no_file [depth; color] [] [].


(** Playing with realtime off, motion tracking enabled and no stream
    enabled; the file has a [depth] frame among its motion samples. *)
Definition motion_only : disk_read_base scripted :=
  after resume
    (after (set_realtime false)
       (after (enable_motions_callback true)
          (opened no_file [depth] [] [motion 0; motion 5; image depth 7; motion 9]))).



(** The end of a file of one motion sample at 5000 microseconds, played in
    realtime: the sample is queued and not yet due. *)
Definition waiting_for_last : disk_read_base scripted :=
  after (prefetch_sample 4)
    (after resume
       (after (enable_motions_callback true) (opened no_file [] [] [motion 5000]))).

End Fixture.

(** * Properties *)

Section Properties.
Context `{C : Collaborators}.

Abbreviation state := (disk_read_base C).

(** ** An observation that a member function leaves alone *)

Lemma keeps_ret {X A} (p : state → X) (a : A) : keeps p (ret a).
Proof. intros st. reflexivity. Qed.

Lemma keeps_get {X} (p : state → X) : keeps p get.
Proof. intros st. reflexivity. Qed.

Lemma keeps_throw {X A} (p : state → X) what :
  what ≠ eof_callback_is_null → keeps p (@throw C A what).
Proof. intros Hw st. by split. Qed.

Lemma keeps_modify {X} (p : state → X) f : (∀ st, p (f st) = p st) → keeps p (modify f).
Proof. intros Hf st. apply Hf. Qed.

Lemma keeps_bind {X A B} (p : state → X) (m : M C A) (k : A → M C B) :
  keeps p m → (∀ a, keeps p (k a)) → keeps p (bind m k).
Proof.
  intros Hm Hk st. unfold bind. specialize (Hm st).
  destruct (m st) as [a st'| |]; try done.
  specialize (Hk a st'). destruct (k a st') as [? ?|? ?|]; [congruence| |done].
  destruct Hk. split; [congruence|done].
Qed.

Lemma keeps_while {X} (p : state → X) fuel cond body :
  keeps p body → keeps p (while fuel cond body).
Proof.
  intros Hb. induction fuel as [|fuel IH]; intros st; simpl.
  - destruct (cond st); done.
  - destruct (cond st); [|done].
    apply (keeps_bind p body (λ _, while fuel cond body)); auto.
Qed.

Lemma keeps_on_file {X A} (p : state → X) (op : file → file * A) :
  (∀ fl st, p (set_m_file_data_read fl st) = p st) → keeps p (on_file op).
Proof. intros Hp st. unfold on_file. destruct (op _). apply Hp. Qed.

(** ** The indexer *)

Lemma index_sample_samples s (st : state) :
  m_samples_desc (index_sample s st) = m_samples_desc st ++ [s].
Proof. destruct s; reflexivity. Qed.

Lemma index_records_samples rs n (st : state) :
  m_samples_desc (index_records rs n st) ++ m_file_indexing (index_records rs n st)
  = m_samples_desc st ++ rs.
Proof.
  revert n st. induction rs as [|s rs IH]; intros n st; simpl.
  - destruct (n =? 0)%N; simpl; reflexivity.
  - destruct (n =? 0)%N; simpl; [reflexivity|].
    rewrite IH, index_sample_samples, <- app_assoc. reflexivity.
Qed.

Lemma index_sample_complete s (st : state) :
  m_is_index_complete (index_sample s st) = m_is_index_complete st.
Proof. destruct s; reflexivity. Qed.

Lemma index_records_flag rs n (st : state) :
  m_is_index_complete st = false →
  m_is_index_complete (index_records rs n st) = true →
  m_file_indexing (index_records rs n st) = [].
Proof.
  revert n st. induction rs as [|s rs IH]; intros n st Hst; simpl.
  - destruct (n =? 0)%N; simpl; [congruence|done].
  - destruct (n =? 0)%N; simpl; [congruence|].
    apply IH. by rewrite index_sample_complete.
Qed.

(** A call with a positive batch consumes a record or sets the flag. *)
Lemma index_records_progress rs n (st : state) :
  (0 < n)%N →
  m_is_index_complete (index_records rs n st) = true
  ∨ length (m_file_indexing (index_records rs n st)) < length rs.
Proof.
  revert n st. induction rs as [|s rs IH]; intros n st Hn; simpl.
  - destruct (N.eqb_spec n 0); [lia|]. by left.
  - destruct (N.eqb_spec n 0); [lia|].
    destruct (N.eqb_spec (N.pred n) 0) as [Hz|Hz].
    + right. destruct rs; simpl; rewrite Hz; simpl; lia.
    + destruct (IH (N.pred n) (index_sample s st)) as [H|H]; [lia|by left|right; lia].
Qed.

Lemma index_records_keeps {X} (p : state → X) :
  (∀ v st, p (set_m_samples_desc v st) = p st) →
  (∀ v st, p (set_m_image_indices v st) = p st) →
  (∀ v st, p (set_m_is_index_complete v st) = p st) →
  (∀ v st, p (set_m_file_indexing v st) = p st) →
  ∀ rs n st, p (index_records rs n st) = p st.
Proof.
  intros H1 H2 H3 H4. induction rs as [|s rs IH]; intros n st; simpl.
  - destruct (n =? 0)%N; [apply H4|]. by rewrite H3, H4.
  - destruct (n =? 0)%N; [apply H4|]. rewrite IH.
    unfold index_sample. destruct s; rewrite ?H2, ?H1; reflexivity.
Qed.

Lemma index_next_samples_keeps {X} (p : state → X) n :
  (∀ v st, p (set_m_samples_desc v st) = p st) →
  (∀ v st, p (set_m_image_indices v st) = p st) →
  (∀ v st, p (set_m_is_index_complete v st) = p st) →
  (∀ v st, p (set_m_file_indexing v st) = p st) →
  keeps p (index_next_samples n).
Proof.
  intros H1 H2 H3 H4. apply keeps_modify. intros st.
  destruct (m_is_index_complete st); [done|]. by apply index_records_keeps.
Qed.

(** ** Buffering *)

Lemma every_stream_ready_Forall (l : list (nat * active_stream_info)) :
  every_stream_ready l = true ↔ Forall (λ e, (0 < m_prefetched_samples_count e.2)%Z) l.
Proof.
  induction l as [|[s a] l IH]; simpl.
  - split; [constructor|done].
  - destruct (Z.ltb_spec 0 (m_prefetched_samples_count a)).
    + rewrite IH. split; [by constructor|by inversion 1].
    + split; [done|]. inversion 1; simpl in *; lia.
Qed.

Lemma entries_Permutation {A} (m : gmap nat A) : entries m ≡ₚ map_to_list m.
Proof. apply merge_sort_Permutation. Qed.

Lemma every_stream_ready_entries (m : gmap nat active_stream_info) :
  every_stream_ready (entries m) = true
  ↔ ∀ s a, m !! s = Some a → (0 < m_prefetched_samples_count a)%Z.
Proof.
  rewrite every_stream_ready_Forall, entries_Permutation, Forall_forall.
  split.
  - intros H s a Hs. apply (H (s, a)). by apply elem_of_map_to_list.
  - intros H [s a] Hs. apply (H s a). by apply elem_of_map_to_list.
Qed.

(** C3 (as amended): [all_samples_bufferd] holds exactly when indexing is
    complete, the cursor is past the last descriptor and the queue is not
    empty, or when every active stream has a ready sample and the queue depth
    exceeds the threshold, which is [NUMBER_OF_REQUIRED_PREFETCHED_SAMPLES]
    with motion tracking enabled and 0 without. *)
Theorem all_samples_bufferd_spec (st : state) :
  all_samples_bufferd st = true
  ↔ (m_is_index_complete st = true
     ∧ length (m_samples_desc st) ≤ m_samples_desc_index st
     ∧ 0 < length (m_prefetched_samples st))
    ∨ ((∀ s a, m_active_streams_info st !! s = Some a → (0 < m_prefetched_samples_count a)%Z)
       ∧ prefetch_threshold st < length (m_prefetched_samples st)).
Proof.
  unfold all_samples_bufferd, exhausted, prefetch_threshold.
  rewrite <- every_stream_ready_entries.
  destruct (m_is_index_complete st); simpl;
    destruct (Nat.leb_spec (length (m_samples_desc st)) (m_samples_desc_index st)); simpl;
    destruct (Nat.ltb_spec 0 (length (m_prefetched_samples st))); simpl;
    destruct (every_stream_ready (entries (m_active_streams_info st)));
    try rewrite Nat.ltb_lt; intuition (try lia; try congruence).
Qed.

(** ** Prefetch of a disabled stream *)

Lemma enable_stream_false (s : nat) (st st' : state) :
  enable_stream s false st = Returns tt st' →
  m_active_streams_info st' !! s = None ∧ m_samples_desc st' = m_samples_desc st
  ∧ m_samples_desc_index st' = m_samples_desc_index st.
Proof.
  unfold enable_stream, bind, get. destruct (m_streams_infos st !! s); [|done].
  unfold modify. intros [= <-]. simpl. by rewrite lookup_delete_eq.
Qed.

(** C4: when the descriptor under the cursor is an Image of a stream that is
    not active, [prefetch_sample] changes nothing but the cursor, which it
    advances past the descriptor unless the call is the no-op of a full
    buffer: the file handle and the decoder are as before (no decode), the
    queue is as before (no push) and every ready counter is as before; the
    counter of the stream reads 0, as after [enable_stream(stream, false)]. *)
Theorem prefetch_sample_inactive_image (fuel : nat) (st : state) i f data :
  m_samples_desc st !! m_samples_desc_index st = Some (frame_sample i f data) →
  m_active_streams_info st !! stream f = None →
  ∃ st',
    prefetch_sample fuel st = Returns tt st'
    ∧ st' = (if all_samples_bufferd st then st
             else set_m_samples_desc_index (S (m_samples_desc_index st)) st)
    ∧ m_file_data_read st' = m_file_data_read st
    ∧ m_decoder st' = m_decoder st
    ∧ m_prefetched_samples st' = m_prefetched_samples st
    ∧ (∀ s, ready_count st' s = ready_count st s)
    ∧ ready_count st' (stream f) = 0%Z.
Proof.
  intros Hdesc Hoff.
  assert (Hex : exhausted st = false).
  { unfold exhausted. apply Nat.leb_gt. by eapply lookup_lt_Some. }
  unfold prefetch_sample, bind, get. rewrite Hex. simpl.
  destruct (all_samples_bufferd st).
  - eexists. split; [reflexivity|]. unfold ready_count. rewrite Hoff. done.
  - rewrite Hdesc. unfold modify. simpl. rewrite Hoff. unfold ret.
    eexists. split; [reflexivity|]. unfold ready_count. simpl. rewrite Hoff. done.
Qed.

(** ** Pacing *)

Lemma to_int_exact (x d : Z) :
  (x mod 2 ^ 32 = d mod 2 ^ 32)%Z → (- 2 ^ 31 <= d < 2 ^ 31)%Z → to_int x = d.
Proof.
  intros Hx Hd. unfold to_int.
  rewrite <- (Zplus_mod_idemp_l x), Hx, Zplus_mod_idemp_l.
  rewrite Z.mod_small; lia.
Qed.

Lemma to_uint64_mod32 (x : Z) : (to_uint64 x mod 2 ^ 32 = x mod 2 ^ 32)%Z.
Proof.
  unfold to_uint64. apply Z.mod_mod_divide. exists (2 ^ 32)%Z. reflexivity.
Qed.

(** X1: Within the range of an [int] the computed delay is the stated one. *)
Lemma calc_sleep_time_in_range (st : state) (sample : sample) :
  (- 2 ^ 31 <= stated_due_delay st sample < 2 ^ 31)%Z →
  calc_sleep_time st sample = stated_due_delay st sample.
Proof.
  intros Hd. unfold calc_sleep_time, query_run_time. apply to_int_exact; [|done].
  rewrite to_uint64_mod32. unfold stated_due_delay.
  rewrite Zminus_mod, to_uint64_mod32, <- Zminus_mod. reflexivity.
Qed.

Lemma notify_queue_not_realtime (queue : list sample) (st : state) :
  m_pause st = false → m_realtime st = false →
  m_prefetched_samples (notify_queue queue st) = (match queue with [] => m_prefetched_samples st | _ => [] end)
  ∧ delivered (notify_queue queue st) = delivered st ++ queue.
Proof.
  revert st. induction queue as [|front rest IH]; intros st Hp Hr; simpl.
  - by rewrite app_nil_r.
  - rewrite Hp, Hr, andb_false_r.
    match goal with |- context [notify_queue rest ?s] => destruct (IH s) as [Hq Hd] end.
    { destruct front; done. }
    { destruct front; done. }
    rewrite Hq, Hd. split.
    + destruct rest; [|done]. destruct front; reflexivity.
    + destruct front; simpl; by rewrite <- app_assoc.
Qed.

(** With realtime off every buffered sample is delivered, in order, whatever
    its delay. *)
Lemma notify_available_samples_not_realtime (st : state) :
  m_pause st = false → m_realtime st = false →
  ∃ st', notify_available_samples st = Returns tt st'
         ∧ m_prefetched_samples st' = []
         ∧ delivered st' = delivered st ++ m_prefetched_samples st.
Proof.
  intros Hp Hr. eexists. split; [reflexivity|].
  destruct (notify_queue_not_realtime (m_prefetched_samples st) st Hp Hr) as [Hq Hd].
  split; [|done]. rewrite Hq. by destruct (m_prefetched_samples st).
Qed.

(** A sample whose delay is not positive is delivered at once in realtime
    mode too. *)
Lemma notify_queue_due (front : sample) (rest : list sample) (st : state) :
  m_pause st = false → (calc_sleep_time st front <= 0)%Z →
  ∃ st', notify_queue (front :: rest) st = notify_queue rest st'
         ∧ delivered st' = delivered st ++ [front]
         ∧ m_prefetched_samples st' = rest.
Proof.
  intros Hp Hd. simpl. rewrite Hp.
  destruct (Z.ltb_spec 0 (calc_sleep_time st front)); [lia|]. simpl.
  eexists. split; [reflexivity|]. destruct front; done.
Qed.

(** ** resume *)


(** ** Loops that index *)

Lemma while_done fuel cond (body : M C unit) (st : state) :
  cond st = false → while fuel cond body st = Returns tt st.
Proof. intros H. destruct fuel; simpl; by rewrite H. Qed.

(** One call of the indexer on a file that is not yet complete. *)
Lemma index_records_step n (st : state) :
  (0 < n)%N → m_is_index_complete st = false →
  let st1 := index_records (m_file_indexing st) n st in
  file_samples st1 = file_samples st
  ∧ (m_is_index_complete st1 = true → m_samples_desc st1 = file_samples st)
  ∧ (m_is_index_complete st1 = true
     ∨ length (m_file_indexing st1) < length (m_file_indexing st))
  ∧ (m_is_index_complete st1 = true
     ∨ length (m_samples_desc st) < length (m_samples_desc st1)).
Proof.
  intros Hn Hc st1.
  pose proof (index_records_samples (m_file_indexing st) n st) as Hs.
  pose proof (index_records_flag (m_file_indexing st) n st Hc) as Hf.
  pose proof (index_records_progress (m_file_indexing st) n st Hn) as Hp.
  fold st1 in Hs, Hf, Hp. unfold file_samples. rewrite Hc.
  destruct (m_is_index_complete st1) eqn:Hc1.
  - rewrite Hf in Hs by done. rewrite <- Hs. rewrite !app_nil_r. auto.
  - destruct Hp as [|Hp]; [done|].
    split; [done|]. split; [done|]. split; [by right|right].
    apply (f_equal length) in Hs. rewrite !length_app in Hs. lia.
Qed.

Lemma while_index (I : state → Prop) cond n :
  (0 < n)%N →
  (∀ st, cond st = true → m_is_index_complete st = false) →
  (∀ st, I st → m_is_index_complete st = false → I (index_records (m_file_indexing st) n st)) →
  ∀ fuel st, I st → length (m_file_indexing st) < fuel →
  ∃ st', while fuel cond (index_next_samples n) st = Returns tt st'
         ∧ cond st' = false ∧ I st'.
Proof.
  intros Hn Hcond Hstep. induction fuel as [|fuel IH]; intros st HI Hfuel; [lia|].
  simpl. destruct (cond st) eqn:Hc; [|by exists st].
  unfold bind, index_next_samples, modify. rewrite (Hcond st Hc).
  set (st1 := index_records (m_file_indexing st) n st).
  destruct (index_records_step n st Hn (Hcond st Hc)) as (_ & _ & [Hdone|Hless] & _);
    fold st1 in Hdone || fold st1 in Hless.
  - exists st1. rewrite while_done.
    + split; [done|]. split; [|by apply Hstep, Hcond].
      destruct (cond st1) eqn:Hc1; [|done]. apply Hcond in Hc1. congruence.
    + destruct (cond st1) eqn:Hc1; [|done]. apply Hcond in Hc1. congruence.
  - apply IH; [by apply Hstep, Hcond|lia].
Qed.

(** ** query_number_of_frames *)




(** ** Seek by time stamp *)




(** ** The callbacks and the pause flag under the member functions *)

Lemma keeps_out_of_fuel {X A} (p : state → X) : keeps p (λ _, @OutOfFuel C A).
Proof. intros st. exact I. Qed.








Lemma add_prefetched_control d s (st : state) : control (add_prefetched d s st) = control st.
Proof. reflexivity. Qed.












(** ** The read loop *)





(** The iteration that finds the end of the file calls the callback, sets
    [m_pause] and leaves the loop; without a callback it throws. *)
Lemma read_thread_loop_end_of_file fuel pause_at (st st1 : state) :
  m_pause st = false → pause_at ≠ Some 0 →
  read_next_sample fuel st = Returns false st1 →
  read_thread_loop (S fuel) pause_at false st
  = if m_eof_callback st1
    then Returns tt (set_m_pause true (set_eof_calls (S (eof_calls st1)) st1))
    else Throws eof_callback_is_null st1.
Proof.
  intros Hp Hat Hread. simpl.
  assert (match pause_at with Some 0 => set_m_pause true st | _ => st end = st) as ->.
  { by destruct pause_at as [[|k]|]. }
  rewrite Hp. simpl. unfold bind at 1. rewrite Hread. simpl.
  unfold bind, get, modify, throw. destruct (m_eof_callback st1); simpl; [|done].
  destruct fuel; simpl; by destruct pause_at as [[|[|k]]|].
Qed.



(** ** Decoding and I/O faults *)


(** ** Enabling streams *)

(** [enable_stream] on a stream absent from [m_streams_infos] throws and
    leaves the object as it was. *)
Lemma enable_stream_unsupported (stream : nat) (state : bool) (st : disk_read_base C) :
  m_streams_infos st !! stream = None →
  enable_stream stream state st = Throws "unsupported stream"%string st.
Proof. intros H. unfold enable_stream, bind, get. by rewrite H. Qed.

(** [enable_stream] keeps the active streams among those of
    [m_streams_infos]. *)
Lemma enable_stream_subset (stream : nat) (state : bool) (st st' : disk_read_base C) :
  dom (m_active_streams_info st) ⊆ dom (m_streams_infos st) →
  enable_stream stream state st = Returns tt st' →
  dom (m_active_streams_info st') ⊆ dom (m_streams_infos st').
Proof.
  intros Hsub. unfold enable_stream, bind, get, modify.
  destruct (m_streams_infos st !! stream) eqn:E; [|done].
  destruct state; intros [= <-]; simpl.
  - rewrite dom_insert_L. apply elem_of_dom_2 in E.
    apply union_least; [by apply singleton_subseteq_l|done].
  - rewrite dom_delete_L. by apply subseteq_difference_l.
Qed.

End Properties.

(** * Nearest-frame resolution where every stream of the file is active *)

Section Nearest.
Context `{C : Collaborators}.

Abbreviation state := (disk_read_base C).

Lemma closest_preceding_ext (l1 l2 : list sample) s index :
  (∀ j, j < index → l1 !! j = l2 !! j) →
  closest_preceding l1 s index = closest_preceding l2 s index.
Proof.
  induction index as [|index IH]; intros H; simpl; [done|].
  rewrite <- (H index) by lia. rewrite IH by (intros; apply H; lia). done.
Qed.

Lemma closest_preceding_lt (l : list sample) s index p :
  closest_preceding l s index = Some p → p < index.
Proof.
  induction index as [|index IH]; simpl; [done|].
  destruct (l !! index) as [x|]; [destruct (image_of s x)|].
  - intros [= <-]. lia.
  - intros H. apply IH in H. lia.
  - intros H. apply IH in H. lia.
Qed.

(** The backward search records, for every active stream, its closest
    preceding Image sample, provided every stream it meets is active. *)
Lemma prev_search_spec (descs : list sample) (A : gset nat) (s : nat) :
  s ∈ A →
  ∀ index (acc : gmap nat nat),
    dom acc ⊆ A →
    (∀ j i f d, j < index → descs !! j = Some (frame_sample i f d) → stream f ∈ A) →
    prev_search descs (size A) index acc !! s
    = match acc !! s with
      | Some v => Some v
      | None => closest_preceding descs s index
      end.
Proof.
  intros Hs. induction index as [|index IH]; intros acc Hacc Hall; simpl.
  { by destruct (acc !! s). }
  assert (Hall' : ∀ j i f d, j < index → descs !! j = Some (frame_sample i f d) → stream f ∈ A).
  { intros j i f d Hj. apply Hall. lia. }
  destruct (Nat.ltb_spec (size acc) (size A)) as [Hlt|Hge].
  - destruct (descs !! index) as [x|] eqn:Hx; [|by apply IH].
    destruct x as [i f d| | | |]; try (by apply IH).
    simpl. assert (stream f ∈ A) by (by eapply (Hall index); [lia|]).
    destruct (acc !! stream f) as [v|] eqn:Hf.
    + rewrite IH by done.
      destruct (Nat.eqb_spec (stream f) s) as [<-|Hne]; [by rewrite Hf|done].
    + rewrite IH; [|rewrite dom_insert_L; apply union_least;
                      [by apply singleton_subseteq_l|done]|done].
      destruct (Nat.eqb_spec (stream f) s) as [<-|Hne].
      * by rewrite lookup_insert_eq, Hf.
      * by rewrite lookup_insert_ne.
  - assert (dom acc = A) as Hdom.
    { apply set_subseteq_size_eq; [done|]. by rewrite size_dom. }
    assert (is_Some (acc !! s)) as [v ->]; [|done].
    apply elem_of_dom. by rewrite Hdom.
Qed.

Lemma index_records_active rs n (st : state) :
  m_active_streams_info (index_records rs n st) = m_active_streams_info st.
Proof. by apply (index_records_keeps m_active_streams_info). Qed.

Lemma file_samples_prefix (st : state) j x :
  m_samples_desc st !! j = Some x → file_samples st !! j = Some x.
Proof. intros H. unfold file_samples. by apply lookup_app_l_Some. Qed.

(** The forward search records, for every active stream, its closest
    following Image sample in the file, indexing as far as needed, provided
    every stream it meets is active. *)
Lemma next_search_spec (samples : list sample) (A : gset nat) (s : nat) :
  s ∈ A →
  (∀ j i f d, samples !! j = Some (frame_sample i f d) → stream f ∈ A) →
  ∀ fuel index (acc : gmap nat nat) (st : state),
    file_samples st = samples →
    dom (m_active_streams_info st) = A →
    dom acc ⊆ A →
    (∀ k v, acc !! k = Some v → v < length (m_samples_desc st)) →
    index < length (m_samples_desc st) →
    length samples + (if m_is_index_complete st then 1 else 2) ≤ fuel + index →
    ∃ next st',
      next_search fuel index acc st = Returns next st'
      ∧ file_samples st' = samples
      ∧ m_active_streams_info st' = m_active_streams_info st
      ∧ length (m_samples_desc st) ≤ length (m_samples_desc st')
      ∧ (∀ k v, next !! k = Some v → v < length (m_samples_desc st'))
      ∧ next !! s = match acc !! s with
                    | Some v => Some v
                    | None => closest_from (drop (S index) samples) s (S index)
                    end.
Proof.
  intros Hs Hall. induction fuel as [|fuel IH];
    intros index acc st Hfile Hact Hacc Hval Hidx Hfuel.
  { exfalso. rewrite <- Hfile in Hfuel. unfold file_samples in Hfuel.
    rewrite length_app in Hfuel. destruct (m_is_index_complete st); lia. }
  simpl. rewrite <- (size_dom (m_active_streams_info st)), Hact.
  destruct (Nat.ltb_spec (size acc) (size A)) as [Hlt|Hge].
  2:{ assert (dom acc = A) as Hdom.
      { apply set_subseteq_size_eq; [done|]. by rewrite size_dom. }
      assert (is_Some (acc !! s)) as [v Hv] by (apply elem_of_dom; by rewrite Hdom).
      exists acc, st. rewrite Hv. done. }
  destruct ((length (m_samples_desc st) <=? index + 1) && m_is_index_complete st) eqn:Hbreak.
  { apply andb_true_iff in Hbreak as [Hle Hc]. apply Nat.leb_le in Hle.
    exists acc, st. repeat split; try done.
    destruct (acc !! s); [done|].
    rewrite drop_ge; [done|]. rewrite <- Hfile. unfold file_samples.
    rewrite Hc, app_nil_r. lia. }
  (* the state after the optional call of the indexer *)
  assert (Hstep : ∃ st1 : state,
    (if length (m_samples_desc st) <=? index + 1
     then index_next_samples NUMBER_OF_SAMPLES_TO_INDEX else ret tt) st = Returns tt st1
    ∧ file_samples st1 = samples
    ∧ m_active_streams_info st1 = m_active_streams_info st
    ∧ length (m_samples_desc st) ≤ length (m_samples_desc st1)
    ∧ (length (m_samples_desc st1) ≤ index + 1 → m_is_index_complete st1 = true
                                                  ∧ m_is_index_complete st = false)
    ∧ (m_is_index_complete st = true → m_is_index_complete st1 = true)).
  { destruct (Nat.leb_spec (length (m_samples_desc st)) (index + 1)) as [Hle|Hgt].
    - simpl in Hbreak. unfold index_next_samples, modify. rewrite Hbreak.
      destruct (index_records_step NUMBER_OF_SAMPLES_TO_INDEX st
                  NUMBER_OF_SAMPLES_TO_INDEX_pos Hbreak) as (Hsame & _ & _ & Hgrow).
      eexists. split; [reflexivity|]. split; [by rewrite Hsame|].
      split; [apply index_records_active|].
      assert (length (m_samples_desc st)
              ≤ length (m_samples_desc (index_records (m_file_indexing st)
                                          NUMBER_OF_SAMPLES_TO_INDEX st))) as Hmono.
      { pose proof (index_records_samples (m_file_indexing st)
                      NUMBER_OF_SAMPLES_TO_INDEX st) as Hs'.
        destruct Hgrow as [Hc|]; [|lia].
        rewrite (index_records_flag _ _ _ Hbreak Hc), app_nil_r in Hs'.
        rewrite Hs', length_app. lia. }
      split; [done|]. split; [|congruence].
      intros Hsmall. split; [|done]. destruct Hgrow as [|]; [done|lia].
    - exists st. split; [done|]. split; [done|]. split; [done|]. split; [done|].
      split; [intros; lia|done]. }
  destruct Hstep as (st1 & Hrun & Hfile1 & Hact1 & Hmono & Hsmall & Hc1).
  unfold bind at 1. rewrite Hrun. unfold bind at 1, get.
  destruct (Nat.leb_spec (length (m_samples_desc st1)) (index + 1)) as [Hle|Hgt].
  - destruct (Hsmall Hle) as [Hdone Hnot].
    destruct (IH index acc st1) as (next & st' & Hret & Hf & Ha & Hm & Hv & Hn);
      try done; try lia.
    + by rewrite Hact1.
    + intros k v Hk. specialize (Hval k v Hk). lia.
    + rewrite Hdone. rewrite Hnot in Hfuel. lia.
    + exists next, st'. rewrite Hret. repeat split; try done; [congruence|lia].
  - assert (Hx : ∃ x, m_samples_desc st1 !! S index = Some x).
    { apply lookup_lt_is_Some. lia. }
    destruct Hx as [x Hx].
    assert (Hxs : samples !! S index = Some x) by (rewrite <- Hfile1; by apply file_samples_prefix).
    rewrite Hx. rewrite (drop_S _ _ _ Hxs). simpl.
    assert (Hrec : ∀ acc' : gmap nat nat,
      dom acc' ⊆ A →
      (∀ k v, acc' !! k = Some v → v < length (m_samples_desc st1)) →
      acc' !! s = match acc !! s with
                  | Some v => Some v
                  | None => if image_of s x then Some (S index) else None
                  end →
      ∃ next st',
        next_search fuel (S index) acc' st1 = Returns next st'
        ∧ file_samples st' = samples
        ∧ m_active_streams_info st' = m_active_streams_info st
        ∧ length (m_samples_desc st) ≤ length (m_samples_desc st')
        ∧ (∀ k v, next !! k = Some v → v < length (m_samples_desc st'))
        ∧ next !! s = match acc !! s with
                      | Some v => Some v
                      | None => if image_of s x then Some (S index)
                                else closest_from (drop (S (S index)) samples) s (S (S index))
                      end).
    { intros acc' Hd Hv Hs'.
      destruct (IH (S index) acc' st1) as (next & st' & Hret & Hf & Ha & Hm & Hv' & Hn);
        try done; try lia.
      - by rewrite Hact1.
      - destruct (m_is_index_complete st) eqn:Hcs.
        + rewrite Hc1 by done. lia.
        + destruct (m_is_index_complete st1); lia.
      - exists next, st'. rewrite Hret. repeat split; try done; [congruence|lia|].
        rewrite Hn, Hs'. destruct (acc !! s); [done|]. by destruct (image_of s x). }
    assert (Hval1 : ∀ k v, acc !! k = Some v → v < length (m_samples_desc st1)).
    { intros k v Hk. specialize (Hval k v Hk). lia. }
    destruct x as [i f d| | | |]; simpl in Hrec |- *;
      try (apply Hrec; [done|done|by destruct (acc !! s)]).
    assert (stream f ∈ A) by (by eapply Hall).
    destruct (acc !! stream f) as [v|] eqn:Hf.
    + apply Hrec; [done|done|].
      destruct (Nat.eqb_spec (stream f) s) as [<-|Hne]; [by rewrite Hf|by destruct (acc !! s)].
    + apply Hrec.
      * rewrite dom_insert_L. apply union_least; [by apply singleton_subseteq_l|done].
      * intros k v. destruct (decide (stream f = k)) as [<-|Hne].
        -- rewrite lookup_insert_eq. intros [= <-]. lia.
        -- rewrite lookup_insert_ne by done. apply Hval1.
      * destruct (Nat.eqb_spec (stream f) s) as [<-|Hne].
        -- by rewrite lookup_insert_eq, Hf.
        -- rewrite lookup_insert_ne by done. by destruct (acc !! s).
Qed.

Lemma absdiff_exact (a b : Z) :
  (0 <= a < 2 ^ 64)%Z → (0 <= b < 2 ^ 64)%Z → absdiff a b = Z.abs (b - a).
Proof.
  intros Ha Hb. unfold absdiff, to_uint64.
  destruct (Z.ltb_spec b a); rewrite Z.mod_small; lia.
Qed.

Lemma capture_time_at_prefix (st : state) k :
  k < length (m_samples_desc st) →
  capture_time_at (m_samples_desc st) k = capture_time_at (file_samples st) k.
Proof.
  intros Hk. unfold capture_time_at, file_samples. by rewrite lookup_app_l.
Qed.

Lemma capture_time_at_range (samples : list sample) k :
  (∀ x, x ∈ samples → (0 <= capture_time (info x) < 2 ^ 64)%Z) →
  (0 <= capture_time_at samples k < 2 ^ 64)%Z.
Proof.
  intros H. unfold capture_time_at. destruct (samples !! k) as [x|] eqn:E; [|lia].
  apply H. by eapply list_elem_of_lookup_2.
Qed.

(** X2: Nearest-frame resolution as the specification states it, where the code
    achieves it: when every Image sample of the file belongs to an active
    stream and the active stream [s], other than the anchor's, has an Image
    sample before and after the anchor, the descriptor selected for [s] is
    the closer of the closest preceding and the closest following one, the
    preceding one on a tie. *)
Theorem select_nearest_frames_all_active (st : state) (sample_index anchor s p n : nat) :
  (∀ j i f d, file_samples st !! j = Some (frame_sample i f d) →
              stream f ∈ dom (m_active_streams_info st)) →
  (∀ x, x ∈ file_samples st → (0 <= capture_time (info x) < 2 ^ 64)%Z) →
  sample_index < length (m_samples_desc st) →
  s ∈ dom (m_active_streams_info st) →
  s ≠ anchor →
  closest_preceding (file_samples st) s sample_index = Some p →
  closest_following (file_samples st) s sample_index = Some n →
  ∃ prev_index next_index st',
    select_nearest_frames sample_index anchor st
    = Returns (nearest_frames st' sample_index anchor prev_index next_index) st'
    ∧ file_samples st' = file_samples st
    ∧ Some (nearest (m_samples_desc st') sample_index anchor prev_index next_index s)
      = stated_nearest (file_samples st) sample_index s.
Proof.
  intros Hall Hrange Hidx Hs Hne Hp Hn.
  unfold select_nearest_frames, bind at 1, get.
  set (prev_index := prev_search _ _ _ _).
  assert (Hprev : prev_index !! s = Some p).
  { subst prev_index. rewrite <- (size_dom (m_active_streams_info st)).
    rewrite prev_search_spec; [| done | by rewrite dom_empty_L |].
    - rewrite lookup_empty, <- Hp. apply closest_preceding_ext.
      intros j Hj. unfold file_samples. rewrite lookup_app_l; [done|lia].
    - intros j i f d Hj Hd. eapply Hall. by apply file_samples_prefix. }
  destruct (next_search_spec (file_samples st) (dom (m_active_streams_info st)) s Hs Hall
              (scan_fuel st) sample_index ∅ st)
    as (next_index & st' & Hret & Hfile & Hact & Hmono & Hval & Hnext); try done.
  { unfold scan_fuel, file_samples. rewrite length_app.
    destruct (m_is_index_complete st); simpl; lia. }
  rewrite lookup_empty in Hnext. fold (closest_following (file_samples st) s sample_index) in Hnext.
  rewrite Hn in Hnext.
  unfold bind at 1. rewrite Hret. unfold bind, get, ret.
  exists prev_index, next_index, st'. split; [done|]. split; [done|].
  unfold nearest, stated_nearest, at_key. rewrite Hprev, Hnext, Hp, Hn. simpl.
  destruct (Nat.eqb_spec s anchor); [done|].
  pose proof (closest_preceding_lt _ _ _ _ Hp) as Hplt.
  pose proof (Hval _ _ Hnext) as Hnlt.
  rewrite !capture_time_at_prefix by lia. rewrite Hfile.
  rewrite !absdiff_exact by (by apply capture_time_at_range).
  by destruct (_ <? _)%Z.
Qed.

End Nearest.

(** * Decoding *)

Ltac leaves_step :=
  first
    [ apply keeps_ret
    | apply keeps_get
    | apply keeps_throw; discriminate
    | apply keeps_out_of_fuel
    | apply keeps_while
    | apply keeps_on_file; solve [assumption | intros; reflexivity]
    | apply keeps_modify; solve [assumption | intros; reflexivity]
    | solve [auto 2]
    | apply keeps_bind; [|intros ?]
    | match goal with
      | |- keeps _ (match ?x with _ => _ end) => destruct x
      end ].

Section Decoding.
Context `{C : Collaborators}.

Abbreviation state := (disk_read_base C).

Lemma read_chunks_leaves {X} (p : state → X) fuel i f chunk :
  (∀ fl st, p (set_m_file_data_read fl st) = p st) →
  keeps p (read_chunks fuel i f chunk).
Proof.
  intros Hfile. revert chunk.
  induction fuel as [|fuel IH]; intros chunk; simpl; [apply keeps_out_of_fuel|].
  repeat leaves_step.
Qed.

Lemma init_decoder_leaves {X} (p : state → X) :
  (∀ v st, p (set_m_decoder v st) = p st) →
  (∀ v st, p (set_m_encoded_data v st) = p st) →
  keeps p init_decoder.
Proof. intros Hdecoder Hdata. apply keeps_modify. intros st. by rewrite Hdata, Hdecoder. Qed.

(** [read_image_buffer] touches the handle of the data file, the decoder and
    its buffer, and nothing else of the object. *)
Lemma read_image_buffer_leaves {X} (p : state → X) fuel i f :
  (∀ fl st, p (set_m_file_data_read fl st) = p st) →
  (∀ v st, p (set_m_decoder v st) = p st) →
  (∀ v st, p (set_m_encoded_data v st) = p st) →
  keeps p (read_image_buffer fuel i f).
Proof.
  intros Hfile Hdecoder Hdata. unfold read_image_buffer.
  pose proof (init_decoder_leaves p Hdecoder Hdata).
  pose proof (λ chunk, read_chunks_leaves p fuel i f chunk Hfile).
  repeat leaves_step.
Qed.

(** X3: What a frame read does to the object: nothing outside the handle of the
    data file, the decoder and its buffer, whether it returns or throws; the
    decoder it leaves is the one it found, or the one [init_decoder] makes
    from the streams active at that moment. *)
Theorem read_image_buffer_effect fuel i f (st : state) :
  match read_image_buffer fuel i f st with
  | Returns _ st' | Throws _ st' =>
      outside_decoder st' = outside_decoder st
      ∧ decoder_state st' = decoder_state (with_decoder st)
      ∧ is_Some (m_decoder st')
  | OutOfFuel => True
  end.
Proof.
  pose proof (read_image_buffer_leaves outside_decoder fuel i f
                (λ _ _, eq_refl) (λ _ _, eq_refl) (λ _ _, eq_refl) st) as Hout.
  assert (Hdec : match read_image_buffer fuel i f st with
                 | Returns _ st' | Throws _ st' =>
                     decoder_state st' = decoder_state (with_decoder st)
                 | OutOfFuel => True
                 end).
  { unfold read_image_buffer, bind at 1, on_file.
    destruct (set_position (m_file_data_read st) (offset i) begin) as [fl sts].
    unfold bind at 1, get. unfold bind at 1.
    set (st0 := set_m_file_data_read fl st).
    assert (Hst1 : ∃ st1, (match m_decoder st0 with None => init_decoder | Some _ => ret tt end) st0
                          = Returns tt st1
                          ∧ decoder_state st1 = decoder_state (with_decoder st)).
    { unfold with_decoder. change (m_decoder st0) with (m_decoder st).
      destruct (m_decoder st) eqn:Hd; eexists; (split; [reflexivity|]); reflexivity. }
    destruct Hst1 as (st1 & -> & Hst1). rewrite <- Hst1.
    destruct sts; [|reflexivity].
    pose proof (read_chunks_leaves decoder_state fuel i f {| id_ := chunk_other 0; size_ := 0 |}
                  (λ _ _, eq_refl) st1) as H.
    destruct (read_chunks _ _ _ _ st1); [exact H|apply H|exact I]. }
  destruct (read_image_buffer fuel i f st) as [r st'|what st'|]; [| |exact I].
  - split; [exact Hout|]. split; [exact Hdec|].
    unfold decoder_state, with_decoder in Hdec. injection Hdec as -> _.
    destruct (m_decoder st) eqn:Hd; [rewrite Hd; eauto|]. simpl. eauto.
  - split; [apply Hout|]. split; [exact Hdec|].
    unfold decoder_state, with_decoder in Hdec. injection Hdec as -> _.
    destruct (m_decoder st) eqn:Hd; [rewrite Hd; eauto|]. simpl. eauto.
Qed.

Lemma read_chunks_sample fuel i f :
  ∀ chunk (st st' : state) x,
    read_chunks fuel i f chunk st = Returns (Some x) st' →
    ∃ data, match ctype f with
            | none => x = frame_sample i f data
            | h264 | lz4 => decode_frame (default ∅ (m_decoder st)) i f data = Some x
            | ct_undefined _ => False
            end.
Proof.
  induction fuel as [|fuel IH]; intros chunk st st' x; simpl; [discriminate|].
  unfold bind at 1, on_file.
  destruct (read_chunk (m_file_data_read st) chunk) as [fl c].
  destruct (id_ c).
  - unfold bind at 1.
    destruct (0 <? to_uint64 (size_ c))%Z; unfold on_file, ret; simpl;
      intros H; apply IH in H; exact H.
  - unfold bind at 1, on_file. simpl.
    destruct (set_position fl size_of_pitches current) as [fl' sts].
    destruct (ctype f); unfold bind, on_file, get, ret, throw; simpl;
      try discriminate;
      destruct (read_bytes fl' _) as [fl'' data]; simpl;
      intros H; injection H as H _; eauto.
  - destruct (to_uint64 (size_ c) =? 0)%Z; [discriminate|].
    unfold bind at 1, on_file. simpl.
    destruct (set_position fl _ current) as [fl' sts].
    intros H; apply IH in H; exact H.
Qed.



(** A frame the codec hands back belongs to the stream of its descriptor. *)
Lemma read_image_buffer_image_of fuel i f (st st' : state) x :
  codec_keeps_stream →
  read_image_buffer fuel i f st = Returns (Some x) st' →
  image_of (stream f) x = true.
Proof.
  intros Hcodec. unfold read_image_buffer, bind at 1, on_file.
  destruct (set_position (m_file_data_read st) (offset i) begin) as [fl sts].
  unfold bind at 1, get. unfold bind at 1.
  destruct (m_decoder _); unfold ret, init_decoder, modify;
    (destruct sts; [|discriminate]);
    intros H; apply read_chunks_sample in H as [data H];
    (destruct (ctype f); [subst x; simpl; apply Nat.eqb_refl|by eapply Hcodec..|done]).
Qed.

(** X5: The chunk loop of a frame read does not end once a header read fails
    with a metadata chunk in [chunk]: the failed read leaves the chunk and the
    file position as they are, and the loop reads on. *)
Theorem read_chunks_stale_header fuel i f chunk (st : state) :
  id_ chunk = chunk_image_metadata →
  read_chunk (m_file_data_read st) chunk = (m_file_data_read st, chunk) →
  read_frame_metadata (m_file_data_read st) (to_uint64 (size_ chunk)) = m_file_data_read st →
  read_chunks fuel i f chunk st = OutOfFuel.
Proof.
  intros Hid Hread Hmeta. revert st Hread Hmeta.
  induction fuel as [|fuel IH]; intros st Hread Hmeta; [reflexivity|].
  simpl. unfold bind at 1, on_file. rewrite Hread, Hid. unfold bind at 1.
  destruct (0 <? to_uint64 (size_ chunk))%Z; unfold on_file, ret.
  - cbn [m_file_data_read set_m_file_data_read]. rewrite Hmeta.
    apply IH; simpl; [exact Hread|exact Hmeta].
  - apply IH; simpl; [exact Hread|exact Hmeta].
Qed.

Lemma buffer_size_max (l : list (nat * active_stream_info)) (b0 : Z) :
  Forall (λ e, (0 <= width (m_stream_info e.2) * height (m_stream_info e.2) < 2 ^ 30)%Z) l →
  (0 <= b0 < 2 ^ 30)%Z →
  let b := foldl (λ b e,
                    let si := m_stream_info e.2 in
                    let size := to_uint32 (width si * height si) in
                    if (b <? size)%Z then size else b) b0 l in
  (b0 <= b < 2 ^ 30)%Z
  ∧ Forall (λ e, (width (m_stream_info e.2) * height (m_stream_info e.2) <= b)%Z) l
  ∧ (b = b0 ∨ Exists (λ e, b = (width (m_stream_info e.2) * height (m_stream_info e.2))%Z) l).
Proof.
  intros Hl. revert b0. cbv zeta. induction Hl as [|e l He Hl IH]; intros b0 Hb0; simpl.
  - split; [lia|]. split; [constructor|by left].
  - set (size := (width (m_stream_info e.2) * height (m_stream_info e.2))%Z) in *.
    assert (Hsize : to_uint32 size = size) by (unfold to_uint32; apply Z.mod_small; lia).
    rewrite Hsize.
    destruct (Z.ltb_spec b0 size) as [Hlt|Hge].
    + destruct (IH size He) as (Hb & Hall & Hex).
      split; [lia|]. split; [constructor; [lia|exact Hall]|].
      right. destruct Hex as [->|Hex]; [by left|by right].
    + destruct (IH b0 Hb0) as (Hb & Hall & Hex).
      split; [lia|]. split; [constructor; [lia|exact Hall]|].
      destruct Hex as [Hex|Hex]; [by left|right; by right].
Qed.

(** X6: [init_decoder] sizes the scratch buffer for the largest active stream at
    four bytes a pixel, and configures the decoder with the compression type
    of every active stream; products of width and height below 2^30 keep the
    [uint32_t] arithmetic exact. *)
Theorem init_decoder_worst_case (st : state) :
  (∀ s a, m_active_streams_info st !! s = Some a →
          (0 <= width (m_stream_info a) * height (m_stream_info a) < 2 ^ 30)%Z) →
  ∃ st',
    init_decoder st = Returns tt st'
    ∧ outside_decoder st' = outside_decoder st
    ∧ m_decoder st' = Some ((λ a, si_ctype (m_stream_info a)) <$> m_active_streams_info st)
    ∧ (∀ s a, m_active_streams_info st !! s = Some a →
              (4 * (width (m_stream_info a) * height (m_stream_info a))
               <= m_encoded_data st')%Z)
    ∧ (m_encoded_data st' = 0%Z
       ∨ ∃ s a, m_active_streams_info st !! s = Some a
                ∧ m_encoded_data st'
                  = (4 * (width (m_stream_info a) * height (m_stream_info a)))%Z).
Proof.
  intros Hsmall. eexists. split; [reflexivity|]. split; [reflexivity|].
  split; [reflexivity|]. cbn [m_encoded_data set_m_encoded_data].
  assert (Hl : Forall (λ e : nat * active_stream_info,
                         (0 <= width (m_stream_info e.2) * height (m_stream_info e.2)
                          < 2 ^ 30)%Z)
                 (entries (m_active_streams_info st))).
  { apply Forall_forall. intros [s a] Hin. rewrite entries_Permutation in Hin.
    apply elem_of_map_to_list in Hin. by apply (Hsmall s a). }
  destruct (buffer_size_max _ 0%Z Hl ltac:(lia)) as (Hb & Hall & Hex).
  cbv zeta in Hb, Hall, Hex |- *.
  set (b := foldl _ 0%Z (entries (m_active_streams_info st))) in *.
  assert (Hfour : to_uint32 (b * 4) = (4 * b)%Z) by (unfold to_uint32; rewrite Z.mod_small; lia).
  rewrite Hfour. split.
  - intros s a Hsa. rewrite Forall_forall in Hall.
    specialize (Hall (s, a)). simpl in Hall.
    assert ((s, a) ∈ entries (m_active_streams_info st))
      by (rewrite entries_Permutation; by apply elem_of_map_to_list).
    specialize (Hall H). lia.
  - destruct Hex as [->|Hex]; [by left|]. right.
    apply Exists_exists in Hex as ([s a] & Hin & Heq). simpl in Heq.
    rewrite entries_Permutation in Hin. apply elem_of_map_to_list in Hin.
    exists s, a. split; [exact Hin|lia].
Qed.

End Decoding.

(** * Controls *)

Section Controls.
Context `{C : Collaborators}.

Abbreviation state := (disk_read_base C).

Lemma update_time_base_spec (st : state) :
  ∃ st',
    update_time_base st = Returns tt st'
    ∧ m_base_sys_time st' = clock st
    ∧ m_base_ts st' = recorded_base st
    ∧ ∀ X (p : state → X),
        (∀ v st, p (set_m_base_ts v st) = p st) →
        (∀ v st, p (set_m_base_sys_time v st) = p st) →
        p st' = p st.
Proof.
  unfold update_time_base, modify. eexists. split; [reflexivity|].
  unfold recorded_base, capture_time_at. cbv beta zeta.
  cbn [m_samples_desc_index m_prefetched_samples m_samples_desc set_m_base_sys_time].
  destruct (0 <? m_samples_desc_index st); [destruct (m_prefetched_samples st)|];
    (split; [reflexivity|]); (split; [reflexivity|]);
    intros X p Hts Hsys; by rewrite Hts, Hsys.
Qed.

Lemma update_time_base_leaves {X} (p : state → X) :
  (∀ v st, p (set_m_base_ts v st) = p st) →
  (∀ v st, p (set_m_base_sys_time v st) = p st) →
  keeps p update_time_base.
Proof.
  intros Hts Hsys st. destruct (update_time_base_spec st) as (st' & -> & _ & _ & Hp).
  by apply Hp.
Qed.

(** X7: [set_realtime] stores the flag and moves the time base: from then on the
    delay of a sample is counted from the recorded time stamp the base was
    set to, so that with the cursor past the first descriptor the sample at
    the front of the queue is due at once. *)
Theorem set_realtime_rebases (realtime : bool) (st : state) :
  ∃ st',
    set_realtime realtime st = Returns tt st'
    ∧ m_realtime st' = realtime
    ∧ m_base_sys_time st' = clock st
    ∧ m_base_ts st' = recorded_base st
    ∧ m_pause st' = m_pause st
    ∧ m_thread st' = m_thread st
    ∧ m_prefetched_samples st' = m_prefetched_samples st
    ∧ m_samples_desc_index st' = m_samples_desc_index st
    ∧ (∀ x, calc_sleep_time st' x
            = to_int (to_uint64 (capture_time (info x) - recorded_base st)))
    ∧ (0 < m_samples_desc_index st →
       ∀ front rest, m_prefetched_samples st = front :: rest → calc_sleep_time st' front = 0%Z).
Proof.
  unfold set_realtime, bind, modify.
  destruct (update_time_base_spec (set_m_realtime realtime st)) as (st' & -> & Hsys & Hts & Hp).
  change (m_base_sys_time st' = clock st) in Hsys.
  change (m_base_ts st' = recorded_base st) in Hts.
  exists st'. split; [reflexivity|].
  assert (Hcalc : ∀ x, calc_sleep_time st' x
                       = to_int (to_uint64 (capture_time (info x) - recorded_base st))).
  { intros x. unfold calc_sleep_time, query_run_time.
    rewrite Hts, Hsys, (Hp _ clock) by reflexivity. cbn [clock set_m_realtime].
    rewrite Z.sub_diag. change (to_uint64 0) with 0%Z. by rewrite Z.sub_0_r. }
  split; [by rewrite (Hp _ m_realtime)|]. split; [exact Hsys|]. split; [exact Hts|].
  split; [by rewrite (Hp _ m_pause)|]. split; [by rewrite (Hp _ m_thread)|].
  split; [by rewrite (Hp _ m_prefetched_samples)|].
  split; [by rewrite (Hp _ m_samples_desc_index)|]. split; [exact Hcalc|].
  intros Hpos front rest Hfront. rewrite Hcalc. unfold recorded_base.
  apply Nat.ltb_lt in Hpos. rewrite Hpos, Hfront, Z.sub_diag. reflexivity.
Qed.

Lemma to_int_multiple (x k : Z) : x = (2 ^ 32 * k)%Z → to_int (to_uint64 x) = 0%Z.
Proof.
  intros ->. apply to_int_exact; [|lia].
  rewrite to_uint64_mod32. rewrite Z.mul_comm, Z_mod_mult. reflexivity.
Qed.

(** After the reader has slept for the delay of a sample, the delay of that
    sample is 0, the wrap-around of the arithmetic included. *)
Lemma calc_sleep_time_slept (st : state) (x : sample) :
  calc_sleep_time (set_clock (clock st + calc_sleep_time st x) st) x = 0%Z.
Proof.
  unfold calc_sleep_time, query_run_time in *.
  cbn [clock set_clock m_base_ts m_base_sys_time].
  set (T := (capture_time (info x) - m_base_ts st)%Z) in *.
  set (c := clock st) in *. set (b := m_base_sys_time st) in *.
  set (d := to_int (to_uint64 (T - to_uint64 (c - b)))) in *.
  unfold to_int, to_uint64 in d.
  pose proof (Z.div_mod (c - b) (2 ^ 64) ltac:(lia)) as H1.
  pose proof (Z.div_mod (T - (c - b) mod 2 ^ 64) (2 ^ 64) ltac:(lia)) as H2.
  pose proof (Z.div_mod ((T - (c - b) mod 2 ^ 64) mod 2 ^ 64 + 2 ^ 31) (2 ^ 32) ltac:(lia))
    as H3.
  unfold to_uint64 at 2.
  pose proof (Z.div_mod (c + d - b) (2 ^ 64) ltac:(lia)) as H4.
  apply (to_int_multiple _
           (2 ^ 32 * ((c + d - b) / 2 ^ 64) - 2 ^ 32 * ((c - b) / 2 ^ 64)
            + 2 ^ 32 * ((T - (c - b) mod 2 ^ 64) / 2 ^ 64)
            + ((T - (c - b) mod 2 ^ 64) mod 2 ^ 64 + 2 ^ 31) / 2 ^ 32)).
  subst d. lia.
Qed.

(** X8: The wait for the last samples of the file in realtime: with the
    cursor past the last descriptor of a complete index and the sample at the
    front of the queue not yet due, an iteration of the read loop delivers
    nothing and reads nothing; if the delay of that sample is more than 1000
    microseconds it sleeps for exactly the delay, after which the delay is 0,
    and otherwise it returns at once. *)
Theorem read_next_sample_waits (fuel : nat) (st : state) (front : sample) (rest : list sample) :
  m_pause st = false →
  m_realtime st = true →
  m_is_index_complete st = true →
  length (m_samples_desc st) ≤ m_samples_desc_index st →
  m_prefetched_samples st = front :: rest →
  (0 < calc_sleep_time st front)%Z →
  ∃ st',
    read_next_sample (S fuel) st = Returns true st'
    ∧ st' = (if (1000 <? calc_sleep_time st front)%Z
             then set_clock (clock st + calc_sleep_time st front) st
             else st)
    ∧ (calc_sleep_time st' front <= 1000)%Z
    ∧ ((1000 < calc_sleep_time st front)%Z → calc_sleep_time st' front = 0%Z).
Proof.
  intros Hpause Hrt Hcomplete Hend Hqueue Hdelay.
  assert (Hexhausted : exhausted st = true) by (by apply Nat.leb_le).
  assert (Hnotify : notify_available_samples st = Returns tt st).
  { unfold notify_available_samples, modify. rewrite Hqueue. cbn [notify_queue].
    rewrite Hpause, Hrt. apply Z.ltb_lt in Hdelay. by rewrite Hdelay. }
  assert (Hprefetch : prefetch_sample (S fuel) st = Returns tt st).
  { unfold prefetch_sample, bind, get. by rewrite Hexhausted. }
  assert (Hfull : all_samples_bufferd st = true).
  { unfold all_samples_bufferd. by rewrite Hcomplete, Hexhausted, Hqueue. }
  unfold read_next_sample, bind at 1. rewrite Hnotify. unfold bind at 1, get.
  unfold bind at 1. rewrite while_done by (by rewrite Hexhausted, Hcomplete).
  unfold bind at 1. rewrite Hexhausted, Hqueue. cbn [length Nat.eqb andb].
  unfold bind at 1. rewrite Hprefetch. unfold bind at 1.
  rewrite Hfull, Hrt. cbn [andb]. unfold bind at 1. cbn [while].
  rewrite Hqueue.
  destruct (Z.ltb_spec 1000 (calc_sleep_time st front)) as [Hlong|Hshort].
  - unfold bind at 1. unfold bind at 1, get. rewrite Hcomplete. unfold sleep_for, modify.
    rewrite Hqueue, Z.max_r by lia.
    set (st' := set_clock (clock st + calc_sleep_time st front) st).
    pose proof (calc_sleep_time_slept st front) as Hslept. fold st' in Hslept.
    rewrite while_done.
    + exists st'. split; [reflexivity|]. split; [reflexivity|]. rewrite Hslept.
      split; [lia|done].
    + change (m_prefetched_samples st') with (m_prefetched_samples st). rewrite Hqueue.
      rewrite Hslept. reflexivity.
  - exists st. split; [reflexivity|]. split; [reflexivity|]. split; [exact Hshort|lia].
Qed.

Lemma resume_returns (st : state) :
  joinable (m_thread st) = false →
  ∃ st', resume st = Returns tt st'
         ∧ m_thread st' = running
         ∧ threads_started st' = S (threads_started st)
         ∧ m_pause st' = false
         ∧ m_base_sys_time st' = clock st
         ∧ m_base_ts st' = recorded_base st
         ∧ eof_calls st' = eof_calls st
         ∧ delivered st' = delivered st.
Proof.
  intros Hj. unfold resume, bind at 1, modify. unfold bind at 1.
  destruct (update_time_base_spec (set_m_pause false st)) as (st1 & -> & Hsys & Hts & Hp).
  change (m_base_sys_time st1 = clock st) in Hsys.
  change (m_base_ts st1 = recorded_base st) in Hts.
  unfold bind, get. rewrite (Hp _ m_thread) by reflexivity.
  cbn [m_thread set_m_pause]. rewrite Hj. eexists. split; [reflexivity|]. simpl.
  rewrite Hsys, Hts, (Hp _ threads_started), (Hp _ m_pause), (Hp _ eof_calls),
    (Hp _ delivered) by reflexivity.
  by repeat split.
Qed.


Lemma at_key_subscript {A} (zero : A) (s k : nat) (m : gmap nat A) :
  at_key zero s (subscript zero k m) = at_key zero s m.
Proof.
  unfold at_key, subscript. destruct (m !! k) eqn:Hk; [done|].
  destruct (decide (k = s)) as [->|Hne]; [by rewrite lookup_insert_eq, Hk|].
  by rewrite lookup_insert_ne.
Qed.




(** X11: Disabling a stream undoes what enabling it did to the set of active
    streams; of the rest of the object only [m_image_indices] may have gained
    the empty entry of the subscript. *)
Theorem enable_stream_round_trip (s : nat) (st : state) (si : stream_info) :
  m_streams_infos st !! s = Some si →
  ∃ st1 st2,
    enable_stream s true st = Returns tt st1
    ∧ m_active_streams_info st1
      = <[s := {| asi_image_indices := at_key [] s (m_image_indices st);
                  m_prefetched_samples_count := 0;
                  m_stream_info := si |}]> (m_active_streams_info st)
    ∧ enable_stream s false st1 = Returns tt st2
    ∧ m_active_streams_info st2 = delete s (m_active_streams_info st)
    ∧ (m_active_streams_info st !! s = None →
       m_active_streams_info st2 = m_active_streams_info st)
    ∧ st2 = set_m_active_streams_info (m_active_streams_info st2)
              (set_m_image_indices (subscript [] s (m_image_indices st)) st).
Proof.
  intros Hsi. unfold enable_stream. unfold bind, get, modify. rewrite Hsi.
  eexists _, _. split; [reflexivity|].
  cbn [m_streams_infos set_m_active_streams_info set_m_image_indices m_active_streams_info
       m_image_indices].
  rewrite Hsi. split; [by rewrite at_key_subscript|]. split; [reflexivity|].
  cbn [m_active_streams_info set_m_active_streams_info set_m_image_indices].
  split; [apply delete_insert_eq|]. split; [|reflexivity].
  intros Hnone. rewrite delete_insert_eq. by apply delete_id.
Qed.

End Controls.

(** * The queue *)

Section Queue.
Context `{C : Collaborators}.

Abbreviation state := (disk_read_base C).

Lemma due_count_ext (st1 st2 : state) (l : list sample) :
  (m_base_ts st1, m_base_sys_time st1, clock st1, m_realtime st1)
  = (m_base_ts st2, m_base_sys_time st2, clock st2, m_realtime st2) →
  due_count st1 l = due_count st2 l.
Proof.
  intros H. injection H as Hts Hsys Hclock Hrt.
  induction l as [|x l IH]; [done|]. simpl.
  unfold due, calc_sleep_time, query_run_time. by rewrite Hts, Hsys, Hclock, Hrt, IH.
Qed.

Lemma due_count_spec (st : state) (l : list sample) :
  Forall (λ x, (calc_sleep_time st x <= 0)%Z ∨ m_realtime st = false) (take (due_count st l) l)
  ∧ ∀ x rest, drop (due_count st l) l = x :: rest →
              (0 < calc_sleep_time st x)%Z ∧ m_realtime st = true.
Proof.
  induction l as [|y l [IHdue IHnext]]; simpl; [split; [constructor|done]|].
  unfold due.
  destruct (Z.ltb_spec 0 (calc_sleep_time st y)) as [Hpos|Hle];
    destruct (m_realtime st) eqn:Hrt; simpl.
  - split; [constructor|]. by intros x rest [= <- <-].
  - split; [constructor; [by right|exact IHdue]|exact IHnext].
  - split; [constructor; [by left|exact IHdue]|exact IHnext].
  - split; [constructor; [by right|exact IHdue]|exact IHnext].
Qed.

Lemma ready_count_add_prefetched d k (st : state) s :
  ready_count (add_prefetched d k st) s
  = (ready_count st s + if (s =? k)%nat then d else 0)%Z.
Proof.
  unfold ready_count, add_prefetched, at_key.
  cbn [m_active_streams_info set_m_active_streams_info].
  destruct (Nat.eqb_spec s k) as [->|Hne].
  - rewrite lookup_insert_eq. by destruct (m_active_streams_info st !! k).
  - rewrite lookup_insert_ne by done. destruct (m_active_streams_info st !! s); lia.
Qed.

Lemma notify_queue_spec :
  ∀ (queue : list sample) (st : state),
    m_pause st = false →
    m_prefetched_samples st = queue →
    let k := due_count st queue in
    let st' := notify_queue queue st in
    delivered st' = delivered st ++ take k queue
    ∧ m_prefetched_samples st' = drop k queue
    ∧ (∀ s, ready_count st' s = (ready_count st s - queued s (take k queue))%Z)
    ∧ dom (m_active_streams_info st')
      = dom (m_active_streams_info st) ∪ streams_of (take k queue)
    ∧ outside_queue st' = outside_queue st
    ∧ m_samples_desc_index st' = m_samples_desc_index st
    ∧ m_file_data_read st' = m_file_data_read st
    ∧ decoder_state st' = decoder_state st.
Proof.
  induction queue as [|front rest IH]; intros st Hpause Hqueue; cbv zeta.
  - simpl. rewrite app_nil_r, (right_id_L ∅ (∪)). repeat split; try done.
    intros s. lia.
  - cbn [notify_queue due_count]. rewrite Hpause.
    assert (Hdue : (0 <? calc_sleep_time st front)%Z && m_realtime st = negb (due st front))
      by (unfold due; by rewrite negb_involutive).
    rewrite Hdue. destruct (due st front); cbn [negb].
    2: { simpl. rewrite app_nil_r, (right_id_L ∅ (∪)). repeat split; try done.
         intros s. lia. }
    set (st1 := match front with
                | frame_sample _ f _ => add_prefetched (-1) (stream f) st
                | _ => st
                end).
    set (st2 := set_m_prefetched_samples rest (set_delivered (delivered st1 ++ [front]) st1)).
    assert (Hst1 : delivered st1 = delivered st ∧ m_pause st1 = false
                   ∧ outside_queue st1 = outside_queue st
                   ∧ m_samples_desc_index st1 = m_samples_desc_index st
                   ∧ m_file_data_read st1 = m_file_data_read st
                   ∧ decoder_state st1 = decoder_state st)
      by (subst st1; destruct front; by repeat split).
    destruct Hst1 as (Hd1 & Hp1 & Ho1 & Hi1 & Hf1 & Hdec1).
    assert (Hready : ∀ s, ready_count st1 s
                          = (ready_count st s - if image_of s front then 1 else 0)%Z).
    { intros s. subst st1. destruct front; simpl; try lia.
      rewrite ready_count_add_prefetched. rewrite Nat.eqb_sym.
      destruct (stream f =? s); lia. }
    assert (Hdom : dom (m_active_streams_info st1)
                   = dom (m_active_streams_info st) ∪ streams_of [front]).
    { subst st1. destruct front; simpl; rewrite ?dom_insert_L, (right_id_L ∅ (∪)); try done.
      apply (comm_L (∪)). }
    destruct (IH st2 Hp1 eq_refl) as (Hd & Hq & Hr & Hdm & Ho & Hi & Hf & Hdec).
    cbv zeta in Hd, Hq, Hr, Hdm, Ho, Hi, Hf, Hdec.
    assert (Hk : due_count st2 rest = due_count st rest).
    { apply due_count_ext. subst st2. simpl.
      injection Ho1 as _ Hrt _ _ _ _ _ Hts Hsys _ _ _ Hclock _ _.
      by rewrite Hrt, Hts, Hsys, Hclock. }
    rewrite Hk in Hd, Hq, Hr, Hdm.
    cbn [take drop queued]. fold st1. fold st2.
    split; [rewrite Hd; subst st2; simpl; by rewrite Hd1, <- app_assoc|].
    split; [exact Hq|]. split.
    { intros s. rewrite Hr. subst st2. unfold ready_count in *. simpl.
      specialize (Hready s). lia. }
    split.
    { rewrite Hdm. subst st2. simpl. rewrite Hdom.
      destruct front; simpl; rewrite (right_id_L ∅ (∪)); [by rewrite (assoc_L (∪))|done..]. }
    split; [by rewrite Ho|]. split; [by rewrite Hi|]. split; [by rewrite Hf|].
    by rewrite Hdec.
Qed.

(** X12: [notify_available_samples] hands over the samples at the front of the
    queue that are due, in queue order, and stops at the first that is not
    (with realtime off every sample is due, and with [m_pause] set none is
    handed over); the ready counter of a stream goes down by the number of its
    frames handed over, and a frame of a stream that is not active creates
    the entry of that stream. *)
Theorem notify_available_samples_spec (st : state) :
  let queue := m_prefetched_samples st in
  let k := if m_pause st then 0 else due_count st queue in
  ∃ st',
    notify_available_samples st = Returns tt st'
    ∧ delivered st' = delivered st ++ take k queue
    ∧ m_prefetched_samples st' = drop k queue
    ∧ Forall (λ x, (calc_sleep_time st x <= 0)%Z ∨ m_realtime st = false) (take k queue)
    ∧ (∀ x rest, drop k queue = x :: rest →
                 m_pause st = true ∨ ((0 < calc_sleep_time st x)%Z ∧ m_realtime st = true))
    ∧ (∀ s, ready_count st' s = (ready_count st s - queued s (take k queue))%Z)
    ∧ dom (m_active_streams_info st')
      = dom (m_active_streams_info st) ∪ streams_of (take k queue)
    ∧ outside_queue st' = outside_queue st
    ∧ m_samples_desc_index st' = m_samples_desc_index st
    ∧ m_file_data_read st' = m_file_data_read st
    ∧ decoder_state st' = decoder_state st.
Proof.
  cbv zeta. unfold notify_available_samples, modify. eexists. split; [reflexivity|].
  destruct (m_pause st) eqn:Hpause.
  - assert (Hst : notify_queue (m_prefetched_samples st) st = st)
      by (destruct (m_prefetched_samples st); simpl; by rewrite ?Hpause).
    rewrite Hst. simpl. rewrite app_nil_r, (right_id_L ∅ (∪)).
    split; [done|]. split; [done|]. split; [constructor|]. split; [by left|].
    repeat split; try done. intros s. lia.
  - destruct (notify_queue_spec (m_prefetched_samples st) st Hpause eq_refl) as (Hd & Hq & H).
    split; [exact Hd|]. split; [exact Hq|].
    destruct (due_count_spec st (m_prefetched_samples st)) as [Hdue Hnext].
    split; [exact Hdue|]. split; [|exact H].
    intros x rest Hx. right. by eapply Hnext.
Qed.


Lemma all_samples_bufferd_nonempty (st : state) :
  all_samples_bufferd st = true → 0 < length (m_prefetched_samples st).
Proof.
  unfold all_samples_bufferd.
  destruct (m_is_index_complete st && exhausted st) eqn:Hend; simpl.
  - destruct (0 <? length (m_prefetched_samples st)) eqn:Hq.
    + intros _. by apply Nat.ltb_lt.
    + destruct (every_stream_ready _); [|discriminate].
      intros H%Nat.ltb_lt. lia.
  - destruct (every_stream_ready _); [|discriminate].
    intros H%Nat.ltb_lt. lia.
Qed.

Lemma exhausted_lookup (st : state) x :
  m_samples_desc st !! m_samples_desc_index st = Some x → exhausted st = false.
Proof. intros H%lookup_lt_Some. unfold exhausted. apply Nat.leb_gt. lia. Qed.

(** One prefetch that is not a no-op: the cursor moves past the descriptor
    [x]; the queue and the counters are as before, or the frame read for [x]
    is pushed and the counter of its stream goes up by one, or the motion or
    time-stamp sample [x] is pushed. *)
Lemma prefetch_sample_step fuel (st : state) x :
  m_samples_desc st !! m_samples_desc_index st = Some x →
  all_samples_bufferd st = false →
  match prefetch_sample fuel st with
  | Returns _ st' | Throws _ st' =>
      m_samples_desc_index st' = S (m_samples_desc_index st)
      ∧ outside_queue st' = outside_queue st
      ∧ delivered st' = delivered st
      ∧ prefetch_effect fuel st x st'
  | OutOfFuel => True
  end.
Proof.
  intros Hx Hfull. unfold prefetch_effect, prefetch_sample, bind at 1, get.
  rewrite (exhausted_lookup st x Hx), Hfull, Hx. cbn [orb].
  unfold bind at 1, modify.
  set (st0 := set_m_samples_desc_index (S (m_samples_desc_index st)) st).
  destruct x as [i f d|i|i|i|raw i].
  - destruct (m_active_streams_info st !! stream f) as [a|] eqn:Hactive;
      [|simpl; repeat split; by left].
    unfold bind.
    pose proof (read_image_buffer_leaves outside_queue fuel i f
                  (λ _ _, eq_refl) (λ _ _, eq_refl) (λ _ _, eq_refl) st0) as Ho.
    pose proof (read_image_buffer_leaves delivered fuel i f
                  (λ _ _, eq_refl) (λ _ _, eq_refl) (λ _ _, eq_refl) st0) as Hd.
    pose proof (read_image_buffer_leaves m_samples_desc_index fuel i f
                  (λ _ _, eq_refl) (λ _ _, eq_refl) (λ _ _, eq_refl) st0) as Hi.
    pose proof (read_image_buffer_leaves m_prefetched_samples fuel i f
                  (λ _ _, eq_refl) (λ _ _, eq_refl) (λ _ _, eq_refl) st0) as Hq.
    pose proof (read_image_buffer_leaves m_active_streams_info fuel i f
                  (λ _ _, eq_refl) (λ _ _, eq_refl) (λ _ _, eq_refl) st0) as Ha.
    destruct (read_image_buffer fuel i f st0) as [[y|] st1|what st1|] eqn:Hread; [| | |exact I].
    + unfold modify.
      split; [exact Hi|]. split; [exact Ho|]. split; [exact Hd|].
      right; left. exists i, f, d, y, st0, st1. split; [done|]. split; [eauto|].
      split; [exact Hread|]. simpl. split; [by rewrite Hq|].
      unfold at_key. by rewrite Ha.
    + unfold ret.
      split; [exact Hi|]. split; [exact Ho|]. split; [exact Hd|]. by left.
    + split; [apply Hi|]. split; [apply Ho|]. split; [apply Hd|]. left.
      split; [apply Hq|apply Ha].
  - destruct (m_is_motion_tracking_enabled st) eqn:Hm; simpl.
    + repeat split. right; right. split; [by left|]. by repeat split.
    + repeat split. by left.
  - destruct (m_is_motion_tracking_enabled st) eqn:Hm; simpl.
    + repeat split. right; right. split; [by right|]. by repeat split.
    + repeat split. by left.
  - simpl. repeat split. by left.
  - simpl. repeat split. by left.
Qed.

(** X14: [prefetch_sample] with a descriptor under the cursor: a full buffer makes
    it a no-op, and a buffer with an empty queue is never full; otherwise it
    consumes that one descriptor and appends at most one sample at the back
    of the queue, whether it returns or throws; no ready counter goes down,
    and none goes up by more than one. *)
Theorem prefetch_sample_consumes fuel (st : state) x :
  m_samples_desc st !! m_samples_desc_index st = Some x →
  (m_prefetched_samples st = [] → all_samples_bufferd st = false)
  ∧ (all_samples_bufferd st = true → prefetch_sample fuel st = Returns tt st)
  ∧ (all_samples_bufferd st = false →
     match prefetch_sample fuel st with
     | Returns _ st' | Throws _ st' =>
         m_samples_desc_index st' = S (m_samples_desc_index st)
         ∧ (m_prefetched_samples st' = m_prefetched_samples st
            ∨ ∃ y, m_prefetched_samples st' = m_prefetched_samples st ++ [y])
         ∧ (∀ s, (ready_count st s <= ready_count st' s <= ready_count st s + 1)%Z)
         ∧ outside_queue st' = outside_queue st
         ∧ delivered st' = delivered st
     | OutOfFuel => True
     end).
Proof.
  intros Hx. split; [|split].
  - intros Hempty. destruct (all_samples_bufferd st) eqn:Hfull; [|done].
    apply all_samples_bufferd_nonempty in Hfull. rewrite Hempty in Hfull. simpl in Hfull. lia.
  - intros Hfull. unfold prefetch_sample, bind, get. rewrite Hfull.
    by rewrite orb_true_r.
  - intros Hfull. pose proof (prefetch_sample_step fuel st x Hx Hfull) as Hstep.
    assert (Hgoal : ∀ st' : state,
              m_samples_desc_index st' = S (m_samples_desc_index st)
              ∧ outside_queue st' = outside_queue st
              ∧ delivered st' = delivered st
              ∧ prefetch_effect fuel st x st' →
              m_samples_desc_index st' = S (m_samples_desc_index st)
              ∧ (m_prefetched_samples st' = m_prefetched_samples st
                 ∨ ∃ y, m_prefetched_samples st' = m_prefetched_samples st ++ [y])
              ∧ (∀ s, (ready_count st s <= ready_count st' s <= ready_count st s + 1)%Z)
              ∧ outside_queue st' = outside_queue st
              ∧ delivered st' = delivered st).
    { intros st' (Hi & Ho & Hd & Hcases). split; [exact Hi|].
      destruct Hcases as [[Hq Ha]|[(i & f & d & y & st0 & st1 & _ & _ & _ & Hq & Ha)
                                  |(_ & _ & Hq & Ha)]].
      - split; [by left|]. split; [|done]. intros s. unfold ready_count. rewrite Ha. lia.
      - split; [right; eauto|]. split; [|done]. intros s.
        pose proof (ready_count_add_prefetched 1 (stream f) st s) as Hr.
        unfold ready_count in *. rewrite Ha. destruct (s =? stream f); lia.
      - split; [right; eauto|]. split; [|done]. intros s. unfold ready_count. rewrite Ha. lia. }
    destruct (prefetch_sample fuel st); [by apply Hgoal..|exact I].
Qed.

End Queue.

(** * Invariants of the stream tables and the queue *)

Section Blind.
Context `{C : Collaborators}.

Abbreviation state := (disk_read_base C).

Lemma index_next_samples_blind {X} (p : state → X) n : blind p → keeps p (index_next_samples n).
Proof. intros (H1 & H2 & H3 & H4 & _). by apply index_next_samples_keeps. Qed.

Lemma read_image_buffer_blind {X} (p : state → X) fuel i f :
  blind p → keeps p (read_image_buffer fuel i f).
Proof. intros (_ & _ & _ & _ & H5 & H6 & H7). by apply read_image_buffer_leaves. Qed.

Lemma next_search_blind {X} (p : state → X) fuel index next_index :
  blind p → keeps p (next_search fuel index next_index).
Proof.
  intros Hp. pose proof (λ n, index_next_samples_blind p n Hp) as Hindex.
  revert index next_index. induction fuel as [|fuel IH]; intros index next_index st; simpl.
  - destruct (size next_index <? size (m_active_streams_info st)); done.
  - destruct (size next_index <? size (m_active_streams_info st)); [|done].
    destruct ((length (m_samples_desc st) <=? index + 1) && m_is_index_complete st); [done|].
    match goal with |- match bind ?m ?k st with _ => _ end => apply (keeps_bind p m k) end.
    + repeat leaves_step.
    + intros _. repeat leaves_step; apply IH.
Qed.

Lemma read_nearest_leaves {X} (p : state → X) fuel selected rv :
  (∀ fl st, p (set_m_file_data_read fl st) = p st) →
  (∀ v st, p (set_m_decoder v st) = p st) →
  (∀ v st, p (set_m_encoded_data v st) = p st) →
  keeps p (read_nearest fuel selected rv).
Proof.
  intros Hfile Hdecoder Hdata.
  pose proof (λ i f, read_image_buffer_leaves p fuel i f Hfile Hdecoder Hdata) as Hread.
  revert rv. induction selected as [|index selected IH]; intros rv; simpl.
  - repeat leaves_step.
  - repeat leaves_step; auto.
Qed.

Lemma read_nearest_blind {X} (p : state → X) fuel selected rv :
  blind p → keeps p (read_nearest fuel selected rv).
Proof. intros (_ & _ & _ & _ & H5 & H6 & H7). by apply read_nearest_leaves. Qed.

Lemma scan_time_stamp_blind {X} (p : state → X) fuel ts index :
  blind p → keeps p (scan_time_stamp fuel ts index).
Proof.
  intros Hp. pose proof (λ n, index_next_samples_blind p n Hp) as Hindex.
  revert index. induction fuel as [|fuel IH]; intros index; simpl; repeat leaves_step; apply IH.
Qed.

End Blind.

Ltac blind_fields := repeat split; intros; reflexivity.

Ltac leaves_all :=
  repeat first
    [ apply index_next_samples_blind; blind_fields
    | apply read_image_buffer_blind; blind_fields
    | apply next_search_blind; blind_fields
    | apply read_nearest_blind; blind_fields
    | apply scan_time_stamp_blind; blind_fields
    | apply update_time_base_leaves; intros; reflexivity
    | leaves_step ].

Section Preserving.
Context `{C : Collaborators}.

Abbreviation state := (disk_read_base C).

Lemma preserves_ret {A} (P : state → Prop) (a : A) : preserves P (ret a).
Proof. by intros st. Qed.

Lemma preserves_get (P : state → Prop) : preserves P get.
Proof. by intros st. Qed.

Lemma preserves_throw {A} (P : state → Prop) what : preserves P (@throw C A what).
Proof. by intros st. Qed.

Lemma preserves_out_of_fuel {A} (P : state → Prop) : preserves P (λ _, @OutOfFuel C A).
Proof. by intros st. Qed.

Lemma preserves_modify (P : state → Prop) f : (∀ st, P st → P (f st)) → preserves P (modify f).
Proof. intros Hf st. apply Hf. Qed.

Lemma preserves_bind {A B} (P : state → Prop) (m : M C A) (k : A → M C B) :
  preserves P m → (∀ a, preserves P (k a)) → preserves P (bind m k).
Proof.
  intros Hm Hk st Hst. unfold bind. specialize (Hm st Hst).
  destruct (m st) as [a st'|what st'|]; [|done..]. by apply Hk.
Qed.

Lemma preserves_while (P : state → Prop) fuel cond body :
  preserves P body → preserves P (while fuel cond body).
Proof.
  intros Hbody. induction fuel as [|fuel IH]; intros st Hst; simpl.
  - by destruct (cond st).
  - destruct (cond st); [|done]. by apply (preserves_bind P body (λ _, while fuel cond body)).
Qed.

Lemma preserves_of_keeps {X A} (p : state → X) (P : state → Prop) (m : M C A) :
  (∀ st st', p st' = p st → P st → P st') → keeps p m → preserves P m.
Proof.
  intros HP Hk st Hst. specialize (Hk st).
  destruct (m st) as [a st'|what st'|]; [eauto|destruct Hk; eauto|done].
Qed.

Lemma queued_app s (l1 l2 : list sample) : queued s (l1 ++ l2) = (queued s l1 + queued s l2)%Z.
Proof. induction l1 as [|x l1 IH]; simpl; [done|]. rewrite IH. lia. Qed.

Lemma streams_of_app (l1 l2 : list sample) :
  streams_of (l1 ++ l2) = streams_of l1 ∪ streams_of l2.
Proof.
  induction l1 as [|x l1 IH]; simpl; [by rewrite (left_id_L ∅ (∪))|].
  destruct x; rewrite IH; by rewrite ?(assoc_L (∪)).
Qed.

Lemma image_of_stream s (x : sample) :
  image_of s x = true → ∃ i f d, x = frame_sample i f d ∧ stream f = s.
Proof.
  destruct x as [i f d| | | |]; simpl; try discriminate.
  intros H%Nat.eqb_eq. eauto.
Qed.

Lemma notify_queue_paused (queue : list sample) (st : state) :
  m_pause st = true → notify_queue queue st = st.
Proof. intros Hp. destruct queue; simpl; by rewrite ?Hp. Qed.

(** ** The counters and the queue *)

Lemma counters_in_step_buffers (st st' : state) :
  buffers st' = buffers st → counters_in_step st → counters_in_step st'.
Proof.
  intros H Hst s. injection H as _ Ha Hq. unfold ready_count. rewrite Ha, Hq. apply Hst.
Qed.

Lemma notify_available_samples_in_step : preserves counters_in_step notify_available_samples.
Proof.
  intros st Hst. unfold notify_available_samples, modify.
  destruct (m_pause st) eqn:Hp; [by rewrite notify_queue_paused|].
  destruct (notify_queue_spec _ st Hp eq_refl) as (_ & Hq & Hr & _). cbv zeta in Hq, Hr.
  intros s. rewrite Hr, Hq, Hst.
  rewrite <- (take_drop (due_count st (m_prefetched_samples st)) (m_prefetched_samples st)) at 1.
  rewrite queued_app. lia.
Qed.

Lemma prefetch_effect_in_step fuel (st st' : state) x :
  codec_keeps_stream →
  prefetch_effect fuel st x st' → counters_in_step st → counters_in_step st'.
Proof.
  intros Hcodec [[Hq Ha]|[(i & f & d & y & st0 & st1 & -> & _ & Hread & Hq & Ha)
                         |(Htype & _ & Hq & Ha)]] Hst s.
  - unfold ready_count. rewrite Ha, Hq. apply Hst.
  - pose proof (ready_count_add_prefetched 1 (stream f) st s) as Hr.
    apply (read_image_buffer_image_of _ _ _ _ _ _ Hcodec) in Hread.
    apply image_of_stream in Hread as (i' & f' & d' & -> & Hf).
    assert (Hr' : ready_count st' s = ready_count (add_prefetched 1 (stream f) st) s)
      by (unfold ready_count; by rewrite Ha).
    rewrite Hr', Hr, Hq, queued_app, (Hst s). simpl. rewrite Hf.
    rewrite (Nat.eqb_sym (stream f) s). lia.
  - unfold ready_count. rewrite Ha, Hq, queued_app. specialize (Hst s).
    unfold ready_count in Hst. rewrite Hst.
    destruct x; simpl; try lia; destruct Htype; discriminate.
Qed.

(** A prefetch passes from [st] to [st'] either as a no-op or with the
    effect of one descriptor. *)
Lemma prefetch_sample_cases fuel (st : state) :
  match prefetch_sample fuel st with
  | Returns _ st' | Throws _ st' =>
      st' = st
      ∨ ∃ x, m_samples_desc st !! m_samples_desc_index st = Some x
             ∧ all_samples_bufferd st = false
             ∧ m_samples_desc_index st' = S (m_samples_desc_index st)
             ∧ outside_queue st' = outside_queue st
             ∧ delivered st' = delivered st
             ∧ prefetch_effect fuel st x st'
  | OutOfFuel => True
  end.
Proof.
  destruct (exhausted st || all_samples_bufferd st) eqn:Hnoop.
  - unfold prefetch_sample, bind, get. rewrite Hnoop. by left.
  - destruct (m_samples_desc st !! m_samples_desc_index st) as [x|] eqn:Hx.
    + apply orb_false_elim in Hnoop as [_ Hfull].
      pose proof (prefetch_sample_step fuel st x Hx Hfull) as Hstep.
      destruct (prefetch_sample fuel st); [right; exists x; tauto..|exact I].
    + unfold prefetch_sample, bind, get. rewrite Hnoop, Hx. by left.
Qed.

Lemma prefetch_sample_in_step fuel :
  codec_keeps_stream → preserves counters_in_step (prefetch_sample fuel).
Proof.
  intros Hcodec st Hst. pose proof (prefetch_sample_cases fuel st) as Hcases.
  destruct (prefetch_sample fuel st) as [r st'|what st'|]; [| |exact I];
    (destruct Hcases as [->|(x & _ & _ & _ & _ & _ & Heffect)];
     [exact Hst|by eapply prefetch_effect_in_step]).
Qed.

(** ** Streams without an entry in [m_streams_infos] *)

Lemma declared_only_buffers (st st' : state) :
  buffers st' = buffers st → declared_only st → declared_only st'.
Proof. intros H. injection H as Hs Ha Hq. unfold declared_only. by rewrite Hs, Ha, Hq. Qed.

Lemma streams_of_drop k (l : list sample) : streams_of (drop k l) ⊆ streams_of l.
Proof.
  rewrite <- (take_drop k l) at 2. rewrite streams_of_app. apply union_subseteq_r.
Qed.

Lemma streams_of_take k (l : list sample) : streams_of (take k l) ⊆ streams_of l.
Proof.
  rewrite <- (take_drop k l) at 2. rewrite streams_of_app. apply union_subseteq_l.
Qed.

Lemma notify_available_samples_declared : preserves declared_only notify_available_samples.
Proof.
  intros st Hst. unfold notify_available_samples, modify.
  destruct (m_pause st) eqn:Hp; [by rewrite notify_queue_paused|].
  destruct (notify_queue_spec _ st Hp eq_refl) as (_ & Hq & _ & Hdom & Ho & _).
  cbv zeta in Hq, Hdom, Ho. unfold declared_only in *. rewrite Hdom, Hq.
  assert (Hs : m_streams_infos (notify_queue (m_prefetched_samples st) st) = m_streams_infos st)
    by (by injection Ho).
  rewrite Hs.
  pose proof (streams_of_take (due_count st (m_prefetched_samples st)) (m_prefetched_samples st)).
  pose proof (streams_of_drop (due_count st (m_prefetched_samples st)) (m_prefetched_samples st)).
  apply union_least; [apply union_least|].
  - etrans; [|exact Hst]. apply union_subseteq_l.
  - etrans; [eassumption|]. etrans; [|exact Hst]. apply union_subseteq_r.
  - etrans; [eassumption|]. etrans; [|exact Hst]. apply union_subseteq_r.
Qed.

Lemma prefetch_effect_declared fuel (st st' : state) x :
  codec_keeps_stream →
  m_streams_infos st' = m_streams_infos st →
  prefetch_effect fuel st x st' → declared_only st → declared_only st'.
Proof.
  intros Hcodec Hs [[Hq Ha]|[(i & f & d & y & st0 & st1 & -> & Hactive & Hread & Hq & Ha)
                            |(Htype & _ & Hq & Ha)]] Hst;
    unfold declared_only in *; rewrite Hs, Ha, Hq.
  - exact Hst.
  - apply (read_image_buffer_image_of _ _ _ _ _ _ Hcodec) in Hread.
    apply image_of_stream in Hread as (i' & f' & d' & -> & Hf).
    assert (Hin : stream f ∈ dom (m_streams_infos st)).
    { apply Hst, elem_of_union_l, elem_of_dom, Hactive. }
    simpl. rewrite dom_insert_L, streams_of_app. simpl. rewrite Hf.
    rewrite (right_id_L ∅ (∪)).
    apply union_least; [apply union_least|apply union_least].
    + by apply singleton_subseteq_l.
    + etrans; [|exact Hst]. apply union_subseteq_l.
    + etrans; [|exact Hst]. apply union_subseteq_r.
    + by apply singleton_subseteq_l.
  - rewrite streams_of_app.
    assert (Hx : streams_of [x] = ∅)
      by (destruct x; simpl; try done; destruct Htype; discriminate).
    by rewrite Hx, (right_id_L ∅ (∪)).
Qed.

Lemma prefetch_sample_declared fuel :
  codec_keeps_stream → preserves declared_only (prefetch_sample fuel).
Proof.
  intros Hcodec st Hst. pose proof (prefetch_sample_cases fuel st) as Hcases.
  destruct (prefetch_sample fuel st) as [r st'|what st'|]; [| |exact I];
    (destruct Hcases as [->|(x & _ & _ & _ & Ho & _ & Heffect)];
     [exact Hst|eapply prefetch_effect_declared; [done| |done..]; by injection Ho]).
Qed.

End Preserving.

Ltac preserves_with p Hfactor :=
  lazymatch goal with
  | |- preserves _ (ret _) => apply preserves_ret
  | |- preserves _ get => apply preserves_get
  | |- preserves _ (throw _) => apply preserves_throw
  | |- preserves _ (λ _, OutOfFuel) => apply preserves_out_of_fuel
  | |- preserves _ _ =>
      first
        [ solve [auto 2]
        | apply (preserves_of_keeps p); [exact Hfactor|solve [leaves_all]]
        | apply preserves_while
        | apply preserves_bind; [|intros ?]
        | match goal with
          | |- preserves _ (match ?x with _ => _ end) => destruct x
          end ]
  end.

Ltac preserves_step Hfactor := preserves_with (@buffers _) Hfactor.

(** ** The reader and the controls *)

Section Invariants.
Context `{C : Collaborators}.

Abbreviation state := (disk_read_base C).

Lemma read_next_sample_preserves (P : state → Prop) fuel :
  (∀ st st', buffers st' = buffers st → P st → P st') →
  preserves P notify_available_samples →
  preserves P (prefetch_sample fuel) →
  preserves P (read_next_sample fuel).
Proof.
  intros Hfactor Hnotify Hprefetch. unfold read_next_sample.
  repeat preserves_step Hfactor.
Qed.

Lemma read_thread_loop_preserves (P : state → Prop) :
  (∀ st st', buffers st' = buffers st → P st → P st') →
  (∀ fuel, preserves P (read_next_sample fuel)) →
  ∀ fuel pause_at eof, preserves P (read_thread_loop fuel pause_at eof).
Proof.
  intros Hfactor Hread. induction fuel as [|fuel IH]; intros pause_at eof st Hst; simpl.
  - destruct pause_at as [[|k]|];
      match goal with |- context [if ?c then _ else _] => destruct c end;
      first [exact I|exact Hst|by apply (Hfactor st)].
  - set (st0 := match pause_at with Some 0 => set_m_pause true st | _ => st end).
    assert (Hst0 : P st0) by (subst st0; destruct pause_at as [[|k]|]; [by apply (Hfactor st)|done..]).
    destruct (negb (m_pause st0) && negb eof); [|exact Hst0].
    match goal with
    | |- match bind ?m ?k ?s with _ => _ end => apply (preserves_bind P m k); [| |exact Hst0]
    end.
    + apply Hread.
    + intros more. repeat preserves_step Hfactor.
Qed.

Lemma read_thread_preserves (P : state → Prop) :
  (∀ st st', buffers st' = buffers st → P st → P st') →
  (∀ fuel, preserves P (read_next_sample fuel)) →
  ∀ fuel pause_at, preserves P (read_thread fuel pause_at).
Proof.
  intros Hfactor Hread fuel pause_at. unfold read_thread.
  pose proof (read_thread_loop_preserves P Hfactor Hread) as Hloop.
  repeat preserves_step Hfactor.
Qed.

(** X15: While the reader runs, and under the controls that do not flush the
    queue, the ready counter of every stream stays the number of its frames
    in the queue, given a codec that hands back a frame of the stream it was
    given. *)
Theorem reader_keeps_counters_in_step :
  codec_keeps_stream →
  preserves counters_in_step notify_available_samples
  ∧ (∀ fuel, preserves counters_in_step (prefetch_sample fuel))
  ∧ (∀ fuel, preserves counters_in_step (read_next_sample fuel))
  ∧ (∀ fuel pause_at, preserves counters_in_step (read_thread fuel pause_at))
  ∧ preserves counters_in_step pause
  ∧ preserves counters_in_step resume
  ∧ (∀ realtime, preserves counters_in_step (set_realtime realtime))
  ∧ (∀ enabled, preserves counters_in_step (enable_motions_callback enabled)).
Proof.
  intros Hcodec.
  pose proof notify_available_samples_in_step as Hnotify.
  pose proof (λ fuel, prefetch_sample_in_step fuel Hcodec) as Hprefetch.
  assert (Hread : ∀ fuel, preserves counters_in_step (read_next_sample fuel))
    by (intros fuel; by apply read_next_sample_preserves; [apply counters_in_step_buffers|..]).
  split; [exact Hnotify|]. split; [exact Hprefetch|]. split; [exact Hread|].
  split; [by apply read_thread_preserves; [apply counters_in_step_buffers|]|].
  repeat split; intros;
    (apply (preserves_of_keeps buffers); [apply counters_in_step_buffers|]).
  - unfold pause. leaves_all.
  - unfold resume. leaves_all.
  - unfold set_realtime. leaves_all.
  - unfold enable_motions_callback. leaves_all.
Qed.

Lemma subscript_dom {A} (zero : A) (k : nat) (m : gmap nat A) :
  dom (subscript zero k m) = {[k]} ∪ dom m.
Proof.
  unfold subscript. destruct (m !! k) eqn:Hk; [|by rewrite dom_insert_L].
  apply set_eq. intros s. rewrite elem_of_union, elem_of_singleton, !elem_of_dom.
  split; [by right|]. intros [->|H]; [by rewrite Hk|done].
Qed.

Lemma declared_only_flush (st : state) :
  declared_only st → declared_only (set_m_prefetched_samples [] st).
Proof.
  unfold declared_only. simpl. rewrite (right_id_L ∅ (∪)). intros Hst.
  etrans; [|exact Hst]. apply union_subseteq_l.
Qed.

Lemma declared_only_subscript k (st : state) :
  declared_only st →
  declared_only (set_m_streams_infos (subscript stream_info_zero k (m_streams_infos st)) st).
Proof.
  unfold declared_only. simpl. rewrite subscript_dom. intros Hst.
  etrans; [exact Hst|]. apply union_subseteq_r.
Qed.

Lemma reset_stream_declared k (st : state) : declared_only st → declared_only (reset_stream k st).
Proof.
  unfold declared_only, reset_stream. simpl. rewrite subscript_dom, dom_insert_L. intros Hst.
  apply union_least; [apply union_least|].
  - apply union_subseteq_l.
  - etrans; [|apply union_subseteq_r]. etrans; [|exact Hst]. apply union_subseteq_l.
  - etrans; [|apply union_subseteq_r]. etrans; [|exact Hst]. apply union_subseteq_r.
Qed.

Lemma reset_streams_declared (l : list (nat * active_stream_info)) :
  ∀ st : state, declared_only st → declared_only (foldl (λ st e, reset_stream e.1 st) st l).
Proof.
  induction l as [|e l IH]; intros st Hst; simpl; [exact Hst|].
  by apply IH, reset_stream_declared.
Qed.

Lemma enable_stream_declared s enabled : preserves declared_only (enable_stream s enabled).
Proof.
  intros st Hst. unfold enable_stream, bind, get.
  destruct (m_streams_infos st !! s) as [si|] eqn:Hs; [|exact Hst].
  destruct enabled; unfold modify, declared_only in *; simpl.
  - rewrite dom_insert_L.
    apply union_least; [apply union_least|].
    + apply singleton_subseteq_l, elem_of_dom. eauto.
    + etrans; [|exact Hst]. apply union_subseteq_l.
    + etrans; [|exact Hst]. apply union_subseteq_r.
  - rewrite dom_delete_L.
    apply union_least.
    + etrans; [apply subseteq_difference_l; reflexivity|].
      etrans; [|exact Hst]. apply union_subseteq_l.
    + etrans; [|exact Hst]. apply union_subseteq_r.
Qed.

Lemma find_nearest_frames_declared fuel sample_index anchor :
  codec_keeps_stream → preserves declared_only (find_nearest_frames fuel sample_index anchor).
Proof.
  intros Hcodec. unfold find_nearest_frames, select_nearest_frames.
  pose proof (prefetch_sample_declared fuel Hcodec) as Hprefetch.
  assert (Hflush : preserves declared_only (modify (set_m_prefetched_samples [])))
    by (apply preserves_modify, declared_only_flush).
  repeat preserves_step declared_only_buffers.
Qed.

(** X16: Every member function keeps the active streams, and the streams of the
    queued frames, among those with an entry in [m_streams_infos], given a
    codec that hands back a frame of the stream it was given. *)
Theorem streams_stay_declared :
  codec_keeps_stream →
  (∀ s enabled, preserves declared_only (enable_stream s enabled))
  ∧ (∀ enabled, preserves declared_only (enable_motions_callback enabled))
  ∧ (∀ realtime, preserves declared_only (set_realtime realtime))
  ∧ preserves declared_only pause
  ∧ preserves declared_only resume
  ∧ preserves declared_only reset
  ∧ (∀ s, preserves declared_only (query_number_of_frames s))
  ∧ (∀ fuel index s, preserves declared_only (set_frame_by_index fuel index s))
  ∧ (∀ fuel ts, preserves declared_only (set_frame_by_time_stamp fuel ts))
  ∧ (∀ fuel pause_at, preserves declared_only (read_thread fuel pause_at)).
Proof.
  intros Hcodec.
  pose proof (λ fuel i s, find_nearest_frames_declared fuel i s Hcodec) as Hfind.
  assert (Hpause : preserves declared_only pause)
    by (apply (preserves_of_keeps buffers); [apply declared_only_buffers|unfold pause; leaves_all]).
  assert (Hresume : preserves declared_only resume)
    by (apply (preserves_of_keeps buffers); [apply declared_only_buffers|unfold resume; leaves_all]).
  split; [intros; apply enable_stream_declared|].
  split.
  { intros. apply (preserves_of_keeps buffers); [apply declared_only_buffers|].
    unfold enable_motions_callback. leaves_all. }
  split.
  { intros. apply (preserves_of_keeps buffers); [apply declared_only_buffers|].
    unfold set_realtime. leaves_all. }
  split; [exact Hpause|]. split; [exact Hresume|].
  split.
  { unfold reset.
    assert (Hflush : preserves declared_only (modify (set_m_prefetched_samples [])))
      by (apply preserves_modify, declared_only_flush).
    assert (Hstreams : preserves declared_only
                         (modify (λ st, foldl (λ st e, reset_stream e.1 st) st
                                          (entries (m_active_streams_info st)))))
      by (apply preserves_modify; intros st; apply reset_streams_declared).
    repeat preserves_step declared_only_buffers. }
  split.
  { intros s. unfold query_number_of_frames.
    assert (Hsubscript : preserves declared_only
              (modify (λ st, set_m_streams_infos
                               (subscript stream_info_zero s (m_streams_infos st)) st)))
      by (apply preserves_modify; intros st; apply declared_only_subscript).
    repeat preserves_step declared_only_buffers. }
  split.
  { intros fuel index s. unfold set_frame_by_index.
    repeat preserves_step declared_only_buffers. }
  split.
  { intros fuel ts. unfold set_frame_by_time_stamp, locate_time_stamp, seek_from.
    repeat preserves_step declared_only_buffers. }
  apply read_thread_preserves; [apply declared_only_buffers|].
  intros fuel. apply read_next_sample_preserves; [apply declared_only_buffers|..].
  - apply notify_available_samples_declared.
  - by apply prefetch_sample_declared.
Qed.

End Invariants.

(** * The seeks *)

Section Seeks.
Context `{C : Collaborators}.

Abbreviation state := (disk_read_base C).

Lemma pause_spec (st : state) :
  ∃ st0,
    pause st = Returns tt st0
    ∧ stopped (threads_started st) st0
    ∧ ∀ X (p : state → X),
        (∀ v st, p (set_m_pause v st) = p st) →
        (∀ v st, p (set_m_thread v st) = p st) →
        p st0 = p st.
Proof.
  unfold pause, bind, modify, get. cbn [m_thread set_m_pause].
  destruct (joinable (m_thread st)) eqn:Hj; eexists; (split; [reflexivity|]);
    (split; [by repeat split|]); intros X p Hp Ht; by rewrite ?Ht, Hp.
Qed.





Lemma index_records_grows rs n (st : state) j x :
  m_samples_desc st !! j = Some x → m_samples_desc (index_records rs n st) !! j = Some x.
Proof.
  revert n st. induction rs as [|y rs IH]; intros n st Hst; simpl.
  - destruct (n =? 0)%N; exact Hst.
  - destruct (n =? 0)%N; [exact Hst|]. apply IH. rewrite index_sample_samples.
    by apply lookup_app_l_Some.
Qed.

Lemma index_next_samples_grows n j x :
  preserves (λ st : state, m_samples_desc st !! j = Some x) (index_next_samples n).
Proof.
  apply preserves_modify. intros st Hst.
  destruct (m_is_index_complete st); [done|]. by apply index_records_grows.
Qed.

Lemma next_search_grows fuel index next_index j x :
  preserves (λ st : state, m_samples_desc st !! j = Some x) (next_search fuel index next_index).
Proof.
  pose proof (λ n, index_next_samples_grows n j x) as Hindex.
  revert index next_index. induction fuel as [|fuel IH]; intros index next_index st Hst; simpl.
  - by destruct (size next_index <? size (m_active_streams_info st)).
  - destruct (size next_index <? size (m_active_streams_info st)); [|done].
    destruct ((length (m_samples_desc st) <=? index + 1) && m_is_index_complete st); [done|].
    match goal with
    | |- match bind ?m ?k ?s with _ => _ end =>
        apply (preserves_bind (λ st : state, m_samples_desc st !! j = Some x) m k); [| |exact Hst]
    end.
    + destruct (length (m_samples_desc st) <=? index + 1); [apply Hindex|apply preserves_ret].
    + intros _. apply preserves_bind; [apply preserves_get|]. intros st'.
      destruct (length (m_samples_desc st') <=? index + 1); apply IH.
Qed.

(** The two searches and the reads of a seek leave the playback position,
    the pause flag and the reader as they are, and keep the descriptors
    indexed so far. *)
Lemma find_nearest_reads fuel sample_index anchor (st : state) x :
  m_samples_desc st !! sample_index = Some x →
  match bind (select_nearest_frames sample_index anchor) (λ selected, read_nearest fuel selected ∅) st
  with
  | Returns _ st' | Throws _ st' =>
      playback_position st' = playback_position st
      ∧ reader_state st' = reader_state st
      ∧ m_samples_desc st' !! sample_index = Some x
  | OutOfFuel => True
  end.
Proof.
  intros Hx.
  assert (Hkeeps : ∀ X (p : state → X), blind p →
            keeps p (bind (select_nearest_frames sample_index anchor)
                       (λ selected, read_nearest fuel selected ∅))).
  { intros X p Hp. unfold select_nearest_frames.
    pose proof (λ n i m, next_search_blind p n i m Hp).
    pose proof (λ l rv, read_nearest_blind p fuel l rv Hp).
    repeat leaves_step. }
  pose proof (Hkeeps _ playback_position ltac:(blind_fields) st) as Hposition.
  pose proof (Hkeeps _ reader_state ltac:(blind_fields) st) as Hreader.
  assert (Hgrows : preserves (λ st : state, m_samples_desc st !! sample_index = Some x)
                     (bind (select_nearest_frames sample_index anchor)
                        (λ selected, read_nearest fuel selected ∅))).
  { unfold select_nearest_frames.
    pose proof (λ n i m, next_search_grows n i m sample_index x).
    assert (Hread : ∀ l rv, preserves (λ st : state, m_samples_desc st !! sample_index = Some x)
                              (read_nearest fuel l rv)).
    { intros l rv. apply (preserves_of_keeps m_samples_desc).
      - intros st1 st2 Heq. by rewrite Heq.
      - apply read_nearest_leaves; intros; reflexivity. }
    repeat (preserves_with (@m_samples_desc _) (λ (st1 st2 : state)
              (Heq : m_samples_desc st2 = m_samples_desc st1)
              (H : m_samples_desc st1 !! sample_index = Some x),
              eq_ind_r (λ l, l !! sample_index = Some x) H Heq)). }
  specialize (Hgrows st Hx).
  destruct (bind _ _ st) as [rv st'|what st'|]; [|destruct Hposition, Hreader|]; done.
Qed.

Lemma bind_assoc {A B D} (m : M C A) (k : A → M C B) (h : B → M C D) (st : state) :
  bind (bind m k) h st = bind m (λ a, bind (k a) h) st.
Proof. unfold bind. by destruct (m st). Qed.

(** X17: A seek empties the queue and primes it with at most one sample: on
    return the cursor is just past the anchor and the queue holds at most the
    sample prefetched from there; the ready counters are not reset with the
    queue (none goes down, one may go up by one); nothing is delivered and
    the pause flag and the reader are as before. *)
Theorem find_nearest_frames_flushes fuel sample_index anchor (st : state) x :
  m_samples_desc st !! sample_index = Some x →
  match find_nearest_frames fuel sample_index anchor st with
  | Returns _ st' =>
      m_samples_desc_index st' = S sample_index
      ∧ length (m_prefetched_samples st') ≤ 1
      ∧ (∀ s, (ready_count st s <= ready_count st' s <= ready_count st s + 1)%Z)
      ∧ delivered st' = delivered st
      ∧ eof_calls st' = eof_calls st
      ∧ reader_state st' = reader_state st
  | Throws _ st' =>
      delivered st' = delivered st
      ∧ eof_calls st' = eof_calls st
      ∧ reader_state st' = reader_state st
      ∧ (playback_position st' = playback_position st
         ∨ (m_samples_desc_index st' = S sample_index
            ∧ length (m_prefetched_samples st') ≤ 1))
  | OutOfFuel => True
  end.
Proof.
  intros Hx.
  assert (Hassoc : find_nearest_frames fuel sample_index anchor st
                   = bind (bind (select_nearest_frames sample_index anchor)
                             (λ selected, read_nearest fuel selected ∅))
                       (λ rv, bind (modify (set_m_samples_desc_index sample_index))
                                (λ _, bind (modify (set_m_prefetched_samples []))
                                        (λ _, bind (prefetch_sample fuel) (λ _, ret rv)))) st)
    by (rewrite bind_assoc; reflexivity).
  rewrite Hassoc. clear Hassoc. unfold bind at 1.
  pose proof (find_nearest_reads fuel sample_index anchor st x Hx) as Hreads.
  destruct (bind (select_nearest_frames sample_index anchor) _ st) as [rv st2|what st2|];
    [| |exact I].
  2: { destruct Hreads as (Hposition & Hreader & _).
       injection Hposition as Hi Hq Ha Hd He.
       split; [done|]. split; [done|]. split; [done|]. left.
       unfold playback_position. by rewrite Hi, Hq, Ha, Hd, He. }
  destruct Hreads as (Hposition & Hreader & Hx2).
  injection Hposition as Hi Hq Ha Hd He. injection Hreader as Hp Ht Hn.
  unfold bind at 1, modify. unfold bind at 1.
  set (st3 := set_m_prefetched_samples [] (set_m_samples_desc_index sample_index st2)).
  assert (Hfull : all_samples_bufferd st3 = false).
  { destruct (all_samples_bufferd st3) eqn:Hfull; [|done].
    apply all_samples_bufferd_nonempty in Hfull. simpl in Hfull. lia. }
  pose proof (prefetch_sample_step fuel st3 x Hx2 Hfull) as Hstep.
  assert (Hcounts : ∀ st' : state,
            prefetch_effect fuel st3 x st' →
            length (m_prefetched_samples st') ≤ 1
            ∧ ∀ s, (ready_count st s <= ready_count st' s <= ready_count st s + 1)%Z).
  { assert (Hst3 : ∀ s, ready_count st3 s = ready_count st s)
      by (intros s; unfold ready_count; simpl; by rewrite Ha).
    intros st' [[Hq' Ha']|[(i & f & d & y & st0 & st1 & _ & _ & _ & Hq' & Ha')
                          |(_ & _ & Hq' & Ha')]].
    - rewrite Hq'. split; [simpl; lia|]. intros s. rewrite <- Hst3.
      unfold ready_count. rewrite Ha'. lia.
    - rewrite Hq'. split; [simpl; lia|]. intros s. rewrite <- Hst3.
      pose proof (ready_count_add_prefetched 1 (stream f) st3 s) as Hr.
      assert (Hr' : ready_count st' s = ready_count (add_prefetched 1 (stream f) st3) s)
        by (unfold ready_count; by rewrite Ha').
      rewrite Hr', Hr. destruct (s =? stream f); lia.
    - rewrite Hq'. split; [simpl; lia|]. intros s. rewrite <- Hst3.
      unfold ready_count. rewrite Ha'. lia. }
  unfold bind.
  destruct (prefetch_sample fuel st3) as [[] st'|what st'|]; [| |exact I].
  - destruct Hstep as (Hi' & Ho & Hd' & Heffect). unfold ret.
    injection Ho as Hp' _ _ _ _ _ _ _ _ Ht' _ _ _ He' Hn'.
    destruct (Hcounts st' Heffect) as [Hlen Hready].
    split; [exact Hi'|]. split; [exact Hlen|]. split; [exact Hready|].
    split; [by rewrite Hd'|]. split; [by rewrite He'|].
    unfold reader_state. by rewrite Hp', Ht', Hn', Hp, Ht, Hn.
  - destruct Hstep as (Hi' & Ho & Hd' & Heffect).
    injection Ho as Hp' _ _ _ _ _ _ _ _ Ht' _ _ _ He' Hn'.
    destruct (Hcounts st' Heffect) as [Hlen Hready].
    split; [by rewrite Hd'|]. split; [by rewrite He'|].
    split; [unfold reader_state; by rewrite Hp', Ht', Hn', Hp, Ht, Hn|].
    right. split; [exact Hi'|exact Hlen].
Qed.


Lemma ensures_bind {A B} (P P' : state → Prop) (m : M C A) (k : A → M C B) Q R :
  ensures P m (λ _, P') R → (∀ a, ensures P' (k a) Q R) → ensures P (bind m k) Q R.
Proof.
  intros Hm Hk st Hst. unfold bind. specialize (Hm st Hst).
  destruct (m st) as [a st'|what st'|]; [|done..]. by apply Hk.
Qed.

Lemma ensures_of_keeps {X A} (p : state → X) (P : state → Prop) (m : M C A) :
  (∀ st st', p st' = p st → P st → P st') → keeps p m → ensures P m (λ _, P) P.
Proof.
  intros HP Hk st Hst. specialize (Hk st).
  destruct (m st) as [a st'|what st'|]; [eauto|destruct Hk; eauto|done].
Qed.

Lemma stopped_reader_state n (st st' : state) :
  reader_state st' = reader_state st → stopped n st → stopped n st'.
Proof. intros H. injection H as H1 H2 H3. unfold stopped. by rewrite H1, H2, H3. Qed.

Lemma prefetch_sample_reader fuel : keeps (@reader_state C) (prefetch_sample fuel).
Proof. unfold prefetch_sample. leaves_all. Qed.

Lemma find_nearest_frames_reader fuel sample_index anchor :
  keeps (@reader_state C) (find_nearest_frames fuel sample_index anchor).
Proof.
  unfold find_nearest_frames, select_nearest_frames.
  pose proof (prefetch_sample_reader fuel). leaves_all.
Qed.

(** What follows the anchor in both seeks: the seek proper, then [resume]
    if the engine was playing. *)
Lemma seek_tail n fuel sample_index anchor (previous_state : bool) :
  ensures (stopped n)
    (bind (find_nearest_frames fuel sample_index anchor)
       (λ rv, bind (if previous_state then ret tt else resume) (λ _, ret rv)))
    (λ _ st', stopped n st'
              ∨ (previous_state = false ∧ m_pause st' = false ∧ m_thread st' = running
                 ∧ threads_started st' = S n))
    (stopped n).
Proof.
  eapply ensures_bind.
  - apply (ensures_of_keeps reader_state); [apply stopped_reader_state|].
    apply find_nearest_frames_reader.
  - intros rv st (Hp & Hj & Hn). destruct previous_state; unfold bind, ret.
    + left. by repeat split.
    + destruct (resume_returns st Hj) as (st' & -> & Ht & Hs & Hp' & _).
      right. rewrite Hn in Hs. by repeat split.
Qed.

(** X19: A seek leaves the engine stopped, with no reader, or playing again with
    one new reader if it was playing before; it is left stopped whenever the
    seek throws. *)
Theorem seek_stops_or_restores :
  (∀ fuel index stream_type (st : state),
     seek_outcome st (set_frame_by_index fuel index stream_type st))
  ∧ (∀ fuel ts (st : state), seek_outcome st (set_frame_by_time_stamp fuel ts st)).
Proof.
  assert (Hpause : ∀ n, ensures (λ st : state, threads_started st = n) pause
                          (λ _, stopped n) (stopped n)).
  { intros n st Hn. destruct (pause_spec st) as (st0 & -> & Hstopped & _). by rewrite <- Hn. }
  assert (Houtcome : ∀ A (m : M C A) (st : state),
            ensures (λ x : state, threads_started x = threads_started st) m
              (λ _ st', stopped (threads_started st) st'
                        ∨ (m_pause st = false ∧ m_pause st' = false ∧ m_thread st' = running
                           ∧ threads_started st' = S (threads_started st)))
              (stopped (threads_started st)) →
            seek_outcome st (m st)).
  { intros A m st Hm. specialize (Hm st eq_refl). unfold seek_outcome.
    by destruct (m st). }
  split.
  - intros fuel index stream_type st. unfold set_frame_by_index, bind at 1, get.
    apply Houtcome. eapply ensures_bind; [apply Hpause|]. intros _.
    eapply ensures_bind.
    { apply (ensures_of_keeps reader_state); [apply stopped_reader_state|]. leaves_all. }
    intros _. eapply ensures_bind.
    { apply (ensures_of_keeps reader_state); [apply stopped_reader_state|]. leaves_all. }
    intros st0. eapply ensures_bind.
    { apply (ensures_of_keeps reader_state); [apply stopped_reader_state|]. leaves_all. }
    intros _. eapply ensures_bind.
    { apply (ensures_of_keeps reader_state); [apply stopped_reader_state|]. leaves_all. }
    intros st1. destruct (at_key [] stream_type (m_image_indices st1) !! index).
    + apply seek_tail.
    + intros st2 Hst2. by left.
  - intros fuel ts st. unfold set_frame_by_time_stamp, bind at 1, get.
    apply Houtcome. eapply ensures_bind.
    { unfold locate_time_stamp. eapply ensures_bind; [apply Hpause|]. intros _.
      apply (ensures_of_keeps reader_state); [apply stopped_reader_state|]. leaves_all. }
    intros found. unfold seek_from. destruct found as [|index anchor].
    + intros st2 Hst2. by left.
    + destruct (anchor =? RS_STREAM_COUNT).
      * intros st2 Hst2. by left.
      * apply seek_tail.
Qed.

Lemma read_nearest_keyed fuel :
  codec_keeps_stream →
  ∀ (selected : list nat) (rv : gmap nat sample) (st : state) rv' st',
    (∀ s x, rv !! s = Some x → image_of s x = true) →
    read_nearest fuel selected rv st = Returns rv' st' →
    (∀ s x, rv' !! s = Some x → image_of s x = true)
    ∧ size rv' ≤ size rv + length selected.
Proof.
  intros Hcodec. induction selected as [|index selected IH]; intros rv st rv' st' Hrv; simpl.
  - intros [= <- _]. split; [exact Hrv|lia].
  - unfold bind at 1, get.
    assert (Hskip : read_nearest fuel selected rv st = Returns rv' st' →
                    (∀ s x, rv' !! s = Some x → image_of s x = true)
                    ∧ size rv' ≤ size rv + S (length selected)).
    { intros H. destruct (IH rv st rv' st' Hrv H). split; [done|lia]. }
    destruct (m_samples_desc st !! index) as [[i f d| | | |]|]; try exact Hskip.
    unfold bind.
    destruct (read_image_buffer fuel i f st) as [[curr|] st1|what st1|] eqn:Hread;
      [| |discriminate..].
    + intros H. apply (read_image_buffer_image_of _ _ _ _ _ _ Hcodec) in Hread.
      destruct (IH (<[stream f := curr]> rv) st1 rv' st') as [Hkeys Hsize]; [|exact H|].
      * intros s x. destruct (decide (stream f = s)) as [<-|Hne].
        -- rewrite lookup_insert_eq. by intros [= <-].
        -- rewrite lookup_insert_ne by done. apply Hrv.
      * split; [exact Hkeys|]. rewrite map_size_insert in Hsize.
        destruct (rv !! stream f); simpl in Hsize; lia.
    + intros H. destruct (IH rv st1 rv' st' Hrv H). split; [done|lia].
Qed.

(** X22: The frames a seek returns: each is filed under its own stream, and
    there are at most as many as there are active streams, given a codec that
    hands back a frame of the stream it was given. *)
Theorem find_nearest_frames_keyed fuel sample_index anchor (st st' : state) rv :
  codec_keeps_stream →
  find_nearest_frames fuel sample_index anchor st = Returns rv st' →
  (∀ s x, rv !! s = Some x → image_of s x = true)
  ∧ size rv ≤ size (m_active_streams_info st).
Proof.
  intros Hcodec. unfold find_nearest_frames, bind at 1, select_nearest_frames.
  unfold bind at 1, get. unfold bind at 1.
  pose proof (next_search_blind m_active_streams_info
                (scan_fuel st) sample_index ∅ ltac:(blind_fields) st) as Hactive.
  destruct (next_search (scan_fuel st) sample_index ∅ st) as [next st1|what st1|];
    [|discriminate..].
  unfold bind at 1, get, ret. unfold bind at 1.
  destruct (read_nearest fuel _ ∅ st1) as [rv1 st2|what st2|] eqn:Hread; [|discriminate..].
  apply (read_nearest_keyed fuel Hcodec) in Hread as [Hkeys Hsize];
    [|intros s x; by rewrite lookup_empty].
  unfold bind, modify.
  destruct (prefetch_sample fuel _) as [[] st3|what st3|]; [|discriminate..].
  intros [= <- _]. split; [exact Hkeys|].
  rewrite map_size_empty in Hsize. unfold nearest_frames in Hsize.
  rewrite !length_fmap, entries_Permutation, length_map_to_list, Hactive in Hsize. lia.
Qed.

End Seeks.

(** * Playback without image streams *)

Section Motions.
Context `{C : Collaborators}.

Abbreviation state := (disk_read_base C).

Lemma due_count_not_realtime (st : state) (l : list sample) :
  m_realtime st = false → due_count st l = length l.
Proof.
  intros Hrt. induction l as [|x l IH]; simpl; [done|].
  unfold due. by rewrite Hrt, andb_false_r, IH.
Qed.

(** The first part of [read_next_sample]: everything queued is delivered,
    then the indexer runs until there is a descriptor under the cursor or the
    file is complete. *)
Lemma read_next_sample_delivers (st : state) :
  plays_without_streams st →
  ∃ st1 st2,
    notify_available_samples st = Returns tt st1
    ∧ while (index_fuel st1) (λ st, exhausted st && negb (m_is_index_complete st))
        (index_next_samples NUMBER_OF_SAMPLES_TO_INDEX) st1 = Returns tt st2
    ∧ plays_without_streams st2
    ∧ m_prefetched_samples st2 = []
    ∧ delivered st2 = delivered st ++ m_prefetched_samples st
    ∧ file_samples st2 = file_samples st
    ∧ m_samples_desc_index st2 = m_samples_desc_index st
    ∧ eof_calls st2 = eof_calls st
    ∧ m_is_motion_tracking_enabled st2 = m_is_motion_tracking_enabled st
    ∧ (exhausted st2 = true → m_is_index_complete st2 = true).
Proof.
  intros (Hactive & Hrt & Hpause & Hcallback & Hframes).
  destruct (notify_queue_spec (m_prefetched_samples st) st Hpause eq_refl)
    as (Hd & Hq & _ & Hdom & Ho & Hi & _).
  cbv zeta in Hd, Hq, Hdom, Ho, Hi.
  rewrite (due_count_not_realtime st _ Hrt) in Hd, Hq, Hdom.
  rewrite firstn_all in Hd, Hdom. rewrite drop_all in Hq.
  set (st1 := notify_queue (m_prefetched_samples st) st) in *.
  injection Ho as Hp1 Hrt1 _ _ Hdesc1 Hcomplete1 Hmotion1 _ _ _ Hcb1 Hfile1 _ Heof1 _.
  assert (Hactive1 : m_active_streams_info st1 = ∅).
  { apply dom_empty_inv_L. rewrite Hdom, Hactive, Hframes, dom_empty_L.
    by rewrite (left_id_L ∅ (∪)). }
  set (observed := λ x : state,
         (m_active_streams_info x, m_realtime x, m_pause x, m_eof_callback x,
          m_prefetched_samples x, delivered x, m_samples_desc_index x, eof_calls x,
          m_is_motion_tracking_enabled x)).
  destruct (while_index
              (λ x, file_samples x = file_samples st ∧ observed x = observed st1)
              (λ st, exhausted st && negb (m_is_index_complete st))
              NUMBER_OF_SAMPLES_TO_INDEX NUMBER_OF_SAMPLES_TO_INDEX_pos)
    with (fuel := index_fuel st1) (st := st1)
    as (st2 & Hwhile & Hcond & Hfile2 & Hobserved).
  { intros x. destruct (m_is_index_complete x); [|done]. by rewrite andb_false_r. }
  { intros x (Hf & Hobs) Hcx.
    destruct (index_records_step _ x NUMBER_OF_SAMPLES_TO_INDEX_pos Hcx) as (Hf' & _).
    cbv zeta in Hf'. split; [by rewrite Hf'|].
    rewrite <- Hobs. apply (index_records_keeps observed); intros; reflexivity. }
  { split; [|done]. unfold file_samples. by rewrite Hdesc1, Hcomplete1, Hfile1. }
  { unfold index_fuel. lia. }
  injection Hobserved as Ha2 Hrt2 Hp2 Hcb2 Hq2 Hd2 Hi2 Heof2 Hmotion2.
  exists st1, st2. split; [reflexivity|]. split; [exact Hwhile|].
  split.
  { unfold plays_without_streams.
    by rewrite Ha2, Hrt2, Hp2, Hcb2, Hq2, Hactive1, Hrt1, Hp1, Hcb1, Hq. }
  split; [by rewrite Hq2|]. split; [by rewrite Hd2|]. split; [exact Hfile2|].
  split; [by rewrite Hi2|]. split; [by rewrite Heof2, Heof1|].
  split; [by rewrite Hmotion2, Hmotion1|].
  intros Hexhausted. rewrite Hexhausted in Hcond. simpl in Hcond.
  by apply negb_false_iff in Hcond.
Qed.

Lemma prefetch_sample_without_streams fuel (st : state) x :
  m_samples_desc st !! m_samples_desc_index st = Some x →
  m_prefetched_samples st = [] →
  m_active_streams_info st = ∅ →
  is_undefined x = false →
  prefetch_sample fuel st
  = Returns tt
      (let st' := set_m_samples_desc_index (S (m_samples_desc_index st)) st in
       if tracked st x then push_prefetched x st' else st').
Proof.
  intros Hx Hq Hactive Hdefined. unfold prefetch_sample, bind at 1, get.
  assert (Hfull : all_samples_bufferd st = false).
  { destruct (all_samples_bufferd st) eqn:Hfull; [|done].
    apply all_samples_bufferd_nonempty in Hfull. rewrite Hq in Hfull. simpl in Hfull. lia. }
  rewrite (exhausted_lookup st x Hx), Hfull, Hx. cbn [orb].
  unfold bind at 1, modify.
  destruct x as [i f d|i|i|i|raw i]; try discriminate; cbn [tracked].
  - by rewrite Hactive, lookup_empty.
  - by destruct (m_is_motion_tracking_enabled st).
  - by destruct (m_is_motion_tracking_enabled st).
  - done.
Qed.

(** One iteration of the read loop with a record left in the file. *)
Lemma read_next_sample_next fuel (st : state) x :
  plays_without_streams st →
  file_samples st !! m_samples_desc_index st = Some x →
  is_undefined x = false →
  ∃ st',
    read_next_sample fuel st = Returns true st'
    ∧ plays_without_streams st'
    ∧ m_prefetched_samples st' = List.filter (tracked st) [x]
    ∧ delivered st' = delivered st ++ m_prefetched_samples st
    ∧ file_samples st' = file_samples st
    ∧ m_samples_desc_index st' = S (m_samples_desc_index st)
    ∧ eof_calls st' = eof_calls st
    ∧ m_is_motion_tracking_enabled st' = m_is_motion_tracking_enabled st.
Proof.
  intros Hplays Hx Hdefined.
  destruct (read_next_sample_delivers st Hplays)
    as (st1 & st2 & Hnotify & Hwhile & Hplays2 & Hq2 & Hd2 & Hfile2 & Hi2 & Heof2 & Hmotion2
        & Hcomplete2).
  assert (Hx2 : m_samples_desc st2 !! m_samples_desc_index st2 = Some x).
  { rewrite Hi2. rewrite <- Hfile2 in Hx. unfold file_samples in Hx.
    destruct (exhausted st2) eqn:Hexhausted.
    - rewrite (Hcomplete2 eq_refl), app_nil_r in Hx. exact Hx.
    - apply Nat.leb_gt in Hexhausted. rewrite Hi2 in Hexhausted.
      by rewrite lookup_app_l in Hx. }
  unfold read_next_sample, bind at 1. rewrite Hnotify. unfold bind at 1, get.
  unfold bind at 1. rewrite Hwhile. unfold bind at 1.
  rewrite (exhausted_lookup st2 x Hx2). cbn [andb].
  destruct Hplays2 as (Ha2 & Hrt2 & Hp2 & Hcb2 & Hframes2).
  unfold bind at 1. rewrite (prefetch_sample_without_streams fuel st2 x Hx2 Hq2 Ha2 Hdefined).
  cbv zeta. unfold bind at 1.
  set (st2' := set_m_samples_desc_index (S (m_samples_desc_index st2)) st2).
  assert (Htracked : tracked st2 x = tracked st x)
    by (destruct x; simpl; by rewrite ?Hmotion2).
  rewrite Htracked.
  assert (Hrt' : ∀ st3 : state, m_realtime st3 = false →
            bind (if all_samples_bufferd st3 && m_realtime st3
                  then while fuel
                         (λ st, match m_prefetched_samples st with
                                | front :: _ => (1000 <? calc_sleep_time st front)%Z
                                | [] => false
                                end)
                         (bind get
                            (λ st, if m_is_index_complete st
                                   then sleep_for (match m_prefetched_samples st with
                                                   | front :: _ => calc_sleep_time st front
                                                   | [] => 0%Z
                                                   end)
                                   else index_next_samples NUMBER_OF_SAMPLES_TO_INDEX))
                  else ret tt) (λ _, ret true) st3
            = Returns true st3).
  { intros st3 H3. by rewrite H3, andb_false_r. }
  destruct (tracked st x) eqn:Hkeep.
  - rewrite Hrt' by exact Hrt2. eexists. split; [reflexivity|].
    split.
    { unfold plays_without_streams. simpl. rewrite Ha2, Hrt2, Hp2, Hcb2, Hq2. simpl.
      repeat split; try done.
      destruct x; simpl in *; try discriminate; done. }
    split; [simpl; by rewrite Hq2, Hkeep|]. split; [exact Hd2|]. split; [exact Hfile2|].
    split; [simpl; by rewrite Hi2|]. split; [exact Heof2|exact Hmotion2].
  - rewrite Hrt' by exact Hrt2. eexists. split; [reflexivity|].
    split.
    { unfold plays_without_streams. simpl. by rewrite Ha2, Hrt2, Hp2, Hcb2, Hq2. }
    split; [simpl; by rewrite Hq2, Hkeep|]. split; [exact Hd2|]. split; [exact Hfile2|].
    split; [simpl; by rewrite Hi2|]. split; [exact Heof2|exact Hmotion2].
Qed.

(** The iteration at the end of the file. *)
Lemma read_next_sample_last fuel (st : state) :
  plays_without_streams st →
  length (file_samples st) ≤ m_samples_desc_index st →
  ∃ st',
    read_next_sample fuel st = Returns false st'
    ∧ m_eof_callback st' = true
    ∧ delivered st' = delivered st ++ m_prefetched_samples st
    ∧ eof_calls st' = eof_calls st
    ∧ at_end st'.
Proof.
  intros Hplays Hend.
  destruct (read_next_sample_delivers st Hplays)
    as (st1 & st2 & Hnotify & Hwhile & Hplays2 & Hq2 & Hd2 & Hfile2 & Hi2 & Heof2 & Hmotion2
        & Hcomplete2).
  assert (Hexhausted : exhausted st2 = true).
  { apply Nat.leb_le. rewrite Hi2. etrans; [|exact Hend]. rewrite <- Hfile2.
    unfold file_samples. rewrite length_app. lia. }
  unfold read_next_sample, bind at 1. rewrite Hnotify. unfold bind at 1, get.
  unfold bind at 1. rewrite Hwhile. unfold bind at 1.
  rewrite Hexhausted, Hq2. simpl. exists st2.
  destruct Hplays2 as (_ & _ & _ & Hcb2 & _).
  split; [done|]. split; [done|]. split; [done|]. split; [done|].
  split; [by apply Hcomplete2|]. split; [by apply Nat.leb_le|exact Hq2].
Qed.

Lemma read_thread_loop_without_streams :
  ∀ (k : nat) (st : state),
    plays_without_streams st →
    length (file_samples st) - m_samples_desc_index st ≤ k →
    Forall (λ x, is_undefined x = false) (drop (m_samples_desc_index st) (file_samples st)) →
    ∀ fuel, k < fuel →
      ∃ st',
        read_thread_loop fuel None false st = Returns tt st'
        ∧ delivered st'
          = delivered st ++ m_prefetched_samples st
            ++ List.filter (tracked st) (drop (m_samples_desc_index st) (file_samples st))
        ∧ eof_calls st' = S (eof_calls st)
        ∧ m_pause st' = true
        ∧ at_end st'.
Proof.
  induction k as [|k IH]; intros st Hplays Hk Hdefined fuel Hfuel.
  - destruct fuel as [|fuel]; [lia|].
    destruct (read_next_sample_last fuel st Hplays ltac:(lia))
      as (st1 & Hread & Hcb & Hd & Heof & Hend).
    assert (Hp : m_pause st = false) by apply Hplays.
    rewrite (read_thread_loop_end_of_file fuel None st st1 Hp ltac:(done) Hread), Hcb.
    eexists. split; [reflexivity|]. simpl.
    rewrite drop_ge by lia. simpl. rewrite app_nil_r.
    split; [done|]. split; [by rewrite Heof|]. split; [done|]. exact Hend.
  - destruct (file_samples st !! m_samples_desc_index st) as [x|] eqn:Hx.
    2: { apply lookup_ge_None in Hx. apply (IH st Hplays); [lia|done|lia]. }
    destruct fuel as [|fuel]; [lia|].
    rewrite (drop_S _ _ _ Hx) in Hdefined |- *.
    apply Forall_cons in Hdefined as [Hdefx Hdefined].
    destruct (read_next_sample_next fuel st x Hplays Hx Hdefx)
      as (st1 & Hread & Hplays1 & Hq1 & Hd1 & Hfile1 & Hi1 & Heof1 & Hmotion1).
    assert (Hlt : m_samples_desc_index st < length (file_samples st))
      by (by apply lookup_lt_Some in Hx).
    destruct (IH st1 Hplays1) with (fuel := fuel) as (st' & Hloop & Hd & Heof & Hp & Hend).
    { rewrite Hfile1, Hi1. lia. }
    { by rewrite Hfile1, Hi1. }
    { lia. }
    exists st'. split.
    { cbn [read_thread_loop]. destruct Hplays as (_ & _ & Hpause & _). rewrite Hpause.
      cbn [negb andb]. unfold bind at 1. rewrite Hread. cbn [negb]. unfold bind at 1, ret.
      exact Hloop. }
    split.
    { rewrite Hd, Hd1, Hq1, Hfile1, Hi1, <- !app_assoc. f_equal. f_equal.
      assert (Htracked : ∀ l, List.filter (tracked st1) l = List.filter (tracked st) l).
      { intros l. apply List.filter_ext. intros y. destruct y; simpl; by rewrite ?Hmotion1. }
      rewrite Htracked. simpl. by destruct (tracked st x). }
    split; [by rewrite Heof, Heof1|]. split; [exact Hp|exact Hend].
Qed.

(** X20: A play-through without image streams: with no stream active, realtime
    off and an end-of-file callback, the reader thread delivers what is in
    the queue, then every motion and time-stamp sample from the cursor to the
    end of the file, in file order, if motion tracking is enabled (and no
    sample of the file otherwise), calls the end-of-file callback once and
    leaves the engine paused at the end of the file. *)
Theorem read_thread_without_streams (st : state) (fuel : nat) :
  plays_without_streams st →
  Forall (λ x, is_undefined x = false) (drop (m_samples_desc_index st) (file_samples st)) →
  length (file_samples st) - m_samples_desc_index st < fuel →
  ∃ st',
    read_thread fuel None st = Returns tt st'
    ∧ delivered st'
      = delivered st ++ m_prefetched_samples st
        ++ List.filter (tracked st) (drop (m_samples_desc_index st) (file_samples st))
    ∧ eof_calls st' = S (eof_calls st)
    ∧ m_pause st' = true
    ∧ m_thread st' = finished
    ∧ at_end st'.
Proof.
  intros Hplays Hdefined Hfuel. unfold read_thread, bind at 1, modify. unfold bind at 1.
  set (st0 := set_m_base_sys_time (clock st) st).
  destruct (read_thread_loop_without_streams
              (length (file_samples st) - m_samples_desc_index st) st0)
    with (fuel := fuel) as (st' & -> & Hd & Heof & Hp & Hend); [done..|].
  eexists. split; [reflexivity|]. simpl. split; [exact Hd|]. split; [exact Heof|].
  split; [exact Hp|]. split; [done|exact Hend].
Qed.

End Motions.

(** * Capture mode *)

Section CaptureMode.
Context `{C : Collaborators}.

Abbreviation state := (disk_read_base C).

Lemma forallb_entries {A} (f : nat * A → bool) (m : gmap nat A) :
  forallb f (entries m) = true ↔ ∀ s a, m !! s = Some a → f (s, a) = true.
Proof.
  rewrite forallb_forall. split.
  - intros H s a Hsa. apply H, list_elem_of_In. rewrite entries_Permutation.
    by apply elem_of_map_to_list.
  - intros H [s a] Hin%list_elem_of_In. rewrite entries_Permutation in Hin.
    apply elem_of_map_to_list in Hin. by apply H.
Qed.

Lemma index_for_validation_done fuel (st : state) :
  m_is_index_complete st = true → index_for_validation fuel st = Returns tt st.
Proof. intros Hc. destruct fuel; simpl; by rewrite Hc. Qed.

(** The first loop ends, with the file complete or with enough frames of
    every stream indexed. *)
Lemma index_for_validation_spec (I : state → Prop) :
  (∀ st, I st → m_is_index_complete st = false →
         I (index_records (m_file_indexing st) NUMBER_OF_SAMPLES_TO_INDEX st)) →
  ∀ fuel st, I st → length (m_file_indexing st) < fuel →
  ∃ st', index_for_validation fuel st = Returns tt st'
         ∧ I st'
         ∧ (m_is_index_complete st' = true ∨ enough_to_validate st').
Proof.
  intros Hstep. induction fuel as [|fuel IH]; intros st HI Hfuel; [lia|].
  destruct (m_is_index_complete st) eqn:Hc.
  { exists st. rewrite index_for_validation_done by done. auto. }
  simpl. rewrite Hc. cbn [negb]. unfold bind at 1, index_next_samples, modify. rewrite Hc.
  set (st1 := index_records (m_file_indexing st) NUMBER_OF_SAMPLES_TO_INDEX st).
  assert (HI1 : I st1) by (by apply Hstep).
  assert (Hnext : ∃ st', index_for_validation fuel st1 = Returns tt st'
                         ∧ I st'
                         ∧ (m_is_index_complete st' = true ∨ enough_to_validate st')).
  { destruct (index_records_step _ st NUMBER_OF_SAMPLES_TO_INDEX_pos Hc)
      as (_ & _ & [Hdone|Hless] & _); fold st1 in Hdone || fold st1 in Hless.
    - exists st1. rewrite index_for_validation_done by done. auto.
    - apply IH; [done|lia]. }
  unfold bind at 1, get.
  destruct (size (m_image_indices st1) <? size (m_streams_infos st1)) eqn:Hsize;
    [exact Hnext|].
  cbv zeta.
  destruct (forallb _ (entries (m_image_indices st1))) eqn:Hall; [|exact Hnext].
  exists st1. split; [reflexivity|]. split; [exact HI1|]. right. split.
  - apply Nat.ltb_ge in Hsize. exact Hsize.
  - intros s l Hsl. rewrite forallb_entries in Hall. specialize (Hall s l Hsl).
    simpl in Hall. apply negb_true_iff, Nat.ltb_ge in Hall. exact Hall.
Qed.

Lemma capture_times_match_spec (m : gmap nat Z) :
  capture_times_match m = true
  ↔ ∀ s1 s2 t1 t2, m !! s1 = Some t1 → m !! s2 = Some t2 → t1 = t2.
Proof.
  unfold capture_times_match.
  destruct (entries m) as [|[s0 base_ct] rest] eqn:Hentries.
  - split; [|done]. intros _ s1 s2 t1 t2 H1.
    assert (Hin : (s1, t1) ∈ entries m)
      by (rewrite entries_Permutation; by apply elem_of_map_to_list).
    rewrite Hentries in Hin. by apply elem_of_nil in Hin.
  - rewrite <- Hentries, forallb_entries.
    assert (Hbase : m !! s0 = Some base_ct).
    { apply elem_of_map_to_list. rewrite <- entries_Permutation, Hentries. by left. }
    split.
    + intros H s1 s2 t1 t2 H1 H2.
      apply H in H1, H2. simpl in H1, H2. apply Z.eqb_eq in H1, H2. congruence.
    + intros H s a Hsa. simpl. apply Z.eqb_eq. by eapply H.
Qed.

Lemma size_insert_pos {A} (k : nat) (a : A) (m : gmap nat A) : 0 < size (<[k := a]> m).
Proof.
  destruct (size (<[k := a]> m)) eqn:Hsize; [|lia].
  apply map_size_empty_inv in Hsize. by apply insert_non_empty in Hsize.
Qed.

Lemma match_capture_times_spec (n : nat) :
  ∀ (descs : list sample) (acc : gmap nat Z),
    match_capture_times n descs acc = synced
    ↔ ∃ k,
        (∃ i f d, descs !! k = Some (frame_sample i f d))
        ∧ let m := foldl (λ m x, match x with
                                 | frame_sample i f _ => <[stream f := capture_time i]> m
                                 | _ => m
                                 end) acc (take (S k) descs) in
          size m = n
          ∧ ∀ s1 s2 t1 t2, m !! s1 = Some t1 → m !! s2 = Some t2 → t1 = t2.
Proof.
  induction descs as [|x descs IH]; intros acc.
  - simpl. split; [discriminate|]. intros (k & (i & f & d & Hk) & _). done.
  - assert (Hshift : (∃ k,
                (∃ i f d, descs !! k = Some (frame_sample i f d))
                ∧ let m := foldl (λ m x, match x with
                                         | frame_sample i f _ =>
                                             <[stream f := capture_time i]> m
                                         | _ => m
                                         end)
                             (match x with
                              | frame_sample i f _ => <[stream f := capture_time i]> acc
                              | _ => acc
                              end) (take (S k) descs) in
                  size m = n
                  ∧ ∀ s1 s2 t1 t2, m !! s1 = Some t1 → m !! s2 = Some t2 → t1 = t2)
              ↔ ∃ k,
                  (∃ i f d, (x :: descs) !! S k = Some (frame_sample i f d))
                  ∧ let m := foldl (λ m x, match x with
                                           | frame_sample i f _ =>
                                               <[stream f := capture_time i]> m
                                           | _ => m
                                           end) acc (take (S (S k)) (x :: descs)) in
                    size m = n
                    ∧ ∀ s1 s2 t1 t2, m !! s1 = Some t1 → m !! s2 = Some t2 → t1 = t2)
      by done.
    destruct x as [i f d|i|i|i|raw i].
    + cbn [match_capture_times]. cbv zeta.
      set (ct := <[stream f := capture_time i]> acc) in *.
      destruct ((0 <? size ct) && (size ct =? n) && capture_times_match ct) eqn:Hcond.
      * split; [intros _|done]. exists 0. split; [simpl; eauto|]. simpl. fold ct.
        apply andb_prop in Hcond as [Hcond Hmatch]. apply andb_prop in Hcond as [_ Hsize].
        split; [by apply Nat.eqb_eq|by apply capture_times_match_spec].
      * rewrite IH, Hshift. split.
        -- intros (k & Hk). by exists (S k).
        -- intros ([|k] & Hk); [|by exists k].
           exfalso. destruct Hk as (_ & Hsize & Hequal). simpl in Hsize, Hequal.
           fold ct in Hsize, Hequal.
           apply capture_times_match_spec in Hequal.
           pose proof (size_insert_pos (stream f) (capture_time i) acc) as Hpos.
           fold ct in Hpos. apply Nat.ltb_lt in Hpos. apply Nat.eqb_eq in Hsize.
           by rewrite Hpos, Hsize, Hequal in Hcond.
    + cbn [match_capture_times]. rewrite IH, Hshift. split.
      * intros (k & Hk). by exists (S k).
      * intros ([|k] & Hk); [|by exists k]. by destruct Hk as ((? & ? & ? & ?) & _).
    + cbn [match_capture_times]. rewrite IH, Hshift. split.
      * intros (k & Hk). by exists (S k).
      * intros ([|k] & Hk); [|by exists k]. by destruct Hk as ((? & ? & ? & ?) & _).
    + cbn [match_capture_times]. rewrite IH, Hshift. split.
      * intros (k & Hk). by exists (S k).
      * intros ([|k] & Hk); [|by exists k]. by destruct Hk as ((? & ? & ? & ?) & _).
    + cbn [match_capture_times]. rewrite IH, Hshift. split.
      * intros (k & Hk). by exists (S k).
      * intros ([|k] & Hk); [|by exists k]. by destruct Hk as ((? & ? & ? & ?) & _).
Qed.

(** X21: [get_capture_mode] always returns, and writes nothing but the index.
    With one stream in the header it returns [synced] and leaves the object
    as it was.  Otherwise it runs the indexer until every stream of the
    header has ten Image samples indexed or the file is complete, and returns
    [synced] exactly when, at some Image sample indexed by then, as many
    streams as the header has have had an Image sample and their latest
    capture times are all equal. *)
Theorem get_capture_mode_spec (st : state) :
  ∃ r st',
    get_capture_mode st = Returns r st'
    ∧ file_samples st' = file_samples st
    ∧ outside_index st' = outside_index st
    ∧ (size (m_streams_infos st) = 1 → r = synced ∧ st' = st)
    ∧ (size (m_streams_infos st) ≠ 1 →
       (m_is_index_complete st' = true ∨ enough_to_validate st')
       ∧ (r = synced
          ↔ ∃ k, synced_at (size (m_streams_infos st)) (m_samples_desc st') k)).
Proof.
  unfold get_capture_mode, bind at 1, get.
  destruct (Nat.eqb_spec (size (m_streams_infos st)) 1) as [Hone|Hmore].
  { exists synced, st. by repeat split. }
  destruct (index_for_validation_spec
              (λ x, file_samples x = file_samples st ∧ outside_index x = outside_index st))
    with (fuel := index_fuel st) (st := st) as (st' & Hloop & (Hfile & Houtside) & Hleft).
  { intros x (Hf & Ho) Hcx.
    destruct (index_records_step _ x NUMBER_OF_SAMPLES_TO_INDEX_pos Hcx) as (Hf' & _).
    cbv zeta in Hf'. split; [by rewrite Hf'|].
    rewrite <- Ho. apply (index_records_keeps outside_index); intros; reflexivity. }
  { done. }
  { unfold index_fuel. lia. }
  unfold bind at 1. rewrite Hloop. unfold bind, get, ret.
  eexists _, st'. split; [reflexivity|]. split; [exact Hfile|]. split; [exact Houtside|].
  split; [done|]. intros _. split; [exact Hleft|].
  assert (Hstreams : m_streams_infos st' = m_streams_infos st) by (by injection Houtside).
  rewrite Hstreams, match_capture_times_spec. unfold synced_at, latest_capture_times.
  split; intros (k & Hk & Hm); exists k; (split; [exact Hk|exact Hm]).
Qed.

End CaptureMode.

(** * The properties on the fixtures *)

Import Fixture.

(** Section 8, first scenario: seeking to the [depth] sample at 20 selects
    the [color] sample at 19 (position 4), not the one at 31. *)
Example find_nearest_frames_two_streams :
  ∃ st', select_nearest_frames 5 depth two_streams = Returns [5; 4] st'
         ∧ stated_nearest (m_samples_desc two_streams) 5 color = Some 4.
Proof. eexists. split; vm_compute; reflexivity. Qed.

(** The same scenario through the general theorem: every Image sample of
    the file belongs to an active stream, and [color] has the samples at 19
    and 31 on both sides of the anchor. *)
Example select_nearest_frames_two_streams :
  ∃ prev_index next_index st',
    select_nearest_frames 5 depth two_streams
    = Returns (nearest_frames st' 5 depth prev_index next_index) st'
    ∧ file_samples st' = file_samples two_streams
    ∧ Some (nearest (m_samples_desc st') 5 depth prev_index next_index color)
      = stated_nearest (file_samples two_streams) 5 color.
Proof.
  assert (Hfile : file_samples two_streams
                  = [image depth 0; image color 0; image depth 10; image color 11;
                     image color 19; image depth 20; image depth 30; image color 31])
    by (vm_compute; reflexivity).
  apply (select_nearest_frames_all_active two_streams 5 depth color 4 7).
  - intros j i f d. rewrite Hfile. intros H.
    do 8 (destruct j as [|j];
          [injection H as <- <- <-; apply elem_of_dom; vm_compute; eauto|simpl in H]).
    done.
  - intros x. rewrite Hfile. intros Hx.
    repeat (apply elem_of_cons in Hx as [->|Hx]; [simpl; lia|]).
    by apply elem_of_nil in Hx.
  - vm_compute. lia.
  - apply elem_of_dom. vm_compute. eauto.
  - discriminate.
  - vm_compute. reflexivity.
  - vm_compute. reflexivity.
Defined.

(** C1 (the code departs from the claim): with [depth] and [color] active and
    frames of the disabled [infrared] in the file, the backward search of
    [find_nearest_frames] stops once it has recorded two streams, [depth] and
    [infrared], before it reaches the [color] frame at position 1; the lookup
    of [color] then yields position 0, and the seek to the [depth] frame at
    position 4 (capture time 103) selects the [color] frame at position 0
    (capture time 0, distance 103), where the closest preceding [color] frame
    is at position 1 (capture time 100, distance 3) and the closest following
    one at position 5 (capture time 1000, distance 897). *)
Theorem find_nearest_frames_inactive_stream_between :
  (∃ st', select_nearest_frames 4 depth three_streams = Returns [4; 0] st')
  ∧ closest_preceding (m_samples_desc three_streams) color 4 = Some 1
  ∧ closest_following (m_samples_desc three_streams) color 4 = Some 5
  ∧ stated_nearest (m_samples_desc three_streams) 4 color = Some 1
  ∧ prev_search (m_samples_desc three_streams) 2 4 ∅ = {[depth := 3; infrared := 2]}.
Proof. split; [eexists|]; repeat split; vm_compute; reflexivity. Qed.

(** Section 8, first scenario again: a seek to time stamp 15 anchors on the
    [color] sample at 19, the first Image sample of the file at or after 15. *)
Example locate_time_stamp_two_streams :
  ∃ st', locate_time_stamp 15 two_streams = Returns (scan_found 4 color) st'.
Proof. eexists. vm_compute. reflexivity. Qed.


(** C3 (the claim as stated fails): at the end of the file a non-empty queue
    counts as buffered although the active stream [depth] has no ready
    sample; and with motion tracking enabled a ready sample for every active
    stream does not count as buffered while the queue holds no more than the
    threshold. *)
Lemma all_samples_bufferd_differs :
  all_samples_bufferd only_motion_left = true
  ∧ stated_all_streams_buffered only_motion_left = false
  ∧ all_samples_bufferd one_frame_ready = false
  ∧ stated_all_streams_buffered one_frame_ready = true.
Proof. repeat split; vm_compute; reflexivity. Qed.

(** C4 at a concrete state: after [enable_stream(color, false)] a prefetch
    with a [color] frame under the cursor. *)
Lemma prefetch_sample_inactive_image_witness :
  m_samples_desc color_disabled !! m_samples_desc_index color_disabled = Some (image color 0)
  ∧ m_active_streams_info color_disabled !! color = None
  ∧ ∃ st',
      prefetch_sample 4 color_disabled = Returns tt st'
      ∧ st' = (if all_samples_bufferd color_disabled then color_disabled
               else set_m_samples_desc_index (S (m_samples_desc_index color_disabled))
                      color_disabled)
      ∧ m_file_data_read st' = m_file_data_read color_disabled
      ∧ m_decoder st' = m_decoder color_disabled
      ∧ m_prefetched_samples st' = m_prefetched_samples color_disabled
      ∧ (∀ s, ready_count st' s = ready_count color_disabled s)
      ∧ ready_count st' color = 0%Z.
Proof.
  split; [vm_compute; reflexivity|]. split; [vm_compute; reflexivity|].
  apply (prefetch_sample_inactive_image 4 color_disabled
           {| capture_time := 0; offset := 0 |}
           {| stream := color; time_stamp := inject_Z 0; ctype := none; number := 0 |} []).
  - vm_compute; reflexivity.
  - vm_compute; reflexivity.
Defined.

(** There the buffer is not full: the prefetch consumes the [color]
    descriptor and [color] has no ready sample. *)
Example prefetch_sample_color_disabled :
  all_samples_bufferd color_disabled = false
  ∧ m_samples_desc_index (after (prefetch_sample 4) color_disabled) = 1
  ∧ m_prefetched_samples (after (prefetch_sample 4) color_disabled) = []
  ∧ m_active_streams_info (after (prefetch_sample 4) color_disabled) !! color = None.
Proof. repeat split; vm_compute; reflexivity. Qed.

(** C5 (the code departs from the claim): the stated delay of a sample
    3 * 10^9 microseconds after the time base is 3 * 10^9; [calc_sleep_time]
    casts the difference to [int] and yields 3 * 10^9 - 2^32, which is
    negative, so the realtime read loop delivers the sample at once, with the
    clock still at 0. *)
Theorem calc_sleep_time_wraps :
  stated_due_delay long_gap (motion 3000000000) = 3000000000%Z
  ∧ calc_sleep_time long_gap (motion 3000000000) = (-1294967296)%Z
  ∧ m_realtime long_gap = true
  ∧ delivered (after (read_thread 16 None) long_gap) = [motion 0; motion 3000000000]
  ∧ clock (after (read_thread 16 None) long_gap) = 0%Z.
Proof. repeat split; vm_compute; reflexivity. Qed.

(** A play-through to the end of the file: two frames delivered, one call of
    the end-of-file callback, and the engine paused. *)
Example read_thread_played :
  eof_calls played = 1 ∧ length (delivered played) = 2 ∧ m_pause played = true
  ∧ m_thread played = finished.
Proof. repeat split; vm_compute; reflexivity. Qed.


(** C8 (the code departs from the claim): the file ends after the header of
    a sample-data chunk of 16 bytes; the read of the payload fails and
    delivers nothing, and [read_image_buffer] still yields a sample. *)
Theorem read_image_buffer_failed_read :
  snd (script_read_bytes
         (fst (script_read_chunk truncated {| id_ := chunk_other 0; size_ := 0 |})) 16) = []
  ∧ ∃ st', read_image_buffer 3 at_start raw_frame (constructed truncated [])
           = Returns (Some (frame_sample at_start raw_frame [])) st'.
Proof. split; [|eexists]; vm_compute; reflexivity. Qed.

(** Once the file has no chunk header left, every header read fails and
    leaves the metadata chunk in place. *)
Lemma read_chunks_stale_chunk (fuel : nat) (st : disk_read_base scripted) :
  chunks (m_file_data_read st) = [] →
  read_chunks fuel at_start raw_frame {| id_ := chunk_image_metadata; size_ := 8 |} st
  = OutOfFuel.
Proof.
  revert st. induction fuel as [|fuel IH]; intros st Hst; [reflexivity|].
  simpl. unfold bind at 1, on_file. simpl. unfold script_read_chunk. rewrite Hst.
  simpl. unfold bind at 1, on_file. simpl. apply IH. exact Hst.
Qed.

(** On a file that ends after a metadata chunk the loop of
    [read_image_buffer] does not end, whatever the fuel. *)
Lemma read_image_buffer_stale_chunk (fuel : nat) :
  read_image_buffer fuel at_start raw_frame (constructed truncated_after_metadata [])
  = OutOfFuel.
Proof.
  unfold read_image_buffer, bind at 1, on_file. simpl.
  unfold bind at 1, get. unfold bind at 1, init_decoder, modify. simpl.
  destruct fuel as [|fuel]; [reflexivity|]. simpl.
  unfold bind at 1, on_file. simpl. unfold bind at 1, on_file. simpl.
  apply read_chunks_stale_chunk. reflexivity.
Qed.

(** C9 (the code departs from the claim): the header declares [depth] and
    [color]; [enable_stream(fisheye, true)] throws, but after
    [query_number_of_frames(fisheye)], whose subscript creates an entry of
    [m_streams_infos], it succeeds and [fisheye] is active. *)
Theorem enable_stream_after_query_number_of_frames :
  dom (m_streams_infos depth_and_color) = {[depth; color]}
  ∧ enable_stream fisheye true depth_and_color
    = Throws "unsupported stream"%string depth_and_color
  ∧ ∃ st1 st2,
      query_number_of_frames fisheye depth_and_color = Returns 0%Z st1
      ∧ enable_stream fisheye true st1 = Returns tt st2
      ∧ dom (m_active_streams_info st2) = {[fisheye]}.
Proof.
  split; [vm_compute; reflexivity|]. split; [vm_compute; reflexivity|].
  eexists _, _. split; [vm_compute; reflexivity|]. split; vm_compute; reflexivity.
Qed.

(** * Further properties on the fixtures *)


(** The scripted file past its last chunk header: reads fail and leave the
    file where it is. *)
Lemma read_chunks_stale_header_at_end :
  script_read_chunk no_file {| id_ := chunk_image_metadata; size_ := 8 |}
  = (no_file, {| id_ := chunk_image_metadata; size_ := 8 |})
  ∧ read_chunks 5 at_start raw_frame {| id_ := chunk_image_metadata; size_ := 8 |}
      (constructed no_file [])
    = OutOfFuel.
Proof.
  split; [reflexivity|].
  apply (read_chunks_stale_header 5 at_start raw_frame
           {| id_ := chunk_image_metadata; size_ := 8 |} (constructed no_file []));
    reflexivity.
Defined.

(** Two VGA streams: the buffer is sized for 640 x 480 pixels of four bytes. *)
Lemma init_decoder_worst_case_vga :
  ∃ st', init_decoder two_streams = Returns tt st'
         ∧ m_encoded_data st' = 1228800%Z.
Proof.
  destruct (init_decoder_worst_case two_streams) as (st' & Hrun & _ & _ & Hle & Hmax).
  - intros s a Hsa. apply elem_of_map_to_list in Hsa. revert Hsa.
    set (l := map_to_list (m_active_streams_info two_streams)).
    vm_compute in l. subst l. intros Hsa.
    repeat (apply elem_of_cons in Hsa as [[= -> ->]|Hsa]; [simpl; lia|]).
    by apply elem_of_nil in Hsa.
  - exists st'. split; [exact Hrun|].
    injection Hrun as <-. vm_compute. reflexivity.
Defined.

(** [color] of [depth_and_color], enabled and disabled again. *)
Lemma enable_stream_round_trip_color :
  m_streams_infos depth_and_color !! color = Some vga
  ∧ ∃ st1 st2,
      enable_stream color true depth_and_color = Returns tt st1
      ∧ enable_stream color false st1 = Returns tt st2
      ∧ m_active_streams_info st2 = m_active_streams_info depth_and_color.
Proof.
  assert (Hcolor : m_streams_infos depth_and_color !! color = Some vga)
    by (vm_compute; reflexivity).
  split; [exact Hcolor|].
  destruct (enable_stream_round_trip color depth_and_color vga Hcolor)
    as (st1 & st2 & H1 & _ & H2 & _ & Hsame & _).
  exists st1, st2. split; [exact H1|]. split; [exact H2|].
  apply Hsame. vm_compute; reflexivity.
Defined.


(** The first prefetch of [two_streams]. *)
Lemma prefetch_sample_consumes_first :
  m_samples_desc two_streams !! m_samples_desc_index two_streams = Some (image depth 0)
  ∧ all_samples_bufferd two_streams = false
  ∧ m_samples_desc_index (after (prefetch_sample 4) two_streams) = 1.
Proof.
  assert (Hx : m_samples_desc two_streams !! m_samples_desc_index two_streams
               = Some (image depth 0)) by (vm_compute; reflexivity).
  split; [exact Hx|].
  destruct (prefetch_sample_consumes 4 two_streams (image depth 0) Hx) as (Hempty & _ & Hstep).
  split; [apply Hempty; vm_compute; reflexivity|].
  vm_compute; reflexivity.
Defined.

Lemma scripted_codec_keeps_stream : codec_keeps_stream (C := scripted).
Proof. intros cfg i f data x [= <-]. simpl. apply Nat.eqb_refl. Qed.

(** A play-through of [two_streams] with the scripted codec, which hands the
    payload back as the frame it was given. *)
Lemma reader_keeps_counters_in_step_scripted :
  codec_keeps_stream (C := scripted)
  ∧ counters_in_step (after resume two_streams)
  ∧ counters_in_step (after (read_thread 16 None) (after resume two_streams)).
Proof.
  split; [exact scripted_codec_keeps_stream|].
  assert (Hresumed : counters_in_step (after resume two_streams)).
  { intros s. unfold ready_count.
    change (m_prefetched_samples (after resume two_streams)) with (@nil sample). cbn [queued].
    destruct (m_active_streams_info (after resume two_streams) !! s) as [a|] eqn:Hs; [|done].
    apply elem_of_map_to_list in Hs. revert Hs.
    set (l := map_to_list (m_active_streams_info (after resume two_streams))).
    vm_compute in l. subst l. intros Hs.
    repeat (apply elem_of_cons in Hs as [[= -> ->]|Hs]; [reflexivity|]).
    by apply elem_of_nil in Hs. }
  split; [exact Hresumed|].
  destruct (reader_keeps_counters_in_step scripted_codec_keeps_stream)
    as (_ & _ & _ & Hthread & _).
  specialize (Hthread 16 None (after resume two_streams) Hresumed).
  unfold after at 1, state_of.
  destruct (read_thread 16 None (after resume two_streams)); [exact Hthread..|exact Hresumed].
Defined.

(** After [query_number_of_frames(fisheye)] and [enable_stream(fisheye)] on
    [depth_and_color] every active stream still has its entry. *)
Lemma streams_stay_declared_scripted :
  codec_keeps_stream (C := scripted)
  ∧ declared_only depth_and_color
  ∧ declared_only
      (after (enable_stream fisheye true) (after (query_number_of_frames fisheye) depth_and_color)).
Proof.
  split; [exact scripted_codec_keeps_stream|].
  assert (Hstart : declared_only depth_and_color).
  { unfold declared_only.
    change (m_prefetched_samples depth_and_color) with (@nil sample).
    change (m_active_streams_info depth_and_color) with (∅ : gmap nat active_stream_info).
    simpl. rewrite dom_empty_L, (left_id_L ∅ (∪)). apply empty_subseteq. }
  split; [exact Hstart|].
  destruct (streams_stay_declared scripted_codec_keeps_stream)
    as (Henable & _ & _ & _ & _ & _ & Hquery & _).
  assert (Hqueried : declared_only (after (query_number_of_frames fisheye) depth_and_color)).
  { specialize (Hquery fisheye depth_and_color Hstart). unfold after, state_of.
    destruct (query_number_of_frames fisheye depth_and_color); [exact Hquery..|exact Hstart]. }
  specialize (Henable fisheye true _ Hqueried). unfold after at 1, state_of.
  destruct (enable_stream fisheye true _); [exact Henable..|exact Hqueried].
Defined.

(** The seek of section 8 to the [depth] sample at 20. *)
Lemma find_nearest_frames_flushes_two_streams :
  m_samples_desc two_streams !! 5 = Some (image depth 20)
  ∧ m_samples_desc_index (after (find_nearest_frames 4 5 depth) two_streams) = 6
  ∧ length (m_prefetched_samples (after (find_nearest_frames 4 5 depth) two_streams)) ≤ 1.
Proof.
  assert (Hx : m_samples_desc two_streams !! 5 = Some (image depth 20))
    by (vm_compute; reflexivity).
  split; [exact Hx|].
  pose proof (find_nearest_frames_flushes 4 5 depth two_streams (image depth 20) Hx) as Hseek.
  assert (Hreturns : ∃ rv st', find_nearest_frames 4 5 depth two_streams = Returns rv st')
    by (eexists _, _; vm_compute; reflexivity).
  destruct Hreturns as (rv & st' & Hreturns). unfold after, state_of.
  rewrite Hreturns in Hseek |- *. destruct Hseek as (Hcursor & Hqueue & _).
  split; [exact Hcursor|exact Hqueue].
Defined.


(** The play-through of [motion_only]: the three motion samples are
    delivered, the [depth] frame is skipped. *)
Lemma read_thread_without_streams_motion_only :
  plays_without_streams motion_only
  ∧ ∃ st',
      read_thread 16 None motion_only = Returns tt st'
      ∧ delivered st' = [motion 0; motion 5; motion 9]
      ∧ eof_calls st' = 1
      ∧ m_pause st' = true.
Proof.
  assert (Hplays : plays_without_streams motion_only).
  { unfold plays_without_streams.
    change (m_active_streams_info motion_only) with (∅ : gmap nat active_stream_info).
    change (m_prefetched_samples motion_only) with (@nil sample).
    repeat split; vm_compute; reflexivity. }
  split; [exact Hplays|].
  destruct (read_thread_without_streams motion_only 16 Hplays)
    as (st' & Hrun & Hdelivered & Heof & Hpause & _).
  - change (drop (m_samples_desc_index motion_only) (file_samples motion_only))
      with [motion 0; motion 5; image depth 7; motion 9].
    repeat constructor.
  - vm_compute. lia.
  - exists st'. split; [exact Hrun|]. split; [|split; [|exact Hpause]].
    + rewrite Hdelivered. vm_compute. reflexivity.
    + rewrite Heof. vm_compute. reflexivity.
Defined.

(** A motion sample 5 microseconds after the time base. *)
Lemma calc_sleep_time_in_range_long_gap :
  stated_due_delay long_gap (motion 5) = 5%Z
  ∧ calc_sleep_time long_gap (motion 5) = 5%Z.
Proof.
  assert (Hstated : stated_due_delay long_gap (motion 5) = 5%Z) by (vm_compute; reflexivity).
  split; [exact Hstated|].
  rewrite (calc_sleep_time_in_range long_gap (motion 5)); [exact Hstated|].
  rewrite Hstated. lia.
Defined.

(** The wait of [waiting_for_last]: 5000 microseconds. *)
Lemma read_next_sample_waits_for_last :
  calc_sleep_time waiting_for_last (motion 5000) = 5000%Z
  ∧ ∃ st',
      read_next_sample 1 waiting_for_last = Returns true st'
      ∧ clock st' = (clock waiting_for_last + 5000)%Z
      ∧ delivered st' = delivered waiting_for_last
      ∧ calc_sleep_time st' (motion 5000) = 0%Z.
Proof.
  assert (Hdelay : calc_sleep_time waiting_for_last (motion 5000) = 5000%Z)
    by (vm_compute; reflexivity).
  split; [exact Hdelay|].
  assert (Hrun : read_next_sample 1 waiting_for_last
                 = Returns true (after (read_next_sample 1) waiting_for_last))
    by (vm_compute; reflexivity).
  destruct (read_next_sample_waits 0 waiting_for_last (motion 5000) [])
    as (st' & Hread & _ & _ & Hdue).
  - vm_compute; reflexivity.
  - vm_compute; reflexivity.
  - vm_compute; reflexivity.
  - vm_compute. lia.
  - vm_compute; reflexivity.
  - rewrite Hdelay. lia.
  - rewrite Hrun in Hread. injection Hread as <-.
    exists (after (read_next_sample 1) waiting_for_last).
    split; [exact Hrun|]. split; [vm_compute; reflexivity|]. split; [vm_compute; reflexivity|].
    apply Hdue. rewrite Hdelay. lia.
Defined.

(** The frames of the seek of section 8 to the [depth] sample at 20. *)
Lemma find_nearest_frames_keyed_two_streams :
  codec_keeps_stream (C := scripted)
  ∧ ∃ rv st',
      find_nearest_frames 4 5 depth two_streams = Returns rv st'
      ∧ (∀ s x, rv !! s = Some x → image_of s x = true)
      ∧ size rv ≤ size (m_active_streams_info two_streams).
Proof.
  split; [exact scripted_codec_keeps_stream|].
  assert (Hreturns : ∃ rv st', find_nearest_frames 4 5 depth two_streams = Returns rv st')
    by (eexists _, _; vm_compute; reflexivity).
  destruct Hreturns as (rv & st' & Hreturns). exists rv, st'. split; [exact Hreturns|].
  exact (find_nearest_frames_keyed 4 5 depth two_streams st' rv
           scripted_codec_keeps_stream Hreturns).
Defined.
